(** * ai-resource-configurator: validators and rule-based helpers

    A shallow embedding of [src/lib/validators.ts] and
    [src/lib/ai-helpers.ts], with the properties the design document
    states about them.

    Conventions of the embedding.
    - A JavaScript string is a [string] over 8-bit characters, the first
      256 code points; case folding and white space are those of these
      characters.
    - The functions of [ai-helpers.ts] that are typed by the interfaces of
      [types.ts] take rows whose fields are strings: a field value is
      [option string], [None] being [undefined] (the field is missing from
      the row).
    - The validators, the suggestions on the quality of the data and the
      route take rows of type [any]: a cell is a value of JSON ([null], a
      boolean, a number, a string, an array or an object), as the body of
      a request and the loaders of tables deliver them, and [None] is
      [undefined].  The objects are those that take their [toString] from
      [Object.prototype]: on an object with a member of its own of that
      name, the conversion to a string raises a TypeError.
    - A JavaScript number is a [number]: NaN, an infinity or a rational;
      arithmetic results are rounded to binary64 by [binary64]. *)

From Stdlib Require Import ZArith QArith Lia Lqa Ascii String.
From stdpp Require Import base list gmap strings pretty.

Local Open Scope Z_scope.
Local Open Scope nat_scope.

(* ===================================================================== *)
(** * The JavaScript primitives the sources rely on *)
(* ===================================================================== *)
Module JS.

(** ** Characters and strings *)

(** White space of [String.prototype.trim], of [parseInt], of [Number] and
    of the regular expression class [\s], among the 8-bit characters: TAB,
    LF, VT, FF, CR, SPACE and the no-break space (character 160). *)
Definition isWhiteSpace (c : ascii) : bool :=
  Ascii.is_space c || (nat_of_ascii c =? 160).

Definition isDigit (c : ascii) : bool :=
  let n := nat_of_ascii c in (48 <=? n) && (n <=? 57).

Definition isLower (c : ascii) : bool :=
  let n := nat_of_ascii c in (97 <=? n) && (n <=? 122).

(** [toLowerCase] on one 8-bit character: the letters A to Z, and the
    capital letters of Latin-1, characters 192 to 222 but for the
    multiplication sign 215. *)
Definition toLowerChar (c : ascii) : ascii :=
  let n := nat_of_ascii c in
  if (65 <=? n) && (n <=? 90)
     || (192 <=? n) && (n <=? 222) && negb (n =? 215)
  then ascii_of_nat (n + 32) else c.

Fixpoint toLowerCase (s : string) : string :=
  match s with
  | EmptyString => EmptyString
  | String c s' => String (toLowerChar c) (toLowerCase s')
  end.

Fixpoint trimStart (s : string) : string :=
  match s with
  | String c s' => if isWhiteSpace c then trimStart s' else s
  | EmptyString => EmptyString
  end.

Definition trimEnd (s : string) : string :=
  String.rev (trimStart (String.rev s)).

Definition trim (s : string) : string := trimEnd (trimStart s).

(** [s.includes(sub)] *)
Fixpoint includes (s sub : string) : bool :=
  String.prefix sub s ||
  match s with
  | String _ s' => includes s' sub
  | EmptyString => false
  end.

(** [s.replace(/[...]/g, '')] for a character class. *)
Fixpoint removeAll (cls : ascii → bool) (s : string) : string :=
  match s with
  | EmptyString => EmptyString
  | String c s' =>
      if cls c then removeAll cls s' else String c (removeAll cls s')
  end.

(** [s.split(sep)] for a one-character separator: never empty. *)
Fixpoint split_go (sep : ascii) (cur : string) (s : string) : list string :=
  match s with
  | EmptyString => [String.rev cur]
  | String c s' =>
      if Ascii.eqb c sep then String.rev cur :: split_go sep EmptyString s'
      else split_go sep (String c cur) s'
  end.
Definition split (sep : ascii) (s : string) : list string :=
  split_go sep EmptyString s.

(** [l.join(sep)] *)
Fixpoint join (sep : string) (l : list string) : string :=
  match l with
  | [] => EmptyString
  | [x] => x
  | x :: l' => x +:+ sep +:+ join sep l'
  end.

(** Truthiness of a field value: [undefined] and [''] are falsy. *)
Definition truthy (v : option string) : bool :=
  match v with
  | Some (String _ _) => true
  | _ => false
  end.

(** ** Numbers *)

Inductive number : Type :=
| NaN
| Fin (q : Q)
| Inf (negative : bool).

Definition isNaN (x : number) : bool :=
  match x with NaN => true | _ => false end.

(** The order of two numbers; [None] when one of them is NaN, for which
    every comparison of JavaScript is false. *)
Definition compare (x y : number) : option comparison :=
  match x, y with
  | NaN, _ | _, NaN => None
  | Fin p, Fin q => Some (p ?= q)%Q
  | Fin _, Inf neg => Some (if neg then Gt else Lt)
  | Inf neg, Fin _ => Some (if neg then Lt else Gt)
  | Inf n1, Inf n2 =>
      Some (match n1, n2 with
            | true, false => Lt
            | false, true => Gt
            | _, _ => Eq
            end)
  end.

Definition lt (x y : number) : bool :=
  match compare x y with Some Lt => true | _ => false end.
Definition gt (x y : number) : bool := lt y x.
Definition le (x y : number) : bool :=
  match compare x y with Some Lt | Some Eq => true | _ => false end.
Definition ge (x y : number) : bool := le y x.
(** [x === y] on numbers: NaN is equal to nothing, itself included. *)
Definition eq (x y : number) : bool :=
  match compare x y with Some Eq => true | _ => false end.

Definition ofZ (z : Z) : number := Fin (inject_Z z).
Definition ofNat (n : nat) : number := ofZ (Z.of_nat n).

(** ** Rounding to binary64

    The arithmetic of JavaScript is that of IEEE 754 binary64 with
    rounding to nearest, ties to even.  [binary64 q] is the number nearest
    to the rational [q]: 53 bits of mantissa, exponents from -1022
    (below which the numbers are subnormal) to 1023 (above which the result
    is an infinity).  The sign of zero is not kept. *)

Definition roundHalfEven (n d : Z) : Z :=
  let q := (n / d)%Z in
  let r := (n mod d)%Z in
  match (2 * r ?= d)%Z with
  | Lt => q
  | Gt => (q + 1)%Z
  | Eq => if Z.even q then q else (q + 1)%Z
  end.

(** [binade a d] is the integer [e] with [2^e <= a/d < 2^(e+1)]. *)
Definition binade (a d : Z) : Z :=
  let e0 := (Z.log2 a - Z.log2 d)%Z in
  if (0 <=? e0)%Z
  then (if (a <? d * 2 ^ e0)%Z then e0 - 1 else e0)%Z
  else (if (a * 2 ^ (- e0) <? d)%Z then e0 - 1 else e0)%Z.

Definition binary64 (q : Q) : number :=
  let n := Qnum q in
  let d := Zpos (Qden q) in
  if (n =? 0)%Z then Fin 0 else
  let a := Z.abs n in
  let e := Z.max (binade a d) (-1022) in
  let sh := (52 - e)%Z in
  let m := if (0 <=? sh)%Z then roundHalfEven (a * 2 ^ sh) d
           else roundHalfEven a (d * 2 ^ (- sh)) in
  if (1023 <? e)%Z || ((e =? 1023)%Z && (m =? 2 ^ 53)%Z)
  then Inf (n <? 0)%Z
  else
    let v := if (0 <=? sh)%Z then Qmake m (Z.to_pos (2 ^ sh))
             else inject_Z (m * 2 ^ (- sh)) in
    Fin (Qred (if (n <? 0)%Z then Qopp v else v)).

Definition isZero (q : Q) : bool := (Qnum q =? 0)%Z.
Definition isNeg (q : Q) : bool := (Qnum q <? 0)%Z.

(** [x / y] *)
Definition div (x y : number) : number :=
  match x, y with
  | Fin p, Fin q =>
      if isZero q then (if isZero p then NaN else Inf (isNeg p))
      else binary64 (p / q)
  | Fin _, Inf _ => Fin 0
  | Inf n, Fin q => Inf (xorb n (isNeg q))
  | _, _ => NaN
  end.

(** [x + y] *)
Definition add (x y : number) : number :=
  match x, y with
  | Fin p, Fin q => binary64 (p + q)
  | Inf n, Fin _ | Fin _, Inf n => Inf n
  | Inf n1, Inf n2 => if Bool.eqb n1 n2 then Inf n1 else NaN
  | _, _ => NaN
  end.

Definition opp (x : number) : number :=
  match x with
  | NaN => NaN
  | Fin q => Fin (Qred (- q))
  | Inf n => Inf (negb n)
  end.

(** [x - y] *)
Definition sub (x y : number) : number := add x (opp y).

(** Truthiness of a number, as in [x || 0]: NaN and zero are falsy. *)
Definition truthyNumber (x : number) : bool :=
  match x with
  | NaN => false
  | Fin q => negb (isZero q)
  | Inf _ => true
  end.

(** ** Reading numbers from strings *)

Definition digitValue (radix : Z) (c : ascii) : option Z :=
  let n := Z.of_nat (nat_of_ascii c) in
  let v := if (48 <=? n)%Z && (n <=? 57)%Z then Some (n - 48)%Z
           else if (97 <=? n)%Z && (n <=? 122)%Z then Some (n - 87)%Z
           else if (65 <=? n)%Z && (n <=? 90)%Z then Some (n - 55)%Z
           else None in
  match v with
  | Some d => if (d <? radix)%Z then Some d else None
  | None => None
  end.

(** The longest prefix of digits of the radix: its value, the number of
    digits read and the rest of the string. *)
Fixpoint digits (radix acc : Z) (count : nat) (s : string)
  : Z * nat * string :=
  match s with
  | String c s' =>
      match digitValue radix c with
      | Some d => digits radix (acc * radix + d)%Z (S count) s'
      | None => (acc, count, s)
      end
  | EmptyString => (acc, count, s)
  end.

Definition stripSign (s : string) : bool * string :=
  match s with
  | String "-" s' => (true, s')
  | String "+" s' => (false, s')
  | _ => (false, s)
  end.

(** [parseInt(s)] without a radix: leading white space, a sign, an
    optional [0x] prefix, then the longest run of digits; whatever follows
    is ignored, and no digit at all gives NaN. *)
Definition parseInt (s : string) : number :=
  let '(neg, s1) := stripSign (trimStart s) in
  let '(radix, s2) :=
    match s1 with
    | String "0" (String "x" s') | String "0" (String "X" s') => (16%Z, s')
    | _ => (10%Z, s1)
    end in
  let '(v, count, _) := digits radix 0 0 s2 in
  if count =? 0 then NaN
  else binary64 (inject_Z (if neg then - v else v)).

(** [parseInt(v)] on a field: [undefined] reads as the text "undefined". *)
Definition parseIntOf (v : option string) : number :=
  match v with
  | Some s => parseInt s
  | None => NaN
  end.

(** A literal [0x..], [0o..] or [0b..], taking the whole string. *)
Definition parseNonDecimal (t : string) : option Z :=
  let go radix s :=
    let '(v, count, rest) := digits radix 0 0 s in
    if (0 <? count) && bool_decide (rest = EmptyString) then Some v
    else None in
  match t with
  | String "0" (String "x" s) | String "0" (String "X" s) => go 16%Z s
  | String "0" (String "o" s) | String "0" (String "O" s) => go 8%Z s
  | String "0" (String "b" s) | String "0" (String "B" s) => go 2%Z s
  | _ => None
  end.

(** An unsigned decimal literal taking the whole string: digits, an
    optional fraction, an optional exponent, with a digit before or after
    the point. *)
Definition parseUnsignedDecimal (t : string) : option Q :=
  let '(ip, icount, r1) := digits 10 0 0 t in
  let '(fp, fcount, r2) :=
    match r1 with
    | String "." r => digits 10 0 0 r
    | _ => (0%Z, 0, r1)
    end in
  if (icount + fcount =? 0) then None else
  let mant := (ip * 10 ^ Z.of_nat fcount + fp)%Z in
  let value (ex : Z) : Q :=
    let k := (ex - Z.of_nat fcount)%Z in
    if (0 <=? k)%Z then inject_Z (mant * 10 ^ k)
    else Qmake mant (Z.to_pos (10 ^ (- k))) in
  match r2 with
  | EmptyString => Some (value 0%Z)
  | String c r3 =>
      if Ascii.eqb c "e" || Ascii.eqb c "E" then
        let '(neg, r4) := stripSign r3 in
        let '(ev, ecount, r5) := digits 10 0 0 r4 in
        if (0 <? ecount) && bool_decide (r5 = EmptyString)
        then Some (value (if neg then - ev else ev)%Z)
        else None
      else None
  end.

(** [Number(s)] on a string: white space is trimmed away; the empty
    string is 0; anything that is not a numeric literal is NaN. *)
Definition StringToNumber (s : string) : number :=
  let t := trim s in
  if bool_decide (t = EmptyString) then Fin 0 else
  match parseNonDecimal t with
  | Some z => binary64 (inject_Z z)
  | None =>
      let '(neg, u) := stripSign t in
      if bool_decide (u = "Infinity") then Inf neg else
      match parseUnsignedDecimal u with
      | Some q => binary64 (if neg then Qopp q else q)
      | None => NaN
      end
  end.

(** [Number(v)] on a field: [undefined] is NaN. *)
Definition Number (v : option string) : number :=
  match v with
  | Some s => StringToNumber s
  | None => NaN
  end.

(** ** Regular expressions

    The fragment the sources use: character classes, sequence,
    alternation, greedy repetition and one capturing group, matched by
    backtracking as ECMAScript prescribes (first alternative first, longest
    repetition first, an empty iteration of a repetition refused). *)

Inductive regex : Type :=
| Eps
| Chr (cls : ascii → bool)
| Seq (r1 r2 : regex)
| Alt (r1 r2 : regex)
| Star (r : regex)
| Group (r : regex).

Definition Opt (r : regex) : regex := Alt r Eps.
Definition Plus (r : regex) : regex := Seq r (Star r).
Definition Char (c : ascii) : regex := Chr (Ascii.eqb c).
Fixpoint Lit (s : string) : regex :=
  match s with
  | EmptyString => Eps
  | String c s' => Seq (Char c) (Lit s')
  end.

(** [run r s cap k] matches [r] at the start of [s] and hands the rest of
    the string and the capture to the continuation [k]; [None] makes the
    matcher backtrack. *)
Fixpoint run {A : Type} (r : regex) (s : string) (cap : option string)
    (k : string → option string → option A) : option A :=
  match r with
  | Eps => k s cap
  | Chr cls =>
      match s with
      | String c s' => if cls c then k s' cap else None
      | EmptyString => None
      end
  | Seq r1 r2 => run r1 s cap (fun s' cap' => run r2 s' cap' k)
  | Alt r1 r2 =>
      match run r1 s cap k with
      | Some a => Some a
      | None => run r2 s cap k
      end
  | Star r1 =>
      (fix loop (fuel : nat) (s : string) (cap : option string) : option A :=
         match fuel with
         | O => k s cap
         | S fuel' =>
             match run r1 s cap
                     (fun s' cap' =>
                        if String.length s' <? String.length s
                        then loop fuel' s' cap' else None) with
             | Some a => Some a
             | None => k s cap
             end
         end) (String.length s) s cap
  | Group r1 =>
      run r1 s cap
        (fun s' _ =>
           k s' (Some (substring 0 (String.length s - String.length s') s)))
  end.

(** [s.match(r)] for a regular expression without the [g] flag: the
    leftmost match.  [None] is [null]; [Some cap] is a match whose group 1
    is [cap]. *)
Fixpoint match_ (r : regex) (s : string) : option (option string) :=
  match run r s None (fun _ cap => Some cap) with
  | Some cap => Some cap
  | None =>
      match s with
      | String _ s' => match_ r s'
      | EmptyString => None
      end
  end.

(** [/^r$/.test(s)] *)
Definition testWhole (r : regex) (s : string) : bool :=
  bool_decide
    (is_Some (run r s None
                (fun s' _ => if bool_decide (s' = EmptyString)
                             then Some tt else None))).

Definition digit : regex := Chr isDigit.
Definition space : regex := Chr isWhiteSpace.

(** [x * y] *)
Definition mul (x y : number) : number :=
  match x, y with
  | Fin p, Fin q => binary64 (p * q)
  | Fin p, Inf n | Inf n, Fin p =>
      if isZero p then NaN else Inf (xorb n (isNeg p))
  | Inf n1, Inf n2 => Inf (xorb n1 n2)
  | _, _ => NaN
  end.

(** ** Numbers as strings

    [Number::toString] for radix 10: the digits are the fewest whose
    decimal rounds to the number, [k] digits [s] and an exponent [n] with
    [s * 10^(n-k)] the number written. *)

Definition pow10 (e : Z) : Q :=
  if (0 <=? e)%Z then inject_Z (10 ^ e) else 1 # Z.to_pos (10 ^ (- e)).

(** [decade q] is the integer [e] with [10^e <= q < 10^(e+1)], for a
    positive [q]: it is searched around the estimate the binary logarithms
    of the numerator and of the denominator give. *)
Definition decade (q : Q) : Z :=
  let est :=
    ((Z.log2 (Qnum q) - Z.log2 (Zpos (Qden q))) * 30103 / 100000)%Z in
  let fits (e : Z) : bool :=
    Qle_bool (pow10 e) q && negb (Qle_bool (pow10 (e + 1)) q) in
  default est
    (head (List.filter fits [est - 2; est - 1; est; est + 1; est + 2]%Z)).

Definition floor (q : Q) : Z := (Qnum q / Zpos (Qden q))%Z.

Definition absQ (q : Q) : Q := Z.abs (Qnum q) # Qden q.

(** The decimal [v] rounds to the number [q]. *)
Definition roundsTo (q v : Q) : bool :=
  match binary64 v with
  | Fin r => Qeq_bool r q
  | _ => false
  end.

(** The integers [s] of [k] digits for a positive [q] below [10^n]: those
    of the two integers around [q / 10^(n-k)] whose product by [10^(n-k)]
    rounds to [q], the nearer to [q] first, the even one first when they
    are as near. *)
Definition shortestAt (q : Q) (n k : Z) : list Z :=
  let scale := pow10 (n - k) in
  let lo := floor (q / scale) in
  let hi := (lo + 1)%Z in
  let dist (s : Z) : Q := absQ (inject_Z s * scale - q) in
  let ordered :=
    match (dist lo ?= dist hi)%Q with
    | Lt => [lo; hi]
    | Gt => [hi; lo]
    | Eq => if Z.even lo then [lo; hi] else [hi; lo]
    end in
  List.filter (fun s => roundsTo q (inject_Z s * scale)) ordered.

(** The digits [s], their number [k] and the exponent [n] of a positive
    number: [k] is as small as can be, and is 17 at most for a binary64
    number. *)
Definition shortest (q : Q) : Z * Z * Z :=
  let n := (decade q + 1)%Z in
  let try (k : Z) : option (Z * Z * Z) :=
    match shortestAt q n k with
    | s :: _ =>
        if (s =? 10 ^ k)%Z then Some ((10 ^ (k - 1))%Z, k, (n + 1)%Z)
        else Some (s, k, n)
    | [] => None
    end in
  default (floor (q / pow10 (n - 17)), 17%Z, n)
    (head (omap try (Z.of_nat <$> seq 1 17))).

Definition zeros (n : Z) : string :=
  string_of_list_ascii (replicate (Z.to_nat n) "0"%char).

(** The text of a positive number. *)
Definition positiveToString (q : Q) : string :=
  let '(s, k, n) := shortest q in
  let digits : string := pretty s in
  if (k <=? n)%Z && (n <=? 21)%Z then digits +:+ zeros (n - k)
  else if (0 <? n)%Z && (n <=? 21)%Z then
    substring 0 (Z.to_nat n) digits +:+ "."
      +:+ substring (Z.to_nat n) (Z.to_nat (k - n)) digits
  else if (-6 <? n)%Z && (n <=? 0)%Z then
    "0." +:+ zeros (- n) +:+ digits
  else
    let e := (n - 1)%Z in
    let exponent :=
      "e" +:+ (if (e <? 0)%Z then "-" else "+") +:+ pretty (Z.abs e) in
    if (k =? 1)%Z then digits +:+ exponent
    else substring 0 1 digits +:+ "."
           +:+ substring 1 (Z.to_nat (k - 1)) digits +:+ exponent.

Definition numberToString (x : number) : string :=
  match x with
  | NaN => "NaN"
  | Inf neg => if neg then "-Infinity" else "Infinity"
  | Fin q =>
      if (Qnum q =? 0)%Z then "0"
      else if (Qnum q <? 0)%Z then "-" +:+ positiveToString (- q)
      else positiveToString q
  end.

(** ** The values of cells

    What a cell of a row of type [any] holds when it is not [undefined]:
    a value of JSON.  Of an object the validators read nothing but its
    truthiness, its text and its number, which are the same for every
    object that takes [toString] from [Object.prototype]: [Obj] stands for
    these. *)
#[local] Set Warnings "-register-all".

Inductive value : Type :=
| Null
| Bool (b : bool)
| Num (x : number)
| Str (s : string)
| Arr (elements : list value)
| Obj.

(** Truthiness, as in [!value] and [filter(Boolean)]: [undefined], [null],
    [false], zero, NaN and [''] are falsy; arrays and objects are truthy,
    the empty array included. *)
Definition ToBoolean (v : option value) : bool :=
  match v with
  | None | Some Null => false
  | Some (Bool b) => b
  | Some (Num x) => truthyNumber x
  | Some (Str s) => truthy (Some s)
  | Some (Arr _) | Some Obj => true
  end.

(** [String(v)], which is [v.toString()] on every value but [null], and
    what a template literal writes.  The text of an array is that of
    [join]: the texts of its elements between commas, [null] counting as
    the empty string. *)
Fixpoint ToString (v : value) : string :=
  match v with
  | Null => "null"
  | Bool b => if b then "true" else "false"
  | Num x => numberToString x
  | Str s => s
  | Arr elements =>
      join ","
        (List.map (fun e => match e with
                            | Null => EmptyString
                            | _ => ToString e
                            end) elements)
  | Obj => "[object Object]"
  end.

(** [Number(v)]: [undefined] is NaN, [null] and [false] are 0, [true]
    is 1; an array and an object are read through their text. *)
Definition ToNumber (v : option value) : number :=
  match v with
  | None => NaN
  | Some Null => ofNat 0
  | Some (Bool b) => if b then ofNat 1 else ofNat 0
  | Some (Num x) => x
  | Some (Str s) => StringToNumber s
  | Some (Arr elements) => StringToNumber (ToString (Arr elements))
  | Some Obj => StringToNumber (ToString Obj)
  end.

(** [Array.isArray(v)] *)
Definition isArray (v : option value) : bool :=
  match v with
  | Some (Arr _) => true
  | _ => false
  end.

End JS.

(* ===================================================================== *)
(** * [src/lib/validators.ts] *)
(* ===================================================================== *)
Module Validators.

Inductive Severity : Type := error_ | warning_.

Global Instance Severity_eq_dec : EqDecision Severity.
Proof. solve_decision. Defined.

Record ValidationError : Type := mkError {
  row : nat;
  column : string;
  error : string;
  severity : Severity;
  suggestion : option string
}.

Record Summary : Type := mkSummary {
  totalRows : nat;
  errorCount : nat;
  warningCount : nat
}.

Record ValidationResult : Type := mkResult {
  isValid : bool;
  errors : list ValidationError;
  warnings : list ValidationError;
  summary : Summary
}.

(** A row of the uploaded table: [r !! f] is [row[f]]. *)
Abbreviation Row := (gmap string JS.value).

(** [errors.push(e)] guarded by [if (e)]. *)
Definition push (errors : list ValidationError) (e : option ValidationError)
  : list ValidationError :=
  match e with
  | Some x => errors ++ [x]
  | None => errors
  end.

Section Host.
(** [Date.parse] is left to the host by ECMAScript; it is a parameter of
    the validators. *)
Variable DateParse : string → JS.number.

(** [validators.required] *)
Definition required (value : option JS.value) (fieldName : string)
    (rowIndex : nat) : option ValidationError :=
  let missing :=
    match value with
    | None => true
    | Some v =>
        negb (JS.ToBoolean value)
        || bool_decide (JS.trim (JS.ToString v) = EmptyString)
    end in
  if missing then
    Some {| row := rowIndex;
            column := fieldName;
            error := fieldName +:+ " is required";
            severity := error_;
            suggestion := Some ("Add a value for " +:+ fieldName) |}
  else None.

(** [validators.duplicates]: the loop carries the errors pushed so far
    and the [seen] map. *)
Definition duplicates_step (fieldName : string)
    (st : list ValidationError * gmap string nat)
    (iv : nat * option JS.value)
  : list ValidationError * gmap string nat :=
  let '(errors, seen) := st in
  let '(index, value) := iv in
  match value with
  | Some v =>
      if JS.ToBoolean value
         && negb (bool_decide (JS.trim (JS.ToString v) = EmptyString))
      then
        let key := JS.toLowerCase (JS.ToString v) in
        if bool_decide (is_Some (seen !! key)) then
          (errors ++
             [ {| row := index;
                  column := fieldName;
                  error := "Duplicate " +:+ fieldName +:+ ": "
                             +:+ JS.ToString v;
                  severity := error_;
                  suggestion :=
                    Some ("Make " +:+ fieldName
                            +:+ " unique or remove duplicate") |} ],
           seen)
        else (errors, <[key := index]> seen)
      else st
  | None => st
  end.

Definition duplicates (values : list (option JS.value))
    (fieldName : string) : list ValidationError :=
  (foldl (duplicates_step fieldName) ([], ∅) (imap pair values)).1.

Definition emailRegex : JS.regex :=
  let part :=
    JS.Plus (JS.Chr (fun c => negb (JS.isWhiteSpace c || Ascii.eqb c "@"))) in
  JS.Seq part (JS.Seq (JS.Char "@")
                 (JS.Seq part (JS.Seq (JS.Char ".") part))).

(** [validators.dataType] *)
Definition dataType (value : option JS.value) (expectedType : string)
    (fieldName : string) (rowIndex : nat) : option ValidationError :=
  match value with
  | Some v =>
      if negb (JS.ToBoolean value) then None
      else if bool_decide (expectedType = "number") then
        if JS.isNaN (JS.ToNumber value) then
          Some {| row := rowIndex;
                  column := fieldName;
                  error := fieldName +:+ " must be a number";
                  severity := error_;
                  suggestion :=
                    Some ("Enter a valid number for " +:+ fieldName) |}
        else None
      else if bool_decide (expectedType = "email") then
        if negb (JS.testWhole emailRegex (JS.ToString v)) then
          Some {| row := rowIndex;
                  column := fieldName;
                  error := fieldName +:+ " must be a valid email";
                  severity := error_;
                  suggestion :=
                    Some "Enter a valid email format (e.g., user@domain.com)" |}
        else None
      else if bool_decide (expectedType = "date") then
        if JS.isNaN (DateParse (JS.ToString v)) then
          Some {| row := rowIndex;
                  column := fieldName;
                  error := fieldName +:+ " must be a valid date";
                  severity := error_;
                  suggestion :=
                    Some "Enter a valid date format (YYYY-MM-DD)" |}
        else None
      else None
  | None => None
  end.

(** [validators.range]; the bounds are integers at every call. *)
Definition range (value : option JS.value) (min max : Z)
    (fieldName : string) (rowIndex : nat) : option ValidationError :=
  let numValue := JS.ToNumber value in
  if JS.isNaN numValue then None
  else if JS.lt numValue (JS.ofZ min) || JS.gt numValue (JS.ofZ max) then
    Some {| row := rowIndex;
            column := fieldName;
            error := fieldName +:+ " must be between " +:+ pretty min
                       +:+ " and " +:+ pretty max;
            severity := warning_;
            suggestion :=
              Some ("Adjust " +:+ fieldName +:+ " to be within range "
                      +:+ pretty min +:+ "-" +:+ pretty max) |}
  else None.

(** [validators.reference] *)
Definition reference (value : option JS.value) (validValues : list string)
    (fieldName : string) (rowIndex : nat) : option ValidationError :=
  match value with
  | Some v =>
      if negb (JS.ToBoolean value) then None
      else if negb (bool_decide (JS.ToString v ∈ validValues)) then
        Some {| row := rowIndex;
                column := fieldName;
                error := fieldName +:+ " references invalid value: "
                           +:+ JS.ToString v;
                severity := error_;
                suggestion :=
                  Some ("Use one of: "
                          +:+ JS.join ", " (take 3 validValues)
                          +:+ (if 3 <? length validValues
                               then "..." else "")) |}
      else None
  | None => None
  end.

(** The object returned by the three entry points, whose fields are
    each computed from the collected issues. *)
Definition report (data : list Row) (errors : list ValidationError)
  : ValidationResult :=
  {| isValid :=
       length (filter (fun e => severity e = error_) errors) =? 0;
     errors := filter (fun e => severity e = error_) errors;
     warnings := filter (fun e => severity e = warning_) errors;
     summary :=
       {| totalRows := length data;
          errorCount :=
            length (filter (fun e => severity e = error_) errors);
          warningCount :=
            length (filter (fun e => severity e = warning_) errors) |} |}.

(** The body of [data.forEach((row, index) => ...)] of
    [validateClientData]. *)
Definition clientRow (errors : list ValidationError) (ir : nat * Row)
  : list ValidationError :=
  let '(index, row) := ir in
  let requiredFields := ["ClientID"; "ClientName"; "PriorityLevel"] in
  let errors :=
    foldl (fun errors field =>
             push errors (required (row !! field) field index))
          errors requiredFields in
  let numberError :=
    dataType (row !! "PriorityLevel") "number" "PriorityLevel" index in
  let errors := push errors numberError in
  let rangeError :=
    range (row !! "PriorityLevel") 1 10 "PriorityLevel" index in
  push errors rangeError.

Definition validateClientData (data : list Row) : ValidationResult :=
  let errors := foldl clientRow [] (imap pair data) in
  let duplicateErrors :=
    duplicates (map (fun row : Row => row !! "ClientID") data) "ClientID" in
  let errors := errors ++ duplicateErrors in
  report data errors.

Definition workerRow (errors : list ValidationError) (ir : nat * Row)
  : list ValidationError :=
  let '(index, row) := ir in
  let requiredFields := ["WorkerID"; "WorkerName"; "Skills"] in
  let errors :=
    foldl (fun errors field =>
             push errors (required (row !! field) field index))
          errors requiredFields in
  let numericFields :=
    ["AvailableSlots"; "MaxLoadPerPhase"; "QualificationLevel"] in
  let errors :=
    foldl (fun errors field =>
             if JS.ToBoolean (row !! field)
             then push errors (dataType (row !! field) "number" field index)
             else errors)
          errors numericFields in
  if JS.ToBoolean (row !! "QualificationLevel")
  then push errors (range (row !! "QualificationLevel") 1 10
                      "QualificationLevel" index)
  else errors.

Definition validateWorkerData (data : list Row) : ValidationResult :=
  let errors := foldl workerRow [] (imap pair data) in
  let duplicateErrors :=
    duplicates (map (fun row : Row => row !! "WorkerID") data) "WorkerID" in
  let errors := errors ++ duplicateErrors in
  report data errors.

Definition taskRow (errors : list ValidationError) (ir : nat * Row)
  : list ValidationError :=
  let '(index, row) := ir in
  let requiredFields := ["TaskID"; "TaskName"; "Category"] in
  let errors :=
    foldl (fun errors field =>
             push errors (required (row !! field) field index))
          errors requiredFields in
  let numericFields := ["Duration"; "MaxConcurrent"] in
  foldl (fun errors field =>
           if JS.ToBoolean (row !! field)
           then push errors (dataType (row !! field) "number" field index)
           else errors)
        errors numericFields.

Definition validateTaskData (data : list Row) : ValidationResult :=
  let errors := foldl taskRow [] (imap pair data) in
  let duplicateErrors :=
    duplicates (map (fun row : Row => row !! "TaskID") data) "TaskID" in
  let errors := errors ++ duplicateErrors in
  report data errors.

End Host.
End Validators.

(* ===================================================================== *)
(** * [src/lib/ai-helpers.ts] *)
(* ===================================================================== *)
Module AiHelpers.

Abbreviation Row := (gmap string string).

Record ColumnMapping : Type := mkMapping {
  original : string;
  suggested : string;
  confidence : JS.number
}.

(** ** [calculateSimilarity] *)

(** The matrix of the dynamic program, allocated full of [null]. *)
Abbreviation Matrix := (list (list (option nat))).

(** Reading [matrix[j][i]] as an operand of [+]: [null] counts as 0. *)
Definition cell (matrix : Matrix) (j i : nat) : nat :=
  default 0 (row ← matrix !! j; c ← row !! i; c).

(** [matrix[j][i] = v], for a cell that exists. *)
Definition store (matrix : Matrix) (j i : nat) (v : nat) : Matrix :=
  alter (fun row => <[i := Some v]> row) j matrix.

Definition indicator (str1 str2 : string) (i j : nat) : nat :=
  if bool_decide (String.get (i - 1) str1 = String.get (j - 1) str2)
  then 0 else 1.

Definition fillCell (str1 str2 : string) (j : nat) (matrix : Matrix)
    (i : nat) : Matrix :=
  store matrix j i
    (Nat.min (Nat.min (cell matrix j (i - 1) + 1)
                      (cell matrix (j - 1) i + 1))
             (cell matrix (j - 1) (i - 1) + indicator str1 str2 i j)).

Definition fillMatrix (str1 str2 : string) : Matrix :=
  let len1 := String.length str1 in
  let len2 := String.length str2 in
  let matrix := replicate (len2 + 1) (replicate (len1 + 1) None) in
  let matrix := foldl (fun m i => store m 0 i i) matrix (seq 0 (len1 + 1)) in
  let matrix := foldl (fun m j => store m j 0 j) matrix (seq 0 (len2 + 1)) in
  foldl (fun m j => foldl (fillCell str1 str2 j) m (seq 1 len1))
        matrix (seq 1 len2).

Definition calculateSimilarity (str1 str2 : string) : JS.number :=
  let distance :=
    cell (fillMatrix str1 str2) (String.length str2) (String.length str1) in
  JS.sub (JS.ofNat 1)
    (JS.div (JS.ofNat distance)
            (JS.ofNat (Nat.max (String.length str1) (String.length str2)))).

(** ** [suggestColumnMapping] *)

(** [Object.entries(expectedMappings)]: the keys in insertion order. *)
Definition expectedMappings : list (string * list string) :=
  [ ("CLIENT_ID", ["CLIENT_ID"; "client_id"; "ClientID"; "id"; "client_identifier"]);
    ("CLIENT_NAME", ["CLIENT_NAME"; "client_name"; "ClientName"; "name"; "company_name"]);
    ("PRIORITY_LEVEL", ["PRIORITY_LEVEL"; "priority_level"; "Priority"; "PriorityLevel"; "importance"]);
    ("REQUESTED_TASK_IDS", ["REQUESTED_TASK_IDS"; "requested_task_ids"; "RequestedTasks"; "RequestedTaskIDs"; "task_ids"; "tasks"]);
    ("GROUP_TAG", ["GROUP_TAG"; "group_tag"; "Group"; "GroupTag"; "team_tag"]);
    ("WORKER_ID", ["WORKER_ID"; "worker_id"; "WorkerID"; "employee_id"; "id"]);
    ("WORKER_NAME", ["WORKER_NAME"; "worker_name"; "WorkerName"; "name"; "employee_name"]);
    ("SKILLS", ["SKILLS"; "skills"; "Skills"; "capabilities"; "expertise"]);
    ("AVAILABLE_SLOTS", ["AVAILABLE_SLOTS"; "available_slots"; "AvailableSlots"; "availability"; "slots"]);
    ("MAX_LOAD_PER_PHASE", ["MAX_LOAD_PER_PHASE"; "max_load_per_phase"; "MaxLoad"; "MaxLoadPerPhase"; "maximum_load"; "capacity"]);
    ("WORKER_GROUP", ["WORKER_GROUP"; "worker_group"; "Group"; "WorkerGroup"; "team"; "department"]);
    ("QUALIFICATION_LEVEL", ["QUALIFICATION_LEVEL"; "qualification_level"; "Qualification"; "QualificationLevel"; "qualifications"; "certifications"]);
    ("TASK_ID", ["TASK_ID"; "task_id"; "TaskID"; "id"; "task_identifier"]);
    ("TASK_NAME", ["TASK_NAME"; "task_name"; "TaskName"; "name"; "title"]);
    ("CATEGORY", ["CATEGORY"; "category"; "Category"; "type"; "task_type"]);
    ("DURATION", ["DURATION"; "duration"; "Duration"; "time"; "estimated_hours"]);
    ("REQUIRED_SKILLS", ["REQUIRED_SKILLS"; "required_skills"; "RequiredSkills"; "skills_needed"]);
    ("PREFERRED_PHASES", ["PREFERRED_PHASES"; "preferred_phases"; "PreferredPhases"; "phases"]);
    ("MAX_CONCURRENT", ["MAX_CONCURRENT"; "max_concurrent"; "MaxConcurrent"; "concurrent_limit"]) ].

(** [s.toLowerCase().replace(/[_\s-]/g, '')] *)
Definition normalize (s : string) : string :=
  JS.removeAll
    (fun c => Ascii.eqb c "_" || JS.isWhiteSpace c || Ascii.eqb c "-")
    (JS.toLowerCase s).

(** 0.5 is a binary64 number. *)
Definition threshold : JS.number := JS.Fin (1 # 2).

(** The body of [variants.forEach]: the state is [(bestMatch, maxScore)]. *)
Definition variantStep (normalized expected : string)
    (st : string * JS.number) (variant : string) : string * JS.number :=
  let '(bestMatch, maxScore) := st in
  let score := calculateSimilarity normalized (normalize variant) in
  if JS.gt score maxScore && JS.gt score threshold
  then (expected, score)
  else (bestMatch, maxScore).

Definition entryStep (normalized : string) (st : string * JS.number)
    (entry : string * list string) : string * JS.number :=
  let '(expected, variants) := entry in
  foldl (variantStep normalized expected) st variants.

(** The body of [userColumns.forEach]. *)
Definition columnStep (table : list (string * list string))
    (suggestions : list ColumnMapping) (userCol : string)
  : list ColumnMapping :=
  let normalized := normalize userCol in
  let '(bestMatch, maxScore) :=
    foldl (entryStep normalized) (EmptyString, JS.Fin 0) table in
  if JS.truthy (Some bestMatch)
  then suggestions ++ [ {| original := userCol;
                           suggested := bestMatch;
                           confidence := maxScore |} ]
  else suggestions.

Definition suggestColumnMapping (userColumns : list string)
  : list ColumnMapping :=
  foldl (columnStep expectedMappings) [] userColumns.

Global Arguments calculateSimilarity : simpl never.
Global Arguments columnStep : simpl never.
Global Arguments expectedMappings : simpl never.

(** ** [processNaturalLanguageQuery] *)

Import JS.

Definition seqs (rs : list regex) : regex := foldr Seq Eps rs.
Definition spaces : regex := Star space.
Definition number_ : regex := Plus digit.
Definition alnum : regex := Chr (fun c => isLower c || isDigit c).

(** [/priority\s*(?:level)?\s*(\d+)/] *)
Definition priorityRe : regex :=
  seqs [Lit "priority"; spaces; Opt (Lit "level"); spaces; Group number_].

(** Characters 39 and 34: the single and the double quote. *)
Definition isQuote (c : ascii) : bool :=
  Ascii.eqb c (ascii_of_nat 39) || Ascii.eqb c (ascii_of_nat 34).

(** [name], white space, an optional quote, group 1: one or more
    characters that are not quotes, then an optional quote. *)
Definition nameRe : regex :=
  let quote := Chr isQuote in
  let notQuote := Chr (fun c => negb (isQuote c)) in
  seqs [Lit "name"; spaces; Opt quote; Group (Plus notQuote); Opt quote].

(** An optional [requested\s*], then [tasks\s*], then group 1:
    [[a-z0-9, ]+]. *)
Definition tasksRe : regex :=
  let item := Chr (fun c => isLower c || isDigit c
                            || Ascii.eqb c "," || Ascii.eqb c " ") in
  seqs [Opt (Seq (Lit "requested") spaces); Lit "tasks"; spaces;
        Group (Plus item)].

(** [/group\s*([a-z0-9]+)/] *)
Definition groupRe : regex :=
  seqs [Lit "group"; spaces; Group (Plus alnum)].

Definition skillList : regex :=
  Plus (Chr (fun c => isLower c || Ascii.eqb c "," || Ascii.eqb c " ")).
Definition colonOrDash : regex :=
  Chr (fun c => Ascii.eqb c ":" || Ascii.eqb c "-").

(** [/skill[s]?\s*[:\-]?\s*([a-z, ]+)/] *)
Definition skillRe : regex :=
  seqs [Lit "skill"; Opt (Char "s"); spaces; Opt colonOrDash; spaces;
        Group skillList].

(** [/phase\s*(\d+)/] *)
Definition slotPhaseRe : regex :=
  seqs [Lit "phase"; spaces; Group number_].

(** [/(?:max load|load limit)\s*(?:of)?\s*(\d+)/] *)
Definition loadRe : regex :=
  seqs [Alt (Lit "max load") (Lit "load limit"); spaces; Opt (Lit "of");
        spaces; Group number_].

(** [/worker group\s*([a-z0-9]+)/] *)
Definition workerGroupRe : regex :=
  seqs [Lit "worker group"; spaces; Group (Plus alnum)].

(** [/duration\s*(?:more than|>)\s*(\d+)/] *)
Definition durationRe : regex :=
  seqs [Lit "duration"; spaces; Alt (Lit "more than") (Lit ">"); spaces;
        Group number_].

(** [phase[s]?\s*], then group 1: a range [\d+(?:-\d+)?] followed by any
    number of [,\s*] and a range. *)
Definition phasesRe : regex :=
  let range := Seq number_ (Opt (Seq (Char "-") number_)) in
  seqs [Lit "phase"; Opt (Char "s"); spaces;
        Group (Seq range (Star (seqs [Char ","; spaces; range])))].

(** [/(?:required skill[s]?|skills needed)\s*[:\-]?\s*([a-z, ]+)/] *)
Definition requiredSkillRe : regex :=
  seqs [Alt (Seq (Lit "required skill") (Opt (Char "s"))) (Lit "skills needed");
        spaces; Opt colonOrDash; spaces; Group skillList].

(** [/(?:max concurrent|parallel)\s*(?:of)?\s*(\d+)/] *)
Definition concurrentRe : regex :=
  seqs [Alt (Lit "max concurrent") (Lit "parallel"); spaces; Opt (Lit "of");
        spaces; Group number_].

(** [m && field && candidates(m[1]).some(t => field.toLowerCase().includes(t.trim().toLowerCase()))]
    where the candidates are [m[1].split(',')]. *)
Definition someCandidate (m : option (option string)) (field : option string)
  : bool :=
  match m, field with
  | Some (Some g), Some f =>
      truthy field &&
      existsb (fun t => includes (toLowerCase f) (toLowerCase (trim t)))
              (split "," g)
  | _, _ => false
  end.

(** [m && field && field.toLowerCase().includes(m[1].toLowerCase())] *)
Definition fieldIncludes (m : option (option string)) (field : option string)
  : bool :=
  match m, field with
  | Some (Some g), Some f =>
      truthy field && includes (toLowerCase f) (toLowerCase g)
  | _, _ => false
  end.

(** The callback of the filter over clients. *)
Definition clientMatches (lowercaseQuery : string) (item : Row) : bool :=
  if (includes lowercaseQuery "high priority"
      || includes lowercaseQuery "priority")
     && (let priorityMatch := match_ priorityRe lowercaseQuery in
         let minPriority :=
           match priorityMatch with
           | Some g => parseIntOf g
           | None => ofNat 4
           end in
         truthy (item !! "PriorityLevel")
         && ge (parseIntOf (item !! "PriorityLevel")) minPriority)
  then true
  else if (includes lowercaseQuery "client name"
           || includes lowercaseQuery "name")
          && fieldIncludes (match_ nameRe lowercaseQuery)
               (item !! "ClientName")
  then true
  else if (includes lowercaseQuery "requested tasks"
           || includes lowercaseQuery "tasks")
          && someCandidate (match_ tasksRe lowercaseQuery)
               (item !! "RequestedTaskIDs")
  then true
  else if includes lowercaseQuery "group"
          && fieldIncludes (match_ groupRe lowercaseQuery)
               (item !! "GroupTag")
  then true
  else false.

(** The callback of the filter over workers. *)
Definition workerMatches (lowercaseQuery : string) (item : Row) : bool :=
  if (includes lowercaseQuery "skill" || includes lowercaseQuery "skills")
     && someCandidate (match_ skillRe lowercaseQuery) (item !! "Skills")
  then true
  else if (includes lowercaseQuery "available"
           || includes lowercaseQuery "slots")
          && ((match match_ slotPhaseRe lowercaseQuery,
                      item !! "AvailableSlots" with
               | Some (Some g), Some f =>
                   truthy (item !! "AvailableSlots") && includes f g
               | _, _ => false
               end)
              || (match item !! "AvailableSlots" with
                  | Some f => truthy (item !! "AvailableSlots")
                              && (0 <? String.length f)
                  | None => false
                  end))
  then true
  else if (includes lowercaseQuery "max load"
           || includes lowercaseQuery "load limit")
          && (match match_ loadRe lowercaseQuery with
              | Some g =>
                  truthy (item !! "MaxLoadPerPhase")
                  && le (parseIntOf (item !! "MaxLoadPerPhase"))
                        (parseIntOf g)
              | None => false
              end)
  then true
  else if includes lowercaseQuery "worker group"
          && fieldIncludes (match_ workerGroupRe lowercaseQuery)
               (item !! "WorkerGroup")
  then true
  else false.

(** The last two rules of the filter over tasks, reached when the phase
    rule has not returned. *)
Definition taskMatchesTail (lowercaseQuery : string) (item : Row) : bool :=
  if (includes lowercaseQuery "required skill"
      || includes lowercaseQuery "skills needed")
     && someCandidate (match_ requiredSkillRe lowercaseQuery)
          (item !! "RequiredSkills")
  then true
  else if (includes lowercaseQuery "max concurrent"
           || includes lowercaseQuery "parallel")
          && (match match_ concurrentRe lowercaseQuery with
              | Some g =>
                  truthy (item !! "MaxConcurrent")
                  && le (parseIntOf (item !! "MaxConcurrent"))
                        (parseIntOf g)
              | None => false
              end)
  then true
  else false.

(** The callback of the filter over tasks.  The phase rule returns the
    outcome of its test, true or false, once the pattern has matched and
    the task has preferred phases. *)
Definition taskMatches (lowercaseQuery : string) (item : Row) : bool :=
  if (includes lowercaseQuery "duration more than"
      || includes lowercaseQuery "duration >")
     && (match match_ durationRe lowercaseQuery with
         | Some g =>
             truthy (item !! "Duration")
             && gt (parseIntOf (item !! "Duration")) (parseIntOf g)
         | None => false
         end)
  then true
  else if includes lowercaseQuery "phase"
          || includes lowercaseQuery "preferred phases"
  then
    match match_ phasesRe lowercaseQuery, item !! "PreferredPhases" with
    | Some (Some g), Some f =>
        if truthy (item !! "PreferredPhases") then
          let phasesToMatch := map trim (split "," g) in
          existsb (fun p => includes f p) phasesToMatch
        else taskMatchesTail lowercaseQuery item
    | _, _ => taskMatchesTail lowercaseQuery item
    end
  else taskMatchesTail lowercaseQuery item.

(** [Object.values(item)] *)
Definition values (item : Row) : list string := (map_to_list item).*2.

(** The text search over all fields at the end of the function. *)
Definition textSearch (lowercaseQuery : string) (data : list Row)
  : list Row :=
  List.filter
    (fun item =>
       existsb (fun value => truthy (Some value)
                             && includes (toLowerCase value) lowercaseQuery)
               (values item))
    data.

(** The type of [dataType] is erased when the program runs: it is a
    string, compared with the three names in turn. *)
Definition processNaturalLanguageQuery (query : string) (data : list Row)
    (dataType : string) : list Row :=
  let lowercaseQuery := toLowerCase query in
  if bool_decide (dataType = "clients")
  then List.filter (clientMatches lowercaseQuery) data
  else if bool_decide (dataType = "workers")
  then List.filter (workerMatches lowercaseQuery) data
  else if bool_decide (dataType = "tasks")
  then List.filter (taskMatches lowercaseQuery) data
  else textSearch lowercaseQuery data.

(** ** [suggestRules] *)

Definition priorityAdvice : string :=
  "Consider adding priority-based allocation rules for high-priority clients (e.g., Client Priority Level >= 4).".
Definition slotsAdvice : string :=
  "Workers have limited available slots - consider workload balancing rules based on AvailableSlots.".
Definition groupsAdvice : string :=
  "Multiple worker groups detected - consider group-based allocation rules (e.g., WorkerGroup 'Sales' can only do 'Sales' tasks).".
Definition durationAdvice : string :=
  "Long-duration tasks detected - consider phase-window constraints or sequential allocation.".
Definition concurrentAdvice : string :=
  "Tasks with concurrent execution limits detected - optimize parallel processing (e.g., MaxConcurrent for specific tasks).".

(** [c.PriorityLevel && parseInt(c.PriorityLevel) >= 4] *)
Definition highPriority (c : Row) : bool :=
  truthy (c !! "PriorityLevel")
  && ge (parseIntOf (c !! "PriorityLevel")) (ofNat 4).

(** [x || 0] *)
Definition orZero (x : number) : number :=
  if truthyNumber x then x else ofNat 0.

Definition suggestRules (clientData workerData taskData : list Row)
  : list string :=
  let suggestions : list string := [] in
  let suggestions :=
    if 0 <? length clientData then
      let highPriorityClients := length (List.filter highPriority clientData) in
      let totalClients := length clientData in
      if gt (div (ofNat highPriorityClients) (ofNat totalClients))
            (binary64 (3 # 10))
      then suggestions ++ [priorityAdvice]
      else suggestions
    else suggestions in
  let suggestions :=
    if 0 <? length workerData then
      let avgCapacity :=
        div (foldl (fun sum w =>
                      add sum (orZero (parseIntOf (w !! "AvailableSlots"))))
                   (ofNat 0) workerData)
            (ofNat (length workerData)) in
      let suggestions :=
        if lt avgCapacity (ofNat 20) && gt avgCapacity (ofNat 0)
        then suggestions ++ [slotsAdvice]
        else suggestions in
      let groups : gset string :=
        list_to_set
          (omap (fun w : Row =>
                   if truthy (w !! "WorkerGroup") then w !! "WorkerGroup"
                   else None)
                workerData) in
      if 1 <? size groups
      then suggestions ++ [groupsAdvice]
      else suggestions
    else suggestions in
  if 0 <? length taskData then
    let longTasks :=
      length (List.filter
                (fun t : Row => truthy (t !! "Duration")
                          && gt (parseIntOf (t !! "Duration")) (ofNat 3))
                taskData) in
    let suggestions :=
      if 0 <? longTasks then suggestions ++ [durationAdvice]
      else suggestions in
    let concurrentTasks :=
      length (List.filter
                (fun t : Row => truthy (t !! "MaxConcurrent")
                          && gt (parseIntOf (t !! "MaxConcurrent")) (ofNat 1))
                taskData) in
    if 0 <? concurrentTasks then suggestions ++ [concurrentAdvice]
    else suggestions
  else suggestions.

(** ** [naturalLanguageToRule] *)

Record RuleDraft : Type := mkRule {
  type : string;
  condition : string;
  action : string;
  description : string
}.

Definition dquote : string := String (ascii_of_nat 34) EmptyString.

Definition priorityRule : RuleDraft :=
  {| type := "priority";
     condition := "Client.PriorityLevel >= 4";
     action := "allocate_first";
     description := "Allocate high priority clients first" |}.

Definition loadBalanceRule : RuleDraft :=
  {| type := "load_balance";
     condition := "Worker.AvailableSlots > 0";
     action := "distribute_evenly";
     description := "Balance workload across available workers" |}.

Definition skillMatchRule : RuleDraft :=
  {| type := "skill_match";
     condition := "Task.RequiredSkills IN Worker.Skills";
     action := "assign_qualified_worker";
     description := "Match tasks to workers with required skills" |}.

Definition groupRule : RuleDraft :=
  {| type := "group_allocation";
     condition := "Worker.WorkerGroup = " +:+ dquote +:+ "SpecificGroup"
                    +:+ dquote;
     action := "assign_within_group";
     description := "Allocate tasks within specific worker groups" |}.

Definition customRule (description : string) : RuleDraft :=
  {| type := "custom";
     condition := "true";
     action := "manual_review";
     description := description |}.

Definition naturalLanguageToRule (description : string) : RuleDraft :=
  let lowercaseDesc := toLowerCase description in
  if includes lowercaseDesc "high priority" && includes lowercaseDesc "first"
  then priorityRule
  else if includes lowercaseDesc "balance" && includes lowercaseDesc "load"
  then loadBalanceRule
  else if includes lowercaseDesc "skill" && includes lowercaseDesc "match"
  then skillMatchRule
  else if includes lowercaseDesc "group" || includes lowercaseDesc "team"
  then groupRule
  else customRule description.

End AiHelpers.

(* ===================================================================== *)
(** * [src/lib/ai-helpers.ts]: [generateDataQualitySuggestions] *)
(* ===================================================================== *)
Module DataQuality.

Import JS.

Abbreviation Row := (gmap string value).

Record AIValidationSuggestion : Type := mkSuggestion {
  issue : string;
  suggestion : string;
  autoFixAvailable : bool;
  confidence : number
}.

(** The names every object inherits from [Object.prototype].  Looked up in
    the literal [criticalFields], such a name gives a function (or the
    prototype), which is truthy and has no [forEach]. *)
Definition inheritedNames : list string :=
  ["constructor"; "hasOwnProperty"; "isPrototypeOf"; "propertyIsEnumerable";
   "toLocaleString"; "toString"; "valueOf"; "__defineGetter__";
   "__defineSetter__"; "__lookupGetter__"; "__lookupSetter__"; "__proto__"].

(** [criticalFields[dataType] || []]; [None] when the value found is not an
    array, on which [fields.forEach] raises a TypeError. *)
Definition criticalFields (dataType : string) : option (list string) :=
  if bool_decide (dataType = "clients")
  then Some ["ClientID"; "ClientName"; "PriorityLevel"]
  else if bool_decide (dataType = "workers")
  then Some ["WorkerID"; "WorkerName"; "Skills"; "AvailableSlots";
             "MaxLoadPerPhase"]
  else if bool_decide (dataType = "tasks")
  then Some ["TaskID"; "TaskName"; "Duration"; "RequiredSkills"]
  else if bool_decide (dataType ∈ inheritedNames) then None
  else Some [].

(** [!row[field] || String(row[field]).trim() === ''] *)
Definition isMissing (value : option JS.value) : bool :=
  match value with
  | None => true
  | Some v =>
      negb (ToBoolean value) || bool_decide (trim (ToString v) = EmptyString)
  end.

(** The body of [fields.forEach]. *)
Definition missingStep (data : list Row)
    (suggestions : list AIValidationSuggestion) (field : string)
  : list AIValidationSuggestion :=
  let missingCount :=
    length (List.filter (fun row : Row => isMissing (row !! field)) data) in
  if 0 <? missingCount then
    suggestions ++
      [ {| issue := pretty missingCount +:+ " rows missing " +:+ field;
           suggestion := "Add " +:+ field
                           +:+ " values or remove incomplete rows";
           autoFixAvailable := false;
           confidence := binary64 (9 # 10) |} ]
  else suggestions.

(** [data.map(row => row[column]).filter(Boolean).some(val => isNaN(Number(val)))] *)
Definition hasNonNumeric (data : list Row) (column : string) : bool :=
  existsb (fun val : option JS.value => isNaN (ToNumber val))
          (List.filter ToBoolean (map (fun row : Row => row !! column) data)).

(** The same on the available slots, where an array passes:
    [some(val => !Array.isArray(val) && isNaN(Number(val)))]. *)
Definition hasNonNumericSlots (data : list Row) : bool :=
  existsb (fun val : option JS.value =>
             negb (isArray val) && isNaN (ToNumber val))
          (List.filter ToBoolean
             (map (fun row : Row => row !! "AvailableSlots") data)).

Definition pushWhen (condition : bool) (s : AIValidationSuggestion)
    (suggestions : list AIValidationSuggestion)
  : list AIValidationSuggestion :=
  if condition then suggestions ++ [s] else suggestions.

Definition priorityNotNumeric : AIValidationSuggestion :=
  {| issue := "PriorityLevel column contains non-numeric values";
     suggestion := "Convert priority levels to numbers (1-5 scale)";
     autoFixAvailable := true;
     confidence := binary64 (8 # 10) |}.

Definition slotsNotNumeric : AIValidationSuggestion :=
  {| issue := "AvailableSlots column contains non-numeric values or invalid format";
     suggestion := "Ensure available slots are numbers or a comma-separated list of phase numbers (e.g., "
                     +:+ String (ascii_of_nat 34) "1,3,5"
                     +:+ String (ascii_of_nat 34) ")";
     autoFixAvailable := true;
     confidence := binary64 (8 # 10) |}.

Definition maxLoadNotNumeric : AIValidationSuggestion :=
  {| issue := "MaxLoadPerPhase column contains non-numeric values";
     suggestion := "Convert max load per phase to numbers";
     autoFixAvailable := true;
     confidence := binary64 (7 # 10) |}.

Definition durationNotNumeric : AIValidationSuggestion :=
  {| issue := "Duration column contains non-numeric values";
     suggestion := "Convert duration to numbers (e.g., number of phases)";
     autoFixAvailable := true;
     confidence := binary64 (8 # 10) |}.

Definition maxConcurrentNotNumeric : AIValidationSuggestion :=
  {| issue := "MaxConcurrent column contains non-numeric values";
     suggestion := "Convert max concurrent to numbers";
     autoFixAvailable := true;
     confidence := binary64 (7 # 10) |}.

(** [generateDataQualitySuggestions]; [None] is the TypeError of
    [fields.forEach]. *)
Definition generateDataQualitySuggestions (data : list Row)
    (dataType : string) : option (list AIValidationSuggestion) :=
  match criticalFields dataType with
  | None => None
  | Some fields =>
      let suggestions := foldl (missingStep data) [] fields in
      let suggestions :=
        if bool_decide (dataType = "clients") then
          pushWhen (hasNonNumeric data "PriorityLevel") priorityNotNumeric
            suggestions
        else suggestions in
      let suggestions :=
        if bool_decide (dataType = "workers") then
          pushWhen (hasNonNumeric data "MaxLoadPerPhase") maxLoadNotNumeric
            (pushWhen (hasNonNumericSlots data) slotsNotNumeric
               suggestions)
        else suggestions in
      let suggestions :=
        if bool_decide (dataType = "tasks") then
          pushWhen (hasNonNumeric data "MaxConcurrent") maxConcurrentNotNumeric
            (pushWhen (hasNonNumeric data "Duration") durationNotNumeric
               suggestions)
        else suggestions in
      Some suggestions
  end.

End DataQuality.

(* ===================================================================== *)
(** * [src/lib/ai-helpers.ts]: [callOpenAI] *)
(* ===================================================================== *)
Module OpenAI.

Import JS.

Abbreviation Row := (gmap string string).

(** What a [throw] or a rejected promise carries: an [Error] with its
    message, or some other value. *)
Inductive Thrown : Type :=
| ErrorObject (message : string)
| OtherValue.

(** The JSON body of a reply, of which the function reads the fields
    [response] and [details]: each of them absent or a string. *)
Record Reply : Type := mkReply {
  response : option string;
  details : option string
}.

(** What [response.json()] settles to: a rejection, the body [null], on
    which reading a field raises a TypeError with the message of the
    host, or a body whose fields are read. *)
Inductive JsonOutcome : Type :=
| JsonFails (t : Thrown)
| JsonNull (message : string)
| JsonValue (reply : Reply).

(** What [fetch] settles to: a rejection, or a response with its [ok] flag,
    its status and its body. *)
Inductive FetchOutcome : Type :=
| FetchFails (t : Thrown)
| Responds (ok : bool) (status : nat) (json : JsonOutcome).

(** The body posted to [/api/ai]. *)
Record Request : Type := mkRequest {
  prompt : string;
  clients : list Row;
  workers : list Row;
  tasks : list Row
}.

(** [a || b] on a field and a string. *)
Definition orElse (field : option string) (other : string) : string :=
  match field with
  | Some s => if truthy field then s else other
  | None => other
  end.

(** The [catch] block. *)
Definition fallback (error : Thrown) : string :=
  match error with
  | ErrorObject message =>
      if includes message "API key" then
        "API Configuration Issue: Please check your OpenAI API key in .env.local file. Original error: "
          +:+ message
      else if includes message "quota" || includes message "billing" then
        "OpenAI API quota exceeded or billing issue. Please check your OpenAI account. Original error: "
          +:+ message
      else if includes message "rate limit" then
        "Rate limit exceeded. Please wait a moment and try again. Original error: "
          +:+ message
      else
        "AI service encountered an issue: " +:+ message
          +:+ ". Please check your internet connection or try again later."
  | OtherValue =>
      "I'm currently unable to connect to the AI service. Please check your configuration and try again."
  end.

(** [callOpenAI], over the network as a function from the request sent to
    what [fetch] settles to. *)
Definition callOpenAI (fetch : Request → FetchOutcome) (prompt : string)
    (clients workers tasks : list Row) : string :=
  match fetch {| prompt := prompt; clients := clients; workers := workers;
                 tasks := tasks |} with
  | FetchFails error => fallback error
  | Responds ok status json =>
      if negb ok then
        let thrown (errorData : Reply) : Thrown :=
          let errorMessage :=
            orElse (response errorData)
              (orElse (details errorData)
                 ("AI API request failed with status: " +:+ pretty status)) in
          ErrorObject errorMessage in
        match json with
        | JsonValue errorData => fallback (thrown errorData)
        | JsonFails _ =>
            fallback (thrown {| response := None; details := None |})
        | JsonNull message => fallback (ErrorObject message)
        end
      else
        match json with
        | JsonFails error => fallback error
        | JsonNull message => fallback (ErrorObject message)
        | JsonValue data =>
            orElse (response data) "No response received from AI."
        end
  end.

End OpenAI.

(* ===================================================================== *)
(** * The API route that runs the validators *)
(* ===================================================================== *)
Module ValidateRoute.

Import JS Validators.

(** [fixes.push(a); fixes.push(b); ...] under [if (error.error.includes(word))]. *)
Definition pushFixes (message word : string) (more : list string)
    (fixes : list string) : list string :=
  if includes message word then fixes ++ more else fixes.

(** [generateQuickFixes]; the second argument is not used. *)
Definition generateQuickFixes (error : ValidationError) (dataType : string)
  : list string :=
  let fixes : list string := [] in
  let fixes :=
    pushFixes (Validators.error error) "required"
      ["Fill in the missing value";
       "Remove this row if data is not available"] fixes in
  let fixes :=
    pushFixes (Validators.error error) "Duplicate"
      ["Make the value unique"; "Remove duplicate row";
       "Merge duplicate entries"] fixes in
  let fixes :=
    pushFixes (Validators.error error) "must be a number"
      ["Convert to numeric format"; "Remove non-numeric characters"] fixes in
  let fixes :=
    pushFixes (Validators.error error) "must be between"
      ["Adjust value to be within valid range";
       "Check if different scale is intended"] fixes in
  pushFixes (Validators.error error) "references invalid"
    ["Use a valid reference value";
     "Add the referenced item to the system"] fixes.

Definition pushIf (condition : bool) (text : string)
    (recommendations : list string) : list string :=
  if condition then recommendations ++ [text] else recommendations.

Definition highErrorRate : string :=
  "Consider reviewing data quality - high error rate detected".
Definition completeRequired : string :=
  "Focus on completing required fields first".
Definition resolveDuplicates : string :=
  "Resolve duplicate entries to ensure data integrity".
Definition standardizePriority : string :=
  "Standardize priority levels to 1-10 scale".
Definition consistentSkills : string :=
  "Use consistent skill naming and comma separation".
Definition consistentDuration : string :=
  "Ensure duration is in consistent units (hours/days)".
Definition looksGood : string :=
  "Data quality looks good! Ready for processing.".
Definition onlyWarnings : string :=
  "No critical errors found. Address warnings for optimal results.".

(** [errors.some(e => e.column === name)] *)
Definition someAbout (name : string) (errors : list ValidationError) : bool :=
  existsb (fun e => bool_decide (column e = name)) errors.

(** [errors.filter(e => e.error.includes(word)).length > 0] *)
Definition someMention (word : string) (errors : list ValidationError)
  : bool :=
  0 <? length (List.filter (fun e => includes (Validators.error e) word)
                 errors).

(** [generateRecommendations] *)
Definition generateRecommendations (validationResult : ValidationResult)
    (dataType : string) : list string :=
  let recommendations : list string := [] in
  let errors := Validators.errors validationResult in
  let summary := Validators.summary validationResult in
  let recommendations :=
    pushIf (gt (ofNat (errorCount summary))
               (mul (ofNat (totalRows summary)) (binary64 (1 # 10))))
           highErrorRate recommendations in
  let recommendations :=
    pushIf (someMention "required" errors) completeRequired
      recommendations in
  let recommendations :=
    pushIf (someMention "Duplicate" errors) resolveDuplicates
      recommendations in
  let kind := toLowerCase dataType in
  let recommendations :=
    if bool_decide (kind = "client") then
      pushIf (someAbout "PriorityLevel" errors) standardizePriority
        recommendations
    else if bool_decide (kind = "worker") then
      pushIf (someAbout "Skills" errors) consistentSkills recommendations
    else if bool_decide (kind = "task") then
      pushIf (someAbout "Duration" errors) consistentDuration recommendations
    else recommendations in
  if (errorCount summary =? 0) && (warningCount summary =? 0)
  then recommendations ++ [looksGood]
  else if errorCount summary =? 0
  then recommendations ++ [onlyWarnings]
  else recommendations.

(** An issue with its quick fixes: [{...error, quickFixes}]. *)
Record EnhancedError : Type := mkEnhanced {
  issue : ValidationError;
  quickFixes : list string
}.

(** [{...validationResult, errors: enhancedErrors, warnings: enhancedWarnings}] *)
Record Validation : Type := mkValidation {
  isValid : bool;
  errors : list EnhancedError;
  warnings : list EnhancedError;
  summary : Summary
}.

Inductive Payload : Type :=
| Failure (error : string)
| Success (validation : Validation) (recommendations : list string).

Record Response : Type := mkResponse {
  status : nat;
  payload : Payload
}.

(** The field [data] of the body: an array of rows, or anything else
    (missing, null, a scalar, an object). *)
Inductive Data : Type :=
| NotAnArray
| ArrayOf (rows : list Row).

Section Host.
Variable DateParse : string → number.

Definition enhance (dataType : string) (e : ValidationError)
  : EnhancedError :=
  {| issue := e; quickFixes := generateQuickFixes e dataType |}.

Definition respond (validationResult : ValidationResult) (dataType : string)
  : Response :=
  {| status := 200;
     payload :=
       Success
         {| isValid := Validators.isValid validationResult;
            errors := map (enhance dataType)
                          (Validators.errors validationResult);
            warnings := map (enhance dataType)
                            (Validators.warnings validationResult);
            summary := Validators.summary validationResult |}
         (generateRecommendations validationResult dataType) |}.

(** The handler, on a body already read; [dataType] is absent or a
    string. *)
Definition POST (data : Data) (dataType : option string) : Response :=
  match data with
  | NotAnArray =>
      {| status := 400;
         payload := Failure "Invalid data format. Expected array of objects." |}
  | ArrayOf rows =>
      match dataType with
      | Some kind =>
          if negb (truthy dataType) then
            {| status := 400;
               payload :=
                 Failure "Data type is required (client, worker, or task)" |}
          else if bool_decide (toLowerCase kind = "client") then
            respond (validateClientData DateParse rows) kind
          else if bool_decide (toLowerCase kind = "worker") then
            respond (validateWorkerData DateParse rows) kind
          else if bool_decide (toLowerCase kind = "task") then
            respond (validateTaskData DateParse rows) kind
          else
            {| status := 400;
               payload :=
                 Failure "Invalid data type. Must be client, worker, or task." |}
      | None =>
          {| status := 400;
             payload :=
               Failure "Data type is required (client, worker, or task)" |}
      end
  end.

End Host.
End ValidateRoute.

(* ===================================================================== *)
(** * Notions used in the statements *)
(* ===================================================================== *)

Import Validators.

(** What a report promises about itself. *)
Definition consistent (r : ValidationResult) : Prop :=
  (isValid r = true ↔ errors r = [])
  ∧ errorCount (summary r) = length (errors r)
  ∧ warningCount (summary r) = length (warnings r).

Import AiHelpers.

(** The keyword sets of the rule classifier: each is read on the
    description in lower case. *)
Definition mentions (description keyword : string) : bool :=
  JS.includes (JS.toLowerCase description) keyword.
Definition asksPriorityFirst (d : string) : bool :=
  mentions d "high priority" && mentions d "first".
Definition asksLoadBalance (d : string) : bool :=
  mentions d "balance" && mentions d "load".
Definition asksSkillMatch (d : string) : bool :=
  mentions d "skill" && mentions d "match".
Definition asksGroupAllocation (d : string) : bool :=
  mentions d "group" || mentions d "team".

(** The text that ends the suggestion of a failed reference check. *)
Definition ellipsis (validValues : list string) : string :=
  if 3 <? length validValues then "..." else "".

(** What [suggestColumnMapping] pushes for one header. *)
Definition mappingFor (header : string) : list ColumnMapping :=
  columnStep expectedMappings [] header.

(** ** Duplicate identifiers *)

(** A value the duplicate check passes over and the required check
    reports: a falsy one ([undefined], [null], [false], zero, NaN, the
    empty string) or one whose text is made of white space only. *)
Definition blank (v : option JS.value) : bool :=
  match v with
  | None => true
  | Some x =>
      negb (JS.ToBoolean v)
      || bool_decide (JS.trim (JS.ToString x) = EmptyString)
  end.

(** The key under which the code remembers a value: its text in lower
    case, as it stands. *)
Definition lowerKey (v : option JS.value) : option string :=
  if blank v then None else (fun x => JS.toLowerCase (JS.ToString x)) <$> v.

(** The key of the design document: the text trimmed, in lower case. *)
Definition trimmedLowerKey (v : option JS.value) : option string :=
  if blank v then None
  else (fun x => JS.toLowerCase (JS.trim (JS.ToString x))) <$> v.

(** Row [i] repeats an earlier row: its value has a key, and a row before it
    has the same key. *)
Definition repeatsEarlier (key : option JS.value → option string)
    (values : list (option JS.value)) (i : nat) : bool :=
  match (values !! i) ≫= key with
  | Some k => bool_decide (Some k ∈ key <$> take i values)
  | None => false
  end.

(** The rows a duplicate check over [key] has to report, in order. *)
Definition repeatedRows (key : option JS.value → option string)
    (values : list (option JS.value)) : list nat :=
  filter (fun i => repeatsEarlier key values i = true)
         (seq 0 (length values)).

(** ** Issues of the client checklist *)

Definition requiredIssue (fieldName : string) (rowIndex : nat)
  : ValidationError :=
  {| row := rowIndex;
     column := fieldName;
     error := fieldName +:+ " is required";
     severity := error_;
     suggestion := Some ("Add a value for " +:+ fieldName) |}.

Definition numberIssue (fieldName : string) (rowIndex : nat)
  : ValidationError :=
  {| row := rowIndex;
     column := fieldName;
     error := fieldName +:+ " must be a number";
     severity := error_;
     suggestion := Some ("Enter a valid number for " +:+ fieldName) |}.

Definition rangeIssue (fieldName : string) (min max : Z) (rowIndex : nat)
  : ValidationError :=
  {| row := rowIndex;
     column := fieldName;
     error := fieldName +:+ " must be between " +:+ pretty min
                +:+ " and " +:+ pretty max;
     severity := warning_;
     suggestion :=
       Some ("Adjust " +:+ fieldName +:+ " to be within range "
               +:+ pretty min +:+ "-" +:+ pretty max) |}.

(** What one row adds to the issues of [validateClientData]. *)
Definition clientIssues (DateParse : string → JS.number) (index : nat)
    (r : Validators.Row) : list ValidationError :=
  option_list (required (r !! "ClientID") "ClientID" index)
  ++ option_list (required (r !! "ClientName") "ClientName" index)
  ++ option_list (required (r !! "PriorityLevel") "PriorityLevel" index)
  ++ option_list (dataType DateParse (r !! "PriorityLevel") "number"
                    "PriorityLevel" index)
  ++ option_list (range (r !! "PriorityLevel") 1 10 "PriorityLevel" index).

(** The number read from a value lies outside of the bounds. *)
Definition outside (value : option JS.value) (min max : Z) : bool :=
  negb (JS.isNaN (JS.ToNumber value))
  && (JS.lt (JS.ToNumber value) (JS.ofZ min)
      || JS.gt (JS.ToNumber value) (JS.ofZ max)).

(** The issues of a report about one field of one row. *)
Definition about (rowIndex : nat) (fieldName : string)
    (issues : list ValidationError) : list ValidationError :=
  filter (fun e => row e = rowIndex ∧ column e = fieldName) issues.

(** The issues of a report about one row. *)
Definition aboutRow (rowIndex : nat) (issues : list ValidationError)
  : list ValidationError :=
  filter (fun e => row e = rowIndex) issues.

(** ** Queries *)

(** The words that open a rule of the query filter, per kind of entity. *)
Definition ruleWords (dataType : string) : list string :=
  if bool_decide (dataType = "clients") then
    ["high priority"; "priority"; "client name"; "name"; "requested tasks";
     "tasks"; "group"]
  else if bool_decide (dataType = "workers") then
    ["skill"; "skills"; "available"; "slots"; "max load"; "load limit";
     "worker group"]
  else if bool_decide (dataType = "tasks") then
    ["duration more than"; "duration >"; "phase"; "preferred phases";
     "required skill"; "skills needed"; "max concurrent"; "parallel"]
  else [].

(** A client whose identifier is the text searched for. *)
Definition clientXyz : Row :=
  {[ "ClientID" := "xyz123"; "ClientName" := "Acme Corp";
     "PriorityLevel" := "3"; "RequestedTaskIDs" := "T1,T2";
     "GroupTag" := "GroupA" ]}.

(** The state of the loop of the duplicate check after the rows of
    [values]: the errors pushed and the map of the keys seen. *)
Definition loopState (fieldName : string)
    (values : list (option JS.value))
  : list ValidationError * gmap string nat :=
  foldl (duplicates_step fieldName) ([], ∅) (imap pair values).

(** ** Edit distance *)

(** The recurrence the matrix of [calculateSimilarity] is filled by:
    [distanceAt str1 str2 j i] is the distance between the first [i]
    characters of [str1] and the first [j] characters of [str2]. *)
Fixpoint distanceAt (str1 str2 : string) (j : nat) : nat → nat :=
  match j with
  | 0 => fun i => i
  | S j' =>
      fix line (i : nat) : nat :=
        match i with
        | 0 => S j'
        | S i' =>
            Nat.min (Nat.min (line i' + 1) (distanceAt str1 str2 j' (S i') + 1))
                    (distanceAt str1 str2 j' i' + indicator str1 str2 (S i') (S j'))
        end
  end.

(** The matrix has [rows] rows of [cols] cells. *)
Definition shaped (rows cols : nat) (matrix : Matrix) : Prop :=
  length matrix = rows ∧ Forall (fun line => length line = cols) matrix.

(** The invariants of the loops that fill the matrix: the first row, the
    first column, the rows filled so far and the cells filled so far in the
    row being filled. *)
Section LoopInvariants.
Variables str1 str2 : string.

Definition firstRow (k : nat) (matrix : Matrix) : Prop :=
  shaped (String.length str2 + 1) (String.length str1 + 1) matrix
  ∧ ∀ i, i < k → cell matrix 0 i = i.

Definition firstColumn (k : nat) (matrix : Matrix) : Prop :=
  shaped (String.length str2 + 1) (String.length str1 + 1) matrix
  ∧ (∀ i, i ≤ String.length str1 → cell matrix 0 i = i)
  ∧ ∀ j, j < k → cell matrix j 0 = j.

Definition rowsDone (k : nat) (matrix : Matrix) : Prop :=
  shaped (String.length str2 + 1) (String.length str1 + 1) matrix
  ∧ (∀ j, j ≤ String.length str2 → cell matrix j 0 = j)
  ∧ ∀ j i, j < k → i ≤ String.length str1 →
           cell matrix j i = distanceAt str1 str2 j i.

Definition cellsDone (j k : nat) (matrix : Matrix) : Prop :=
  rowsDone j matrix
  ∧ ∀ i, i < k → cell matrix j i = distanceAt str1 str2 j i.
End LoopInvariants.

(** ** Candidates of the column mapper *)

(** The pairs of a canonical field and one of its variants, in the order
    in which [suggestColumnMapping] visits them. *)
Definition candidatesOf (table : list (string * list string))
  : list (string * string) :=
  table ≫= (fun entry => pair entry.1 <$> entry.2).

Definition candidates : list (string * string) :=
  candidatesOf expectedMappings.

(** The score of a header against a candidate. *)
Definition scoreOf (header : string) (candidate : string * string)
  : JS.number :=
  calculateSimilarity (normalize header) (normalize candidate.2).

(** What the column mapper has to do for a header, given the state of its
    search [(bestMatch, maxScore)]: either no candidate scores above the
    threshold, and the state is the initial one; or the state is the first
    candidate of maximal score, which is above the threshold. *)
Definition searched (header : string) (cands : list (string * string))
    (st : string * JS.number) : Prop :=
  (st = (EmptyString, JS.Fin 0)
   ∧ Forall (fun p => JS.gt (scoreOf header p) threshold = false) cands)
  ∨ (∃ before e v after,
       cands = before ++ (e, v) :: after
       ∧ st = (e, scoreOf header (e, v))
       ∧ JS.gt (scoreOf header (e, v)) threshold = true
       ∧ Forall (fun p => JS.lt (scoreOf header p) (scoreOf header (e, v))
                          = true) before
       ∧ Forall (fun p => JS.le (scoreOf header p) (scoreOf header (e, v))
                          = true) after).

(** One step of the search: the candidate replaces the best match when its
    score is greater than the greatest score met and than the threshold. *)
Definition pickBest (header : string) (st : string * JS.number)
    (p : string * string) : string * JS.number :=
  variantStep (normalize header) p.1 st p.2.

(** What the column mapper owes a header: nothing when no candidate scores
    above the threshold; otherwise one mapping, to the field of the first
    candidate of maximal score, with that score as confidence. *)
Definition mappedAsSearched (header : string) : Prop :=
  match mappingFor header with
  | [] => Forall (fun p => JS.gt (scoreOf header p) threshold = false)
                 candidates
  | [m] =>
      original m = header
      ∧ ∃ before e v after,
          candidates = before ++ (e, v) :: after
          ∧ suggested m = e
          ∧ confidence m = scoreOf header (e, v)
          ∧ JS.gt (confidence m) threshold = true
          ∧ Forall (fun p => JS.lt (scoreOf header p) (confidence m) = true)
                   before
          ∧ Forall (fun p => JS.le (scoreOf header p) (confidence m) = true)
                   after
  | _ => False
  end.

(** Ten clients, of which four, then two, have a priority level of 4 or
    more. *)
Definition clientOfPriority (p : string) : Row :=
  {[ "ClientID" := "C" +:+ p; "ClientName" := "Client";
     "PriorityLevel" := p ]}.
Definition fourOfTen : list Row :=
  clientOfPriority <$> ["5"; "4"; "4"; "9"; "1"; "2"; "3"; "3"; "1"; "2"].
Definition twoOfTen : list Row :=
  clientOfPriority <$> ["5"; "4"; "1"; "1"; "1"; "2"; "3"; "3"; "1"; "2"].

(** ** Keys of the duplicate check *)

(** The keys of the values the duplicate check counts, in the order of the
    rows. *)
Definition countedKeys (values : list (option JS.value)) : list string :=
  omap lowerKey values.

(** ** Issues of the worker and task checklists *)

(** What one row adds to the issues of [validateWorkerData]. *)
Definition workerIssues (DateParse : string → JS.number) (index : nat)
    (r : Validators.Row) : list ValidationError :=
  option_list (required (r !! "WorkerID") "WorkerID" index)
  ++ option_list (required (r !! "WorkerName") "WorkerName" index)
  ++ option_list (required (r !! "Skills") "Skills" index)
  ++ option_list (dataType DateParse (r !! "AvailableSlots") "number"
                    "AvailableSlots" index)
  ++ option_list (dataType DateParse (r !! "MaxLoadPerPhase") "number"
                    "MaxLoadPerPhase" index)
  ++ option_list (dataType DateParse (r !! "QualificationLevel") "number"
                    "QualificationLevel" index)
  ++ (if JS.ToBoolean (r !! "QualificationLevel")
      then option_list (range (r !! "QualificationLevel") 1 10
                          "QualificationLevel" index)
      else []).

(** What one row adds to the issues of [validateTaskData]. *)
Definition taskIssues (DateParse : string → JS.number) (index : nat)
    (r : Validators.Row) : list ValidationError :=
  option_list (required (r !! "TaskID") "TaskID" index)
  ++ option_list (required (r !! "TaskName") "TaskName" index)
  ++ option_list (required (r !! "Category") "Category" index)
  ++ option_list (dataType DateParse (r !! "Duration") "number"
                    "Duration" index)
  ++ option_list (dataType DateParse (r !! "MaxConcurrent") "number"
                    "MaxConcurrent" index).

(** A value that is falsy, or converts to a number. *)
Definition numericOrEmpty (value : option JS.value) : bool :=
  negb (JS.ToBoolean value && JS.isNaN (JS.ToNumber value)).

(** Rows on which the checklists find no error. *)
Definition cleanClient (r : Validators.Row) : bool :=
  negb (blank (r !! "ClientID")) && negb (blank (r !! "ClientName"))
  && negb (blank (r !! "PriorityLevel"))
  && negb (JS.isNaN (JS.ToNumber (r !! "PriorityLevel"))).

Definition cleanWorker (r : Validators.Row) : bool :=
  negb (blank (r !! "WorkerID")) && negb (blank (r !! "WorkerName"))
  && negb (blank (r !! "Skills"))
  && numericOrEmpty (r !! "AvailableSlots")
  && numericOrEmpty (r !! "MaxLoadPerPhase")
  && numericOrEmpty (r !! "QualificationLevel").

Definition cleanTask (r : Validators.Row) : bool :=
  negb (blank (r !! "TaskID")) && negb (blank (r !! "TaskName"))
  && negb (blank (r !! "Category"))
  && numericOrEmpty (r !! "Duration")
  && numericOrEmpty (r !! "MaxConcurrent").

(** The identifiers of a table. *)
Definition identifiers (field : string) (data : list Validators.Row)
  : list (option JS.value) :=
  map (fun row : Validators.Row => row !! field) data.

(** ** The route *)

(** The issue pushed by the duplicate check. *)
Definition duplicateIssue (fieldName : string) (index : nat) (s : string)
  : ValidationError :=
  {| row := index;
     column := fieldName;
     error := "Duplicate " +:+ fieldName +:+ ": " +:+ s;
     severity := error_;
     suggestion :=
       Some ("Make " +:+ fieldName +:+ " unique or remove duplicate") |}.



(** The message or the column of the issue brings a recommendation on
    client data. *)
Definition hinted (e : ValidationError) : bool :=
  JS.includes (error e) "required" || JS.includes (error e) "Duplicate"
  || bool_decide (column e = "PriorityLevel").

(** Ten workers, the first with slots that do not read as a number. *)
Definition workerNamed (n : nat) : Validators.Row :=
  {[ "WorkerID" := JS.Str ("W" +:+ pretty n);
     "WorkerName" := JS.Str "Worker"; "Skills" := JS.Str "python" ]}.
Definition tenWorkers : list Validators.Row :=
  <["AvailableSlots" := JS.Str "many"]> (workerNamed 0)
  :: (workerNamed <$> seq 1 9).

(** ** Replies of the AI route *)

(** The reply holds neither a response nor details, or cannot be
    read. *)
Definition silent (json : OpenAI.JsonOutcome) : bool :=
  match json with
  | OpenAI.JsonValue reply =>
      negb (JS.truthy (OpenAI.response reply))
      && negb (JS.truthy (OpenAI.details reply))
  | OpenAI.JsonFails _ => true
  | OpenAI.JsonNull _ => false
  end.

(** The message of a reply that is not silent: the response, or else the
    details; for the body [null], the message of the TypeError that
    reading its fields raises. *)
Definition spoken (json : OpenAI.JsonOutcome) : string :=
  match json with
  | OpenAI.JsonValue reply =>
      OpenAI.orElse (OpenAI.response reply)
        (default EmptyString (OpenAI.details reply))
  | OpenAI.JsonFails _ => EmptyString
  | OpenAI.JsonNull message => message
  end.

(** ** The conditions of the advice of [suggestRules] *)

Definition adviceIf (condition : bool) (text : string) : list string :=
  if condition then [text] else [].

Definition priorityDue (clientData : list Row) : bool :=
  (0 <? length clientData)
  && JS.gt (JS.div (JS.ofNat (length (List.filter highPriority clientData)))
                   (JS.ofNat (length clientData)))
           (JS.binary64 (3 # 10)).

(** The sum of the slots, as the reduction computes it. *)
Definition slotSum (workerData : list Row) : JS.number :=
  foldl (fun sum w => JS.add sum (orZero (JS.parseIntOf (w !! "AvailableSlots"))))
        (JS.ofNat 0) workerData.

Definition avgCapacity (workerData : list Row) : JS.number :=
  JS.div (slotSum workerData) (JS.ofNat (length workerData)).

Definition slotsDue (workerData : list Row) : bool :=
  (0 <? length workerData)
  && (JS.lt (avgCapacity workerData) (JS.ofNat 20)
      && JS.gt (avgCapacity workerData) (JS.ofNat 0)).

(** The set of the worker groups that are not empty. *)
Definition workerGroups (workerData : list Row) : gset string :=
  list_to_set
    (omap (fun w : Row =>
             if JS.truthy (w !! "WorkerGroup") then w !! "WorkerGroup"
             else None)
          workerData).

Definition groupsDue (workerData : list Row) : bool :=
  (0 <? length workerData) && (1 <? size (workerGroups workerData)).

Definition longTask (t : Row) : bool :=
  JS.truthy (t !! "Duration")
  && JS.gt (JS.parseIntOf (t !! "Duration")) (JS.ofNat 3).

Definition concurrentTask (t : Row) : bool :=
  JS.truthy (t !! "MaxConcurrent")
  && JS.gt (JS.parseIntOf (t !! "MaxConcurrent")) (JS.ofNat 1).

Definition durationDue (taskData : list Row) : bool :=
  (0 <? length taskData) && (0 <? length (List.filter longTask taskData)).

Definition concurrentDue (taskData : list Row) : bool :=
  (0 <? length taskData)
  && (0 <? length (List.filter concurrentTask taskData)).

(** The five sentences, in the order of the function. *)
Definition allAdvice : list string :=
  [priorityAdvice; slotsAdvice; groupsAdvice; durationAdvice;
   concurrentAdvice].

(** The slots of the worker read as no number, or as zero. *)
Definition unreadableSlots (w : Row) : bool :=
  negb (JS.truthyNumber (JS.parseIntOf (w !! "AvailableSlots"))).

(** ** Headers and aliases *)

(** The lengths between which the aliases lie, once normalized. *)
Definition shortestAlias : nat := 2.
Definition longestAlias : nat := 18.

(** The mapping of a header to a field with confidence 1. *)
Definition sureMapping (header field : string) : ColumnMapping :=
  {| original := header; suggested := field; confidence := JS.Fin 1 |}.

(** ** Regular expressions, as sets of strings *)

(** The strings a regular expression matches in full.  An iteration of a
    repetition is not empty, which leaves the set as it is. *)
Inductive lang : JS.regex → string → Prop :=
| lang_eps : lang JS.Eps EmptyString
| lang_chr (cls : ascii → bool) (c : ascii) :
    cls c = true → lang (JS.Chr cls) (String c EmptyString)
| lang_seq (r1 r2 : JS.regex) (u v : string) :
    lang r1 u → lang r2 v → lang (JS.Seq r1 r2) (u +:+ v)
| lang_alt_l (r1 r2 : JS.regex) (u : string) :
    lang r1 u → lang (JS.Alt r1 r2) u
| lang_alt_r (r1 r2 : JS.regex) (u : string) :
    lang r2 u → lang (JS.Alt r1 r2) u
| lang_star_nil (r : JS.regex) : lang (JS.Star r) EmptyString
| lang_star_cons (r : JS.regex) (u v : string) :
    u ≠ EmptyString → lang r u → lang (JS.Star r) v →
    lang (JS.Star r) (u +:+ v)
| lang_group (r : JS.regex) (u : string) :
    lang r u → lang (JS.Group r) u.

(** The loop of a repetition. *)
Definition starLoop {A : Type} (r1 : JS.regex)
    (k : string → option string → option A)
  : nat → string → option string → option A :=
  fix loop (fuel : nat) (s : string) (cap : option string) : option A :=
    match fuel with
    | O => k s cap
    | S fuel' =>
        match JS.run r1 s cap
                (fun s' cap' =>
                   if String.length s' <? String.length s
                   then loop fuel' s' cap' else None) with
        | Some a => Some a
        | None => k s cap
        end
    end.

(** A character of a part of an address: no white space, no at sign. *)
Definition plain (c : ascii) : bool :=
  negb (JS.isWhiteSpace c || Ascii.eqb c "@").

Fixpoint allPlain (s : string) : bool :=
  match s with
  | EmptyString => true
  | String c s' => plain c && allPlain s'
  end.

(** A part of an address: one or more plain characters. *)
Definition addressPart (s : string) : Prop :=
  s ≠ EmptyString ∧ allPlain s = true.

(** The shape of the addresses the validator accepts. *)
Definition addressShaped (s : string) : Prop :=
  ∃ a b c, s = a +:+ "@" +:+ b +:+ "." +:+ c
           ∧ addressPart a ∧ addressPart b ∧ addressPart c.

(** ** Slots that read as whole numbers *)

(** What a worker adds to the sum of the slots. *)
Definition slotCount (w : Row) : JS.number :=
  orZero (JS.parseIntOf (w !! "AvailableSlots")).

(** The number is the integer [z]. *)
Definition countsAs (x : JS.number) (z : Z) : Prop :=
  ∃ q, x = JS.Fin q ∧ (q == inject_Z z)%Q.

Definition total (zs : list Z) : Z := foldr Z.add 0%Z zs.

(* ===================================================================== *)
(** * Properties *)
(* ===================================================================== *)

(** ** Reports of the validation engine *)

Section Reports.
Variable DateParse : string → JS.number.

Lemma report_consistent (data : list Validators.Row) (issues : list ValidationError) :
  consistent (report data issues).
Proof.
  unfold consistent, report; simpl.
  split; [|done].
  rewrite Nat.eqb_eq. apply length_zero_iff_nil.
Qed.

Lemma report_partition (data : list Validators.Row) (issues : list ValidationError) :
  Forall (fun e => severity e = error_) (errors (report data issues))
  ∧ Forall (fun e => severity e = warning_) (warnings (report data issues))
  ∧ length (errors (report data issues))
    + length (warnings (report data issues)) = length issues.
Proof.
  simpl. repeat split.
  - apply Forall_forall. intros e He. by apply list_elem_of_filter in He as [? _].
  - apply Forall_forall. intros e He. by apply list_elem_of_filter in He as [? _].
  - induction issues as [|e l IH]; [done|].
    rewrite !filter_cons. destruct e as [? ? ? [] ?]; simpl in *.
    + repeat case_decide; try done; simpl; lia.
    + repeat case_decide; try done; simpl; lia.
Qed.
End Reports.

(** C2. For every list of rows, the report of each of the three entry
    points is valid exactly when its sequence of errors is empty, and its
    summary counts are the lengths of its errors and of its warnings. *)
Theorem validation_summary_invariants (DateParse : string → JS.number)
    (data : list Validators.Row) :
  consistent (validateClientData DateParse data)
  ∧ consistent (validateWorkerData DateParse data)
  ∧ consistent (validateTaskData DateParse data).
Proof.
  unfold validateClientData, validateWorkerData, validateTaskData.
  repeat split; apply report_consistent.
Qed.

(** ** The rule classifier *)

Lemma toLowerChar_idemp (c : ascii) :
  JS.toLowerChar (JS.toLowerChar c) = JS.toLowerChar c.
Proof. by destruct c as [[] [] [] [] [] [] [] []]. Qed.

Lemma toLowerCase_idemp (s : string) :
  JS.toLowerCase (JS.toLowerCase s) = JS.toLowerCase s.
Proof.
  induction s as [|c s IH]; [done|].
  simpl. by rewrite toLowerChar_idemp, IH.
Qed.

(** C9. For every description, [naturalLanguageToRule] returns one of five
    templates, chosen by the presence of keywords in the description read in
    lower case: priority-first, load-balance, skill-match and
    group-allocation in this order of precedence, and the manual-review
    template (type custom, condition true, action manual_review, the
    description echoed) exactly when no keyword set matches. *)
Theorem naturalLanguageToRule_closed (d : string) :
  let r := naturalLanguageToRule d in
  (r = priorityRule ∨ r = loadBalanceRule ∨ r = skillMatchRule
   ∨ r = groupRule ∨ r = customRule d)
  ∧ (r = priorityRule ↔ asksPriorityFirst d = true)
  ∧ (r = loadBalanceRule ↔
       asksPriorityFirst d = false ∧ asksLoadBalance d = true)
  ∧ (r = skillMatchRule ↔
       asksPriorityFirst d = false ∧ asksLoadBalance d = false
       ∧ asksSkillMatch d = true)
  ∧ (r = groupRule ↔
       asksPriorityFirst d = false ∧ asksLoadBalance d = false
       ∧ asksSkillMatch d = false ∧ asksGroupAllocation d = true)
  ∧ (r = customRule d ↔
       asksPriorityFirst d = false ∧ asksLoadBalance d = false
       ∧ asksSkillMatch d = false ∧ asksGroupAllocation d = false)
  ∧ customRule d = {| type := "custom"; condition := "true";
                      action := "manual_review"; description := d |}
  ∧ type (naturalLanguageToRule (JS.toLowerCase d)) = type r
  ∧ condition (naturalLanguageToRule (JS.toLowerCase d)) = condition r
  ∧ action (naturalLanguageToRule (JS.toLowerCase d)) = action r.
Proof.
  cbv zeta.
  assert (Hlow : ∀ x, naturalLanguageToRule x =
    if asksPriorityFirst x then priorityRule
    else if asksLoadBalance x then loadBalanceRule
    else if asksSkillMatch x then skillMatchRule
    else if asksGroupAllocation x then groupRule
    else customRule x) by done.
  assert (Hsame : ∀ k, mentions (JS.toLowerCase d) k = mentions d k).
  { intros k. unfold mentions. by rewrite toLowerCase_idemp. }
  rewrite !Hlow.
  unfold asksPriorityFirst, asksLoadBalance, asksSkillMatch,
    asksGroupAllocation.
  rewrite !Hsame.
  destruct (mentions d "high priority" && mentions d "first");
    [by repeat split; auto; intros; try discriminate; intuition discriminate|].
  destruct (mentions d "balance" && mentions d "load");
    [by repeat split; auto; intros; try discriminate; intuition discriminate|].
  destruct (mentions d "skill" && mentions d "match");
    [by repeat split; auto; intros; try discriminate; intuition discriminate|].
  destruct (mentions d "group" || mentions d "team");
    by repeat split; auto 6; intros; try discriminate; intuition discriminate.
Qed.

(** ** The reference check *)

(** C8. The reference check returns no issue when the value is absent
    (a falsy value: undefined, null, false, zero, NaN or the empty string,
    the values its guard rejects) and when its text is among the allowed
    values; when it is present and not among them, it returns one issue of
    severity error whose suggestion lists the first three allowed values,
    followed by an ellipsis exactly when there are more than three. *)
Theorem reference_check (value : option JS.value)
    (validValues : list string) (fieldName : string) (rowIndex : nat) :
  (JS.ToBoolean value = false →
     reference value validValues fieldName rowIndex = None)
  ∧ (∀ v, value = Some v → JS.ToString v ∈ validValues →
       reference value validValues fieldName rowIndex = None)
  ∧ (∀ v, value = Some v → JS.ToBoolean value = true →
       JS.ToString v ∉ validValues →
       ∃ e, reference value validValues fieldName rowIndex = Some e
            ∧ row e = rowIndex ∧ column e = fieldName
            ∧ severity e = error_
            ∧ suggestion e =
                Some ("Use one of: " +:+ JS.join ", " (take 3 validValues)
                        +:+ ellipsis validValues))
  ∧ (ellipsis validValues = "..." ↔ 3 < length validValues)
  ∧ (ellipsis validValues = "" ↔ length validValues ≤ 3).
Proof.
  unfold reference, ellipsis. repeat split.
  - destruct value as [v|]; [|done]. by intros ->.
  - intros v -> Hin. destruct (JS.ToBoolean (Some v)); [|done].
    cbn [negb]. by rewrite bool_decide_eq_true_2.
  - intros v -> -> Hnin. cbn [negb].
    rewrite bool_decide_eq_false_2 by done. cbn [negb]. eauto 10.
  - destruct (3 <? length validValues) eqn:E; [|done].
    by apply Nat.ltb_lt in E.
  - intros H. by apply Nat.ltb_lt in H as ->.
  - destruct (3 <? length validValues) eqn:E; [done|].
    apply Nat.ltb_ge in E. done.
  - intros H. by apply Nat.ltb_ge in H as ->.
Qed.

Lemma reference_check_witness :
  ∃ e, reference (Some (JS.Str "x")) ["a"; "b"; "c"; "d"] "Skill" 2 = Some e
       ∧ row e = 2 ∧ column e = "Skill" ∧ severity e = error_
       ∧ suggestion e = Some "Use one of: a, b, c...".
Proof.
  destruct (reference_check (Some (JS.Str "x")) ["a"; "b"; "c"; "d"]
              "Skill" 2)
    as (_ & _ & H & _).
  apply (H (JS.Str "x")); [reflexivity | reflexivity |].
  intros Hin. by repeat (apply elem_of_cons in Hin as [?|Hin]; [done|]);
    apply elem_of_nil in Hin.
Defined.

(** ** The shape of the column mapping *)

Section ColumnShape.
Variable table : list (string * list string).

Lemma columnStep_acc (acc : list ColumnMapping) (h : string) :
  columnStep table acc h = acc ++ columnStep table [] h.
Proof.
  unfold columnStep.
  destruct (foldl (entryStep (normalize h)) (EmptyString, JS.Fin 0) table)
    as [best score].
  destruct (JS.truthy (Some best)); [done|]. by rewrite app_nil_r.
Qed.

Lemma columnStep_foldl (acc : list ColumnMapping) (hs : list string) :
  foldl (columnStep table) acc hs = acc ++ (hs ≫= columnStep table []).
Proof.
  revert acc. induction hs as [|h hs IH]; intros acc.
  - cbn [foldl]. by rewrite app_nil_r.
  - cbn [foldl]. rewrite IH, bind_cons, (columnStep_acc acc).
    by rewrite <- app_assoc.
Qed.

Lemma columnStep_shape (h : string) :
  columnStep table [] h = []
  ∨ ∃ m, columnStep table [] h = [m] ∧ original m = h.
Proof.
  unfold columnStep.
  destruct (foldl (entryStep (normalize h)) (EmptyString, JS.Fin 0) table)
    as [best score].
  destruct (JS.truthy (Some best)); [right|by left].
  eexists. split; [done|done].
Qed.
End ColumnShape.

Lemma mappingFor_shape (h : string) :
  mappingFor h = [] ∨ ∃ m, mappingFor h = [m] ∧ original m = h.
Proof. apply columnStep_shape. Qed.

(** C10. For every list of headers, [suggestColumnMapping] produces at most
    one mapping per header, the [original] field of a mapping is the header
    it was made for, as given, and the mappings come in the order of the
    headers: their originals are the headers that are mapped, a subsequence
    of the input. *)
Theorem suggestColumnMapping_shape (userColumns : list string) :
  suggestColumnMapping userColumns = userColumns ≫= mappingFor
  ∧ Forall (fun h => length (mappingFor h) ≤ 1
                     ∧ Forall (fun m => original m = h) (mappingFor h))
           userColumns
  ∧ original <$> suggestColumnMapping userColumns
    = filter (fun h => mappingFor h ≠ []) userColumns
  ∧ sublist (original <$> suggestColumnMapping userColumns) userColumns
  ∧ length (suggestColumnMapping userColumns) ≤ length userColumns.
Proof.
  assert (Hbind : ∀ hs, suggestColumnMapping hs = hs ≫= mappingFor).
  { intros hs. unfold suggestColumnMapping. by rewrite columnStep_foldl. }
  assert (Hfilter : ∀ hs, original <$> (hs ≫= mappingFor)
                          = filter (fun h => mappingFor h ≠ []) hs).
  { induction hs as [|h hs IH]; [done|].
    rewrite bind_cons, fmap_app, filter_cons, IH.
    destruct (mappingFor_shape h) as [E|(m & E & Hm)]; rewrite E.
    - by rewrite decide_False by (by intros []).
    - rewrite decide_True by done. cbn [fmap list_fmap app]. by rewrite Hm. }
  rewrite Hbind, Hfilter. repeat split.
  - apply Forall_forall. intros h _.
    destruct (mappingFor_shape h) as [E|(m & E & Hm)]; rewrite E.
    + split; [cbn; lia|constructor].
    + split; [cbn; lia|]. by repeat constructor.
  - apply sublist_filter.
  - rewrite <- (length_fmap original), Hfilter. apply length_filter.
Qed.

(** ** The duplicate check *)

Lemma filter_ext_elem {A} (P1 P2 : A → Prop)
    `{!∀ x, Decision (P1 x), !∀ x, Decision (P2 x)} (l : list A) :
  (∀ x, x ∈ l → P1 x ↔ P2 x) → filter P1 l = filter P2 l.
Proof.
  induction l as [|a l IH]; intros Hext; [done|].
  rewrite !filter_cons, IH by (intros; apply Hext; by right).
  destruct (decide (P1 a)) as [H1|H1].
  - rewrite decide_True; [done|]. apply Hext; [by left|done].
  - rewrite decide_False; [done|]. intros H2. apply H1, Hext; [by left|done].
Qed.

Section Duplicates.
Variable fieldName : string.

Lemma counted_not_blank (v : JS.value) :
  JS.ToBoolean (Some v)
  && negb (bool_decide (JS.trim (JS.ToString v) = EmptyString))
  = negb (blank (Some v)).
Proof. unfold blank. by rewrite negb_orb, negb_involutive. Qed.

(** One turn of the loop, told by the key of the value. *)
Lemma duplicates_step_key errors seen index value :
  duplicates_step fieldName (errors, seen) (index, value) =
  match lowerKey value with
  | None => (errors, seen)
  | Some k =>
      if bool_decide (is_Some (seen !! k))
      then (errors ++
              [ {| row := index; column := fieldName;
                   error := "Duplicate " +:+ fieldName +:+ ": "
                              +:+ default EmptyString (JS.ToString <$> value);
                   severity := error_;
                   suggestion := Some ("Make " +:+ fieldName
                                         +:+ " unique or remove duplicate") |} ],
            seen)
      else (errors, <[k := index]> seen)
  end.
Proof.
  unfold duplicates_step, lowerKey. destruct value as [v|]; [|done].
  rewrite counted_not_blank. by destruct (blank (Some v)).
Qed.

Lemma repeatsEarlier_app_l key values v i :
  i < length values →
  repeatsEarlier key (values ++ [v]) i = repeatsEarlier key values i.
Proof.
  intros Hi. unfold repeatsEarlier.
  rewrite lookup_app_l by done. rewrite take_app_le by lia. done.
Qed.

Lemma repeatsEarlier_last key values v :
  repeatsEarlier key (values ++ [v]) (length values) =
  match key v with
  | Some k => bool_decide (Some k ∈ key <$> values)
  | None => false
  end.
Proof.
  unfold repeatsEarlier.
  rewrite list_lookup_middle by done. rewrite take_app_length. done.
Qed.

Lemma repeatedRows_snoc key values v :
  repeatedRows key (values ++ [v]) =
  repeatedRows key values
  ++ (if repeatsEarlier key (values ++ [v]) (length values)
      then [length values] else []).
Proof.
  unfold repeatedRows. rewrite length_app, Nat.add_1_r, seq_S, filter_app.
  f_equal.
  - apply filter_ext_elem. intros i Hi.
    apply elem_of_seq in Hi. by rewrite repeatsEarlier_app_l by lia.
  - cbn [plus]. rewrite filter_cons, filter_nil.
    destruct (repeatsEarlier key (values ++ [v]) (length values));
      [by rewrite decide_True|by rewrite decide_False].
Qed.

Local Abbreviation loopState := (loopState fieldName).

(** After the rows of [values], the keys seen are those of the rows read,
    and the errors are those of the rows that repeat an earlier one. *)
Lemma loopState_inv (values : list (option JS.value)) :
  (∀ k, is_Some ((loopState values).2 !! k) ↔ Some k ∈ lowerKey <$> values)
  ∧ row <$> (loopState values).1 = repeatedRows lowerKey values
  ∧ Forall (fun e => severity e = error_ ∧ column e = fieldName)
           (loopState values).1.
Proof.
  induction values as [|v values IH] using rev_ind.
  - split; [|by split]. intros k. cbn. rewrite lookup_empty.
    split; [by intros []|]. by intros ?%elem_of_nil.
  - destruct IH as (Hseen & Hrows & Hok).
    unfold loopState in *. rewrite imap_app, foldl_app.
    destruct (foldl _ _ (imap pair values)) as [errors seen].
    cbn [imap foldl compose fst snd] in *.
    rewrite duplicates_step_key.
    rewrite repeatedRows_snoc, repeatsEarlier_last, <- Hrows.
    assert (Hin : ∀ k, Some k ∈ lowerKey <$> values ++ [v] ↔
                       Some k ∈ lowerKey <$> values ∨ lowerKey v = Some k).
    { intros k. rewrite fmap_app, elem_of_app. cbn.
      rewrite list_elem_of_singleton. split; intros [?|?]; auto. }
    destruct (lowerKey v) as [k|] eqn:Ek.
    + destruct (decide (is_Some (seen !! k))) as [Hs|Hs].
      * rewrite (bool_decide_eq_true_2 _ Hs).
        rewrite (bool_decide_eq_true_2 (Some k ∈ _)) by by apply Hseen.
        cbn [fst snd]. split; [|split].
        -- intros k'. rewrite Hin, Hseen. split; [auto|].
           intros [?|[= <-]]; [done|]. by apply Hseen.
        -- rewrite fmap_app. f_equal. cbn. by rewrite Nat.add_0_r.
        -- apply Forall_app. split; [done|]. by repeat constructor.
      * rewrite (bool_decide_eq_false_2 _ Hs).
        rewrite (bool_decide_eq_false_2 (Some k ∈ _))
          by by rewrite <- Hseen.
        cbn [fst snd]. split; [|split].
        -- intros k'. rewrite Hin, <- Hseen.
           destruct (decide (k = k')) as [->|Hne].
           ++ rewrite lookup_insert_eq. split; [auto|]. by eexists.
           ++ rewrite lookup_insert_ne by done.
              split; [auto|]. intros [?|[= ?]]; done.
        -- by rewrite app_nil_r.
        -- done.
    + cbn [fst snd]. split; [|split].
      * intros k'. rewrite Hin, Hseen. split; [auto|].
        intros [?|?]; [done|discriminate].
      * by rewrite app_nil_r.
      * done.
Qed.
End Duplicates.

(** C4 as the design document states it: the rows reported are those whose
    value, trimmed and in lower case, was met at an earlier row. *)
Lemma duplicates_trimmed_key_fails :
  row <$> duplicates [Some (JS.Str "A"); Some (JS.Str " A")] "ClientID" = []
  ∧ repeatedRows trimmedLowerKey [Some (JS.Str "A"); Some (JS.Str " A")]
    = [1]
  ∧ ¬ (∀ values fieldName,
         row <$> duplicates values fieldName
         = repeatedRows trimmedLowerKey values).
Proof.
  split; [done|]. split; [done|].
  intros H.
  specialize (H [Some (JS.Str "A"); Some (JS.Str " A")] "ClientID"). done.
Qed.

(** C4, amended. For every list of identifier values, each undefined or
    a value of JSON, the duplicate check emits exactly one issue, of
    severity error, per row whose text in lower case (as it stands, not
    trimmed) was met at an earlier row; the first occurrence is never
    reported, and blank values are passed over: the falsy ones (undefined,
    null, false, zero, NaN, the empty string) and those whose text is made
    of white space only, the no-break space included.  Lower case is that
    of Latin-1, and the text of a number is the key of the number.  For the
    identifiers A, a, B, A the rows reported are 1 and 3; the upper and the
    lower case of an accented letter are one key; the number 7 and the text
    7 are one key; a no-break space, the number 0 and null are not
    counted. *)
Theorem duplicates_rows (values : list (option JS.value))
    (fieldName : string) :
  row <$> duplicates values fieldName = repeatedRows lowerKey values
  ∧ Forall (fun e => severity e = error_ ∧ column e = fieldName)
           (duplicates values fieldName)
  ∧ Forall (fun i => ∃ j v w, j < i ∧ values !! j = Some v
                              ∧ values !! i = Some w
                              ∧ blank v = false ∧ blank w = false
                              ∧ lowerKey v = lowerKey w)
           (row <$> duplicates values fieldName)
  ∧ row <$> duplicates [Some (JS.Str "A"); Some (JS.Str "a");
                        Some (JS.Str "B"); Some (JS.Str "A")] fieldName
    = [1; 3]
  ∧ row <$> duplicates [Some (JS.Str (String "201" EmptyString));
                        Some (JS.Str (String "233" EmptyString))] fieldName
    = [1]
  ∧ row <$> duplicates [Some (JS.Num (JS.ofNat 7)); Some (JS.Str "7")]
              fieldName
    = [1]
  ∧ row <$> duplicates [Some (JS.Str (String "160" EmptyString));
                        Some (JS.Str (String "160" EmptyString));
                        Some (JS.Num (JS.ofNat 0));
                        Some (JS.Num (JS.ofNat 0));
                        Some JS.Null; Some JS.Null; None; None] fieldName
    = [].
Proof.
  destruct (loopState_inv fieldName values) as (_ & Hrows & Hok).
  unfold duplicates. fold (loopState fieldName values).
  split; [done|]. split; [done|]. split.
  - rewrite Hrows. apply Forall_forall. intros i Hi.
    apply list_elem_of_filter in Hi as [Hi _].
    unfold repeatsEarlier in Hi.
    destruct (values !! i) as [w|] eqn:Ew; [|done]. cbn in Hi.
    destruct (lowerKey w) as [k|] eqn:Ek; [|done].
    apply bool_decide_eq_true in Hi.
    apply list_elem_of_fmap in Hi as (v & Hv & Hin).
    apply list_elem_of_lookup in Hin as (j & Hj).
    pose proof (lookup_lt_Some _ _ _ Hj) as Hlt.
    rewrite length_take in Hlt. rewrite lookup_take_lt in Hj by lia.
    exists j, v, w. repeat split; try done; try lia.
    + unfold lowerKey in Hv. by destruct (blank v).
    + unfold lowerKey in Ek. by destruct (blank w).
    + congruence.
  - repeat split; by vm_compute.
Qed.

(** ** Type and range of the priority level *)

Section ClientChecklist.
Variable DateParse : string → JS.number.

Lemma required_cases (value : option JS.value) (f : string) (i : nat) :
  required value f i = if blank value then Some (requiredIssue f i) else None.
Proof.
  unfold required, blank. destruct value as [v|]; [|done].
  by destruct (negb _ || _).
Qed.

Lemma dataType_number (value : option JS.value) (f : string) (i : nat) :
  dataType DateParse value "number" f i =
  if JS.ToBoolean value && JS.isNaN (JS.ToNumber value)
  then Some (numberIssue f i) else None.
Proof.
  unfold dataType. destruct value as [v|]; [|done].
  destruct (JS.ToBoolean (Some v)); [|done]. cbn [negb andb].
  rewrite bool_decide_eq_true_2 by done.
  by destruct (JS.isNaN (JS.ToNumber (Some v))).
Qed.

Lemma range_cases (value : option JS.value) (min max : Z) (f : string)
    (i : nat) :
  range value min max f i =
  if outside value min max then Some (rangeIssue f min max i) else None.
Proof.
  unfold range, outside. destruct (JS.isNaN (JS.ToNumber value)); [done|].
  cbn [negb andb].
  by destruct (JS.lt (JS.ToNumber value) (JS.ofZ min)
               || JS.gt (JS.ToNumber value) (JS.ofZ max)).
Qed.

(** A text of white space reads as the number 0. *)
Lemma Number_blank (s : string) :
  JS.trim s = EmptyString → JS.StringToNumber s = JS.Fin 0.
Proof.
  intros H. unfold JS.StringToNumber. by rewrite H.
Qed.

(** The type check has nothing to say of a blank value: a falsy one is
    not looked at, and a text of white space reads as 0. *)
Lemma blank_has_type (value : option JS.value) :
  blank value = true →
  JS.ToBoolean value && JS.isNaN (JS.ToNumber value) = false.
Proof.
  destruct value as [[|b|x|s|elements|]|]; try done.
  - intros _. by destruct b.
  - intros _. destruct x; [done| |done]. apply andb_false_r.
  - unfold blank. cbn [JS.ToBoolean JS.ToString JS.ToNumber].
    destruct (JS.truthy (Some s)); [|done]. cbn [negb orb andb].
    intros H%bool_decide_eq_true. by rewrite (Number_blank s H).
  - unfold blank. cbn [JS.ToBoolean JS.ToNumber negb orb andb].
    intros H%bool_decide_eq_true. by rewrite (Number_blank _ H).
Qed.

Lemma NaN_not_blank (s : string) :
  JS.isNaN (JS.StringToNumber s) = true → blank (Some (JS.Str s)) = false.
Proof.
  intros H. destruct (blank (Some (JS.Str s))) eqn:E; [|done].
  apply blank_has_type in E. cbn [JS.ToBoolean JS.ToNumber] in E.
  rewrite H, andb_true_r in E. destruct s; [|done].
  by vm_compute in H.
Qed.

Lemma not_blank_truthy (value : option JS.value) :
  blank value = false → JS.ToBoolean value = true.
Proof.
  destruct value as [v|]; [|done]. unfold blank.
  intros [H _]%orb_false_elim. by apply negb_false_iff.
Qed.

(** A blank text lies below the range of the priority levels. *)
Lemma blank_text_outside (s : string) :
  blank (Some (JS.Str s)) = true → outside (Some (JS.Str s)) 1 10 = true.
Proof.
  unfold blank, outside. cbn [JS.ToBoolean JS.ToString JS.ToNumber].
  destruct s as [|c s]; [done|]. cbn [JS.truthy negb orb].
  intros H%bool_decide_eq_true. by rewrite (Number_blank _ H).
Qed.

Lemma push_app (acc : list ValidationError) (e : option ValidationError) :
  push acc e = acc ++ option_list e.
Proof. destruct e; [done|]. by rewrite app_nil_r. Qed.

Lemma clientRow_issues (acc : list ValidationError) (i : nat) (r : Validators.Row) :
  clientRow DateParse acc (i, r) = acc ++ clientIssues DateParse i r.
Proof.
  unfold clientRow, clientIssues. cbn [foldl].
  rewrite !push_app. by rewrite <- !app_assoc.
Qed.

Lemma foldl_clientRow (data : list Validators.Row) :
  foldl (clientRow DateParse) [] (imap pair data)
  = concat (imap (clientIssues DateParse) data).
Proof.
  induction data as [|r data IH] using rev_ind; [done|].
  rewrite !imap_app, foldl_app, concat_app, IH.
  cbn [imap foldl concat compose]. rewrite clientRow_issues.
  by rewrite app_nil_r.
Qed.

Lemma clientIssues_row (i : nat) (r : Validators.Row) :
  Forall (fun e => row e = i) (clientIssues DateParse i r).
Proof.
  unfold clientIssues.
  rewrite !required_cases, dataType_number, range_cases.
  repeat (apply Forall_app; split);
    match goal with |- Forall _ (option_list (if ?b then _ else _)) =>
      destruct b; by repeat constructor end.
Qed.
End ClientChecklist.

Lemma filter_none {A} (P : A → Prop) `{!∀ x, Decision (P x)} (l : list A) :
  Forall (fun x => ¬ P x) l → filter P l = [].
Proof.
  induction 1 as [|x l Hx _ IH]; [done|].
  by rewrite filter_cons, decide_False.
Qed.

Lemma filter_all {A} (P : A → Prop) `{!∀ x, Decision (P x)} (l : list A) :
  Forall P l → filter P l = l.
Proof.
  induction 1 as [|x l Hx _ IH]; [done|].
  by rewrite filter_cons, decide_True, IH.
Qed.

(** The issues about row [i], in a list made row by row. *)
Lemma aboutRow_concat_imap (f : nat → Validators.Row → list ValidationError)
    (data : list Validators.Row) (i : nat) :
  (∀ k x, Forall (fun e => row e = k) (f k x)) →
  aboutRow i (concat (imap f data)) = default [] (f i <$> data !! i).
Proof.
  intros Hrow. unfold aboutRow.
  induction data as [|x data IH] using rev_ind; [done|].
  rewrite imap_app, concat_app, filter_app, IH.
  cbn [imap concat compose]. rewrite app_nil_r, Nat.add_0_r.
  destruct (decide (i < length data)) as [Hlt|Hge].
  - rewrite lookup_app_l by done.
    rewrite (filter_none _ (f _ x)), app_nil_r; [done|].
    eapply Forall_impl; [apply Hrow|]. cbn. lia.
  - rewrite (lookup_ge_None_2 data) by lia. cbn.
    destruct (decide (i = length data)) as [->|Hne].
    + rewrite list_lookup_middle by done. cbn.
      apply filter_all. apply Hrow.
    + rewrite lookup_ge_None_2 by (rewrite length_app; cbn; lia). cbn.
      apply filter_none.
      eapply Forall_impl; [apply Hrow|]. cbn. lia.
Qed.

Lemma about_errors (i : nat) (f : string) (issues : list ValidationError) :
  about i f (filter (fun e => severity e = error_) issues)
  = filter (fun e => column e = f ∧ severity e = error_) (aboutRow i issues).
Proof.
  unfold about, aboutRow. rewrite !list_filter_filter.
  apply list_filter_iff. tauto.
Qed.

Lemma aboutRow_warnings (i : nat) (issues : list ValidationError) :
  aboutRow i (filter (fun e => severity e = warning_) issues)
  = filter (fun e => severity e = warning_) (aboutRow i issues).
Proof.
  unfold aboutRow. rewrite !list_filter_filter.
  apply list_filter_iff. tauto.
Qed.

Lemma aboutRow_app (i : nat) (l1 l2 : list ValidationError) :
  aboutRow i (l1 ++ l2) = aboutRow i l1 ++ aboutRow i l2.
Proof. apply filter_app. Qed.

Section ClientReport.
Variable DateParse : string → JS.number.

(** The issues about a row of the client table: those of its checklist,
    then those of the duplicate check on the identifier. *)
Lemma aboutRow_client (data : list Validators.Row) (i : nat) (r : Validators.Row) :
  data !! i = Some r →
  ∃ dups,
    aboutRow i (foldl (clientRow DateParse) [] (imap pair data)
                ++ duplicates (map (fun row : Validators.Row => row !! "ClientID") data)
                     "ClientID")
    = clientIssues DateParse i r ++ dups
    ∧ Forall (fun e => severity e = error_ ∧ column e = "ClientID") dups.
Proof.
  intros Hr. eexists. split.
  - rewrite aboutRow_app, foldl_clientRow.
    rewrite aboutRow_concat_imap by apply clientIssues_row.
    rewrite Hr. done.
  - unfold aboutRow. apply Forall_forall. intros e He.
    apply list_elem_of_filter in He as [_ He].
    pose proof (loopState_inv "ClientID"
                  (map (fun row : Validators.Row => row !! "ClientID") data))
      as (_ & _ & Hok).
    rewrite Forall_forall in Hok. by apply Hok.
Qed.
End ClientReport.

(** C6 as the design document states it: any priority level that reads as a
    number outside of 1..10 gets a warning and no error.  The number 0 and
    the empty string read as 0, and the required-field check reports
    them. *)
Lemma priority_blank_has_error :
  let r : Validators.Row :=
    {[ "ClientID" := JS.Str "C1"; "ClientName" := JS.Str "Acme";
       "PriorityLevel" := JS.Num (JS.ofNat 0) ]} in
  let r' : Validators.Row :=
    {[ "ClientID" := JS.Str "C2"; "ClientName" := JS.Str "Bolt";
       "PriorityLevel" := JS.Str EmptyString ]} in
  let res := validateClientData (fun _ => JS.NaN) [r; r'] in
  outside (r !! "PriorityLevel") 1 10 = true
  ∧ outside (r' !! "PriorityLevel") 1 10 = true
  ∧ about 0 "PriorityLevel" (errors res) = [requiredIssue "PriorityLevel" 0]
  ∧ about 1 "PriorityLevel" (errors res) = [requiredIssue "PriorityLevel" 1]
  ∧ aboutRow 0 (warnings res) = [rangeIssue "PriorityLevel" 1 10 0]
  ∧ aboutRow 1 (warnings res) = [rangeIssue "PriorityLevel" 1 10 1]
  ∧ ¬ (∀ DateParse data i r,
         data !! i = Some r →
         outside (r !! "PriorityLevel") 1 10 = true →
         about i "PriorityLevel" (errors (validateClientData DateParse data))
         = []).
Proof.
  cbv zeta. repeat (split; [by vm_compute|]).
  intros H.
  specialize (H (fun _ => JS.NaN)
                [ {[ "ClientID" := JS.Str "C1"; "ClientName" := JS.Str "Acme";
                     "PriorityLevel" := JS.Num (JS.ofNat 0) ]} ] 0 _ eq_refl).
  discriminate H; by vm_compute.
Qed.

(** C6, amended. In client validation the priority level of a row is
    undefined or a value of JSON; it is blank when it is falsy (undefined,
    null, false, zero, NaN, the empty string) or when its text is made of
    white space only.  A priority level that is not
    blank and does not read as a number gets exactly one issue, the type
    error, and its row gets no warning; a text that does not read as a
    number is never blank.  A priority level that is not blank and reads
    as a number outside of 1..10 gets exactly one warning, the range
    warning, and no error about that field.  A blank priority level gets
    exactly one error about that field, that of the required-field check,
    and its row gets the range warning exactly when the value reads as a
    number outside of 1..10, as every blank text does. *)
Theorem priority_type_or_range (DateParse : string → JS.number)
    (data : list Validators.Row) (i : nat) (r : Validators.Row) :
  data !! i = Some r →
  let value := r !! "PriorityLevel" in
  let res := validateClientData DateParse data in
  (blank value = false → JS.isNaN (JS.ToNumber value) = true →
     about i "PriorityLevel" (errors res) = [numberIssue "PriorityLevel" i]
     ∧ about i "PriorityLevel" (warnings res) = []
     ∧ aboutRow i (warnings res) = [])
  ∧ (blank value = false → outside value 1 10 = true →
     aboutRow i (warnings res) = [rangeIssue "PriorityLevel" 1 10 i]
     ∧ about i "PriorityLevel" (warnings res)
       = [rangeIssue "PriorityLevel" 1 10 i]
     ∧ about i "PriorityLevel" (errors res) = [])
  ∧ (blank value = true →
     about i "PriorityLevel" (errors res) = [requiredIssue "PriorityLevel" i]
     ∧ aboutRow i (warnings res)
       = (if outside value 1 10 then [rangeIssue "PriorityLevel" 1 10 i]
          else []))
  ∧ (∀ s, value = Some (JS.Str s) →
          (JS.isNaN (JS.StringToNumber s) = true → blank value = false)
          ∧ (blank value = true → outside value 1 10 = true)).
Proof.
  intros Hr value res.
  destruct (aboutRow_client DateParse data i r Hr) as (dups & Hrow & Hdups).
  assert (Hdup_e : filter (fun e => column e = "PriorityLevel"
                                    ∧ severity e = error_) dups = []).
  { apply filter_none. eapply Forall_impl; [exact Hdups|].
    intros e [_ Hc] [Hc' _]. by rewrite Hc in Hc'. }
  assert (Hdup_w : filter (fun e => severity e = warning_) dups = []).
  { apply filter_none. eapply Forall_impl; [exact Hdups|].
    intros e [He _] He'. by rewrite He in He'. }
  assert (Hw : about i "PriorityLevel" (warnings res)
               = filter (fun e => column e = "PriorityLevel")
                        (aboutRow i (warnings res))).
  { unfold about, aboutRow. rewrite list_filter_filter.
    apply list_filter_iff. tauto. }
  rewrite Hw.
  subst res. unfold validateClientData, report.
  cbn [errors warnings].
  rewrite about_errors, aboutRow_warnings, Hrow, !filter_app, Hdup_e, Hdup_w.
  rewrite !app_nil_r.
  unfold clientIssues.
  rewrite !required_cases, dataType_number, range_cases.
  fold value. clearbody value.
  split; [|split; [|split]].
  - intros Hb Hnan.
    unfold outside. rewrite Hb, (not_blank_truthy value Hb), Hnan.
    cbn [negb andb option_list].
    destruct (blank (r !! "ClientID")), (blank (r !! "ClientName"));
      by vm_compute.
  - intros Hb Hout. rewrite Hb, Hout, (not_blank_truthy value Hb).
    assert (Hnan : JS.isNaN (JS.ToNumber value) = false).
    { unfold outside in Hout. by destruct (JS.isNaN (JS.ToNumber value)). }
    rewrite Hnan. cbn [negb andb option_list].
    destruct (blank (r !! "ClientID")), (blank (r !! "ClientName"));
      by vm_compute.
  - intros Hb. rewrite Hb, (blank_has_type value Hb).
    destruct (outside value 1 10);
      destruct (blank (r !! "ClientID")), (blank (r !! "ClientName"));
      by vm_compute.
  - intros s ->. split; [apply NaN_not_blank|apply blank_text_outside].
Qed.

Lemma priority_type_or_range_witness :
  let r0 : Validators.Row :=
    {[ "ClientID" := JS.Str "C1"; "ClientName" := JS.Str "Acme";
       "PriorityLevel" := JS.Str "abc" ]} in
  let r1 : Validators.Row :=
    {[ "ClientID" := JS.Str "C2"; "ClientName" := JS.Str "Bolt";
       "PriorityLevel" := JS.Num (JS.ofNat 12) ]} in
  let r2 : Validators.Row :=
    {[ "ClientID" := JS.Str "C3"; "ClientName" := JS.Str "Cord";
       "PriorityLevel" := JS.Str (String "160" EmptyString) ]} in
  let res := validateClientData (fun _ => JS.NaN) [r0; r1; r2] in
  (about 0 "PriorityLevel" (errors res) = [numberIssue "PriorityLevel" 0]
   ∧ aboutRow 0 (warnings res) = [])
  ∧ (aboutRow 1 (warnings res) = [rangeIssue "PriorityLevel" 1 10 1]
     ∧ about 1 "PriorityLevel" (errors res) = [])
  ∧ (about 2 "PriorityLevel" (errors res) = [requiredIssue "PriorityLevel" 2]
     ∧ aboutRow 2 (warnings res) = [rangeIssue "PriorityLevel" 1 10 2]).
Proof.
  intros r0 r1 r2 res. split; [|split].
  - destruct (priority_type_or_range (fun _ => JS.NaN) [r0; r1; r2] 0 r0)
      as [H _]; [reflexivity|].
    destruct H as (H1 & _ & H3); [by vm_compute | by vm_compute |].
    by split.
  - destruct (priority_type_or_range (fun _ => JS.NaN) [r0; r1; r2] 1 r1)
      as (_ & H & _); [reflexivity|].
    destruct H as (H1 & _ & H3); [by vm_compute | by vm_compute |].
    by split.
  - destruct (priority_type_or_range (fun _ => JS.NaN) [r0; r1; r2] 2 r2)
      as (_ & _ & H & _); [reflexivity|].
    destruct H as (H1 & H2); [by vm_compute|]. by split.
Defined.

(** ** The query filter *)

Lemma filter_false {A} (f : A → bool) (l : list A) :
  (∀ x, f x = false) → List.filter f l = [].
Proof.
  intros Hf. induction l as [|x l IH]; [done|].
  cbn. by rewrite Hf.
Qed.

Lemma filter_sublist {A} (f : A → bool) (l : list A) :
  sublist (List.filter f l) l.
Proof.
  induction l as [|x l IH]; [done|].
  cbn. destruct (f x); by constructor.
Qed.

(** The result of a query is made of rows of the table, in their order. *)
Lemma query_result_sublist (query : string) (data : list Row)
    (dataType : string) :
  sublist (processNaturalLanguageQuery query data dataType) data.
Proof.
  unfold processNaturalLanguageQuery, textSearch.
  repeat case_bool_decide; apply filter_sublist.
Qed.

(** For the three kinds of entity the text search is never reached: a query
    that holds none of the words of the rules selects nothing. *)
Lemma query_without_rule_word (query : string) (data : list Row)
    (dataType : string) :
  dataType ∈ ["clients"; "workers"; "tasks"] →
  Forall (fun w => JS.includes (JS.toLowerCase query) w = false)
         (ruleWords dataType) →
  processNaturalLanguageQuery query data dataType = [].
Proof.
  intros Hkind Hwords.
  unfold processNaturalLanguageQuery, ruleWords in *.
  repeat (apply elem_of_cons in Hkind as [->|Hkind]);
    [| | |by apply elem_of_nil in Hkind];
    cbn [bool_decide decide_rel] in *;
    repeat (apply Forall_cons in Hwords as [? Hwords]).
  - rewrite bool_decide_eq_true_2 by done.
    apply filter_false. intros item. unfold clientMatches.
    repeat match goal with H : JS.includes _ _ = false |- _ =>
      rewrite H; clear H end.
    done.
  - rewrite bool_decide_eq_false_2, bool_decide_eq_true_2 by done.
    apply filter_false. intros item. unfold workerMatches.
    repeat match goal with H : JS.includes _ _ = false |- _ =>
      rewrite H; clear H end.
    done.
  - rewrite !bool_decide_eq_false_2, bool_decide_eq_true_2 by done.
    apply filter_false. intros item. unfold taskMatches, taskMatchesTail.
    repeat match goal with H : JS.includes _ _ = false |- _ =>
      rewrite H; clear H end.
    done.
Qed.

(** C1. The query xyz123 holds no word of a rule; over the clients the
    function returns nothing, although the text search, which the code
    reaches only for other kinds, finds the client with that identifier. *)
Theorem query_fallback_unreached :
  Forall (fun w => JS.includes (JS.toLowerCase "xyz123") w = false)
         (ruleWords "clients")
  ∧ processNaturalLanguageQuery "xyz123" [clientXyz] "clients" = []
  ∧ textSearch (JS.toLowerCase "xyz123") [clientXyz] = [clientXyz]
  ∧ processNaturalLanguageQuery "xyz123" [clientXyz] "records" = [clientXyz].
Proof.
  split; [by repeat constructor|].
  split; [by vm_compute|]. split; reflexivity.
Qed.

(** ** Rounding to binary64 *)

Section Rounding.
Local Open Scope Z_scope.

Lemma roundHalfEven_le (n d k : Z) :
  0 < d → n ≤ k * d → JS.roundHalfEven n d ≤ k.
Proof.
  intros Hd Hn. unfold JS.roundHalfEven.
  pose proof (Z.div_mod n d ltac:(lia)) as Hdm.
  pose proof (Z.mod_pos_bound n d Hd) as Hr.
  destruct (Z.compare_spec (2 * (n mod d)) d);
    [destruct (Z.even (n / d))|..]; nia.
Qed.

Lemma roundHalfEven_ge (n d k : Z) :
  0 < d → k * d ≤ n → k ≤ JS.roundHalfEven n d.
Proof.
  intros Hd Hn. unfold JS.roundHalfEven.
  pose proof (Z.div_mod n d ltac:(lia)) as Hdm.
  pose proof (Z.mod_pos_bound n d Hd) as Hr.
  destruct (Z.compare_spec (2 * (n mod d)) d);
    [destruct (Z.even (n / d))|..]; nia.
Qed.

(** Below the middle of [k] and [k + 1] the rounding gives at most [k];
    above the middle of [k - 1] and [k], at least [k]. *)
Lemma roundHalfEven_below (n d k : Z) :
  0 < d → 2 * n < (2 * k + 1) * d → JS.roundHalfEven n d ≤ k.
Proof.
  intros Hd Hn. unfold JS.roundHalfEven.
  pose proof (Z.div_mod n d ltac:(lia)) as Hdm.
  pose proof (Z.mod_pos_bound n d Hd) as Hr.
  destruct (Z.compare_spec (2 * (n mod d)) d);
    [destruct (Z.even (n / d))|..]; nia.
Qed.

Lemma roundHalfEven_above (n d k : Z) :
  0 < d → (2 * k - 1) * d < 2 * n → k ≤ JS.roundHalfEven n d.
Proof.
  intros Hd Hn. unfold JS.roundHalfEven.
  pose proof (Z.div_mod n d ltac:(lia)) as Hdm.
  pose proof (Z.mod_pos_bound n d Hd) as Hr.
  destruct (Z.compare_spec (2 * (n mod d)) d);
    [destruct (Z.even (n / d))|..]; nia.
Qed.

(** The binade of a ratio that is at most 1. *)
Lemma binade_unit (a d : Z) :
  0 < a → a ≤ d →
  JS.binade a d ≤ 0
  ∧ d ≤ a * 2 ^ (- JS.binade a d)
  ∧ a * 2 ^ (- JS.binade a d) < 2 * d.
Proof.
  intros Ha Had. unfold JS.binade.
  pose proof (Z.log2_spec a Ha) as [La Ua].
  pose proof (Z.log2_spec d ltac:(lia)) as [Ld Ud].
  pose proof (Z.log2_le_mono a d Had) as Hmono.
  pose proof (Z.log2_nonneg a) as Hla.
  rewrite Z.pow_succ_r in Ua, Ud by apply Z.log2_nonneg.
  set (la := Z.log2 a) in *. set (ld := Z.log2 d) in *.
  assert (Hsplit : 2 ^ ld = 2 ^ la * 2 ^ (ld - la)).
  { rewrite <- Z.pow_add_r by lia. f_equal. lia. }
  assert (Hpos : 0 < 2 ^ (ld - la)) by (apply Z.pow_pos_nonneg; lia).
  destruct (Z.leb_spec 0 (la - ld)) as [H0|H0].
  - assert (la = ld) as Heq by lia. rewrite Heq in *.
    rewrite Z.sub_diag in *. change (2 ^ 0) with 1 in *.
    destruct (Z.ltb_spec a (d * 1)) as [H1|H1].
    + replace (- (0 - 1)) with 1 by lia. change (2 ^ 1) with 2. lia.
    + change (- 0) with 0. change (2 ^ 0) with 1. lia.
  - replace (- (la - ld)) with (ld - la) by lia.
    set (p := 2 ^ (ld - la)) in *.
    assert (H2 : 2 ^ la * p ≤ a * p) by nia.
    assert (H3 : a * p < 2 * 2 ^ la * p) by nia.
    destruct (Z.ltb_spec (a * p) d) as [H1|H1].
    + replace (- (la - ld - 1)) with (Z.succ (ld - la)) by lia.
      rewrite Z.pow_succ_r by lia. fold p. lia.
    + replace (- (la - ld)) with (ld - la) by lia. fold p. lia.
Qed.
End Rounding.

Section Binary64.
Local Open Scope Z_scope.

(** The rounding of a ratio [a / d] in (0, 1]: an exponent [e] and the
    mantissa rounded at that exponent. *)
Lemma binary64_unit_parts (q : Q) :
  0 < Qnum q → Qnum q ≤ Zpos (Qden q) →
  ∃ e, -1022 ≤ e ≤ 0
       ∧ (e = -1022 ∨ Zpos (Qden q) ≤ Qnum q * 2 ^ (- e))
       ∧ Qnum q * 2 ^ (- e) < 2 * Zpos (Qden q)
       ∧ JS.binary64 q =
           JS.Fin (Qred (JS.roundHalfEven (Qnum q * 2 ^ (52 - e))
                           (Zpos (Qden q))
                         # Z.to_pos (2 ^ (52 - e)))).
Proof.
  intros Ha Had.
  destruct (binade_unit (Qnum q) (Zpos (Qden q)) Ha Had) as (He & Hlo & Hhi).
  exists (Z.max (JS.binade (Qnum q) (Zpos (Qden q))) (-1022)).
  set (b := JS.binade (Qnum q) (Zpos (Qden q))) in *.
  set (e := Z.max b (-1022)).
  assert (Hpow : 2 ^ (- e) ≤ 2 ^ (- b)) by (apply Z.pow_le_mono_r; lia).
  assert (Hpos : 0 < 2 ^ (- e)) by (apply Z.pow_pos_nonneg; lia).
  split; [lia|]. split; [|split].
  - destruct (Z.max_spec b (-1022)) as [[_ Hm]|[_ Hm]]; fold e in Hm.
    + by left.
    + right. by rewrite Hm.
  - nia.
  - unfold JS.binary64. cbv zeta.
    rewrite (proj2 (Z.eqb_neq (Qnum q) 0)) by lia.
    rewrite Z.abs_eq by lia. fold b. fold e.
    rewrite (proj2 (Z.leb_le 0 (52 - e))) by lia.
    rewrite (proj2 (Z.ltb_ge 1023 e)) by lia.
    rewrite (proj2 (Z.eqb_neq e 1023)) by lia.
    rewrite (proj2 (Z.ltb_ge (Qnum q) 0)) by lia.
    done.
Qed.

(** Rounding keeps a number of the unit interval in the unit interval. *)
Lemma binary64_unit (q : Q) :
  (0 <= q)%Q → (q <= 1)%Q →
  ∃ r, JS.binary64 q = JS.Fin r ∧ (0 <= r)%Q ∧ (r <= 1)%Q.
Proof.
  intros H0 H1. unfold Qle in H0, H1. cbn in H0, H1.
  rewrite Z.mul_1_r in H0, H1. rewrite Z.mul_1_l in H1.
  destruct (decide (Qnum q = 0)) as [Hz|Hnz].
  - exists 0%Q. unfold JS.binary64. rewrite Hz. done.
  - destruct (binary64_unit_parts q) as (e & He & _ & _ & ->); [lia..|].
    eexists. split; [done|].
    set (m := JS.roundHalfEven _ _).
    assert (Hp : 0 < 2 ^ (52 - e)) by (apply Z.pow_pos_nonneg; lia).
    assert (Hm0 : 0 ≤ m).
    { apply roundHalfEven_ge; [lia|]. nia. }
    assert (Hm1 : m ≤ 2 ^ (52 - e)).
    { apply roundHalfEven_le; [lia|]. nia. }
    rewrite Qred_correct. unfold Qle. cbn.
    rewrite Z2Pos.id by lia. lia.
Qed.
End Binary64.

Section Threshold.
Local Open Scope Z_scope.

(** The literal 0.3 of [suggestRules]. *)
Lemma three_tenths :
  JS.binary64 (3 # 10) = JS.Fin (5404319552844595 # 18014398509481984).
Proof. by vm_compute. Qed.

(** For a ratio [a / d] of the unit interval with [d] below 2^32, the
    rounded ratio exceeds the rounded 0.3 exactly when [a / d] exceeds
    3/10. *)
Lemma binary64_over_three_tenths (q : Q) :
  0 < Qnum q → Qnum q ≤ Zpos (Qden q) → Zpos (Qden q) < 2 ^ 32 →
  JS.gt (JS.binary64 q) (JS.binary64 (3 # 10)) = true
  ↔ 3 * Zpos (Qden q) < 10 * Qnum q.
Proof.
  intros Ha Had Hd.
  destruct (binary64_unit_parts q Ha Had) as (e & He & Hlo & Hhi & ->).
  rewrite three_tenths. unfold JS.gt, JS.lt, JS.compare.
  set (a := Qnum q) in *. set (d := Zpos (Qden q)) in *.
  set (m := JS.roundHalfEven (a * 2 ^ (52 - e)) d).
  assert (Hp : 0 < 2 ^ (52 - e)) by (apply Z.pow_pos_nonneg; lia).
  change (2 ^ 32) with 4294967296 in Hd.
  assert (Hcmp : (5404319552844595 * 2 ^ (52 - e) < m * 18014398509481984)
                 ↔ 3 * d < 10 * a).
  { assert (Hcases : e = 0 ∨ e = -1 ∨ e = -2 ∨ e ≤ -3) by lia.
    destruct Hcases as [->|[->|[->|He3]]].
    - change (- 0) with 0 in *. change (2 ^ 0) with 1 in *.
      change (2 ^ (52 - 0)) with 4503599627370496 in *.
      assert (4503599627370496 ≤ m) by (apply roundHalfEven_ge; lia).
      lia.
    - change (- -1) with 1 in *. change (2 ^ 1) with 2 in *.
      change (2 ^ (52 - -1)) with 9007199254740992 in *.
      assert (4503599627370496 ≤ m) by (apply roundHalfEven_ge; lia).
      lia.
    - change (- -2) with 2 in *. change (2 ^ 2) with 4 in *.
      change (2 ^ (52 - -2)) with 18014398509481984 in *.
      split.
      + intros Hm. destruct (Z.le_gt_cases (10 * a) (3 * d)) as [Hle|]; [|done].
        assert (m ≤ 5404319552844595) by (apply roundHalfEven_below; lia).
        lia.
      + intros Hgt.
        assert (5404319552844596 ≤ m) by (apply roundHalfEven_above; lia).
        lia.
    - assert (Hsplit : 2 ^ (- e) = 8 * 2 ^ (- 3 - e)).
      { change 8 with (2 ^ 3). rewrite <- Z.pow_add_r by lia.
        f_equal. lia. }
      assert (Hsplit' : 2 ^ (52 - e) = 36028797018963968 * 2 ^ (- 3 - e)).
      { change 36028797018963968 with (2 ^ 55).
        rewrite <- Z.pow_add_r by lia. f_equal. lia. }
      assert (Hq : 0 < 2 ^ (- 3 - e)) by (apply Z.pow_pos_nonneg; lia).
      set (p := 2 ^ (- 3 - e)) in *.
      assert (m ≤ 9007199254740992).
      { apply roundHalfEven_le; [lia|]. rewrite Hsplit'. nia. }
      split; [|nia]. intros Hm. nia. }
  rewrite <- Hcmp.
  destruct (Qcompare_spec (5404319552844595 # 18014398509481984)
              (Qred (m # Z.to_pos (2 ^ (52 - e))))) as [H|H|H];
    rewrite Qred_correct in H; unfold Qeq, Qlt in H; cbn in H;
    rewrite Z2Pos.id in H by lia.
  - split; [done|lia].
  - done.
  - split; [done|lia].
Qed.
End Threshold.

(** ** The matrix of the edit distance *)

Section MatrixCells.
Implicit Types (matrix : Matrix) (i j v : nat).

Lemma shaped_store rows cols matrix j i v :
  shaped rows cols matrix → shaped rows cols (store matrix j i v).
Proof.
  intros [Hlen Hrows]. unfold store. split.
  - by rewrite length_alter.
  - apply Forall_forall. intros line Hin.
    apply list_elem_of_lookup in Hin as [k Hk].
    destruct (decide (j = k)) as [->|Hne].
    + rewrite list_lookup_alter_eq in Hk.
      destruct (matrix !! k) as [old|] eqn:Hold; [|done].
      cbn in Hk. injection Hk as <-. rewrite length_insert.
      rewrite Forall_forall in Hrows. apply Hrows.
      by eapply list_elem_of_lookup_2.
    + rewrite list_lookup_alter_ne in Hk by done.
      rewrite Forall_forall in Hrows. apply Hrows.
      by eapply list_elem_of_lookup_2.
Qed.

Lemma cell_store_same rows cols matrix j i v :
  shaped rows cols matrix → j < rows → i < cols →
  cell (store matrix j i v) j i = v.
Proof.
  intros [Hlen Hrows] Hj Hi. unfold cell, store.
  rewrite list_lookup_alter_eq.
  destruct (lookup_lt_is_Some_2 matrix j ltac:(lia)) as [line Hline].
  rewrite Hline. cbn.
  rewrite list_lookup_insert_eq; [done|].
  rewrite Forall_forall in Hrows.
  rewrite (Hrows line) by by eapply list_elem_of_lookup_2. done.
Qed.

Lemma cell_store_other matrix j i v j' i' :
  (j', i') ≠ (j, i) →
  cell (store matrix j i v) j' i' = cell matrix j' i'.
Proof.
  intros Hne. unfold cell, store.
  destruct (decide (j = j')) as [->|Hj].
  - rewrite list_lookup_alter_eq.
    destruct (matrix !! j') as [line|]; [|done]. cbn.
    rewrite list_lookup_insert_ne; [done|]. congruence.
  - by rewrite list_lookup_alter_ne.
Qed.

Lemma shaped_replicate rows cols :
  shaped rows cols (replicate rows (replicate cols None)).
Proof.
  split; [apply length_replicate|].
  apply Forall_forall. intros line Hin.
  apply elem_of_replicate in Hin as [-> _]. apply length_replicate.
Qed.
End MatrixCells.

(** A loop over [start, start + 1, ...] keeps what each of its turns
    keeps. *)
Lemma foldl_seq_invariant {A} (I : nat → A → Prop) (f : A → nat → A)
    (start n : nat) (a : A) :
  I start a →
  (∀ k x, start ≤ k < start + n → I k x → I (S k) (f x k)) →
  I (start + n) (foldl f a (seq start n)).
Proof.
  intros Hstart Hstep. induction n as [|n IH].
  - by rewrite Nat.add_0_r.
  - rewrite seq_S, foldl_app. cbn [foldl].
    rewrite Nat.add_succ_r. apply Hstep; [lia|].
    apply IH. intros k x Hk. apply Hstep. lia.
Qed.

Section FillMatrix.
Variables str1 str2 : string.

Local Abbreviation len1 := (String.length str1).
Local Abbreviation len2 := (String.length str2).
Local Abbreviation D := (distanceAt str1 str2).
Local Abbreviation firstRow := (firstRow str1 str2).
Local Abbreviation firstColumn := (firstColumn str1 str2).
Local Abbreviation rowsDone := (rowsDone str1 str2).
Local Abbreviation cellsDone := (cellsDone str1 str2).

Lemma distanceAt_step (j i : nat) :
  D (S j) (S i) =
  Nat.min (Nat.min (D (S j) i + 1) (D j (S i) + 1))
          (D j i + indicator str1 str2 (S i) (S j)).
Proof. done. Qed.

Lemma distanceAt_column (j : nat) : D j 0 = j.
Proof. by destruct j. Qed.

Lemma firstRow_loop :
  firstRow (len1 + 1)
    (foldl (fun m i => store m 0 i i)
           (replicate (len2 + 1) (replicate (len1 + 1) None))
           (seq 0 (len1 + 1))).
Proof.
  apply (foldl_seq_invariant firstRow _ 0 (len1 + 1)).
  - split; [apply shaped_replicate|]. lia.
  - intros k m Hk [Hok Hrow]. split; [by apply shaped_store|].
    intros i Hi. destruct (decide (i = k)) as [->|Hne].
    + eapply cell_store_same; [done|lia..].
    + rewrite cell_store_other by congruence. apply Hrow. lia.
Qed.

Lemma firstColumn_loop (matrix : Matrix) :
  firstRow (len1 + 1) matrix →
  firstColumn (len2 + 1)
    (foldl (fun m j => store m j 0 j) matrix (seq 0 (len2 + 1))).
Proof.
  intros [Hok Hrow].
  apply (foldl_seq_invariant firstColumn _ 0 (len2 + 1)).
  - split; [done|]. split; [|lia]. intros i Hi. apply Hrow. lia.
  - clear matrix Hok Hrow. intros k m Hk (Hok & Hrow & Hcol).
    split; [by apply shaped_store|]. split.
    + intros i Hi. destruct (decide ((0, i) = (k, 0))) as [[= <- ->]|Hne].
      * eapply cell_store_same; [done|lia..].
      * rewrite cell_store_other by done. by apply Hrow.
    + intros j Hj. destruct (decide (j = k)) as [->|Hne].
      * eapply cell_store_same; [done|lia..].
      * rewrite cell_store_other by congruence. apply Hcol. lia.
Qed.

Lemma fillCell_step (j k : nat) (matrix : Matrix) :
  1 ≤ j ≤ len2 → 1 ≤ k ≤ len1 →
  cellsDone j k matrix → cellsDone j (S k) (fillCell str1 str2 j matrix k).
Proof.
  intros Hj Hk ((Hok & Hcol & Hrows) & Hcells). unfold fillCell.
  destruct j as [|j']; [lia|]. destruct k as [|k']; [lia|].
  cbn [Nat.sub]. rewrite !Nat.sub_0_r.
  rewrite (Hcells k') by lia.
  rewrite (Hrows j' (S k')) by lia.
  rewrite (Hrows j' k') by lia.
  rewrite <- distanceAt_step.
  split; [split; [by apply shaped_store|split]|].
  - intros j Hj'. rewrite cell_store_other by congruence. by apply Hcol.
  - intros j i Hj' Hi. rewrite cell_store_other by (intros [= -> ->]; lia).
    by apply Hrows.
  - intros i Hi. destruct (decide (i = S k')) as [->|Hne].
    + eapply cell_store_same; [done|lia..].
    + rewrite cell_store_other by congruence. apply Hcells. lia.
Qed.

Lemma fillRow_loop (j : nat) (matrix : Matrix) :
  1 ≤ j ≤ len2 →
  rowsDone j matrix →
  rowsDone (S j) (foldl (fillCell str1 str2 j) matrix (seq 1 len1)).
Proof.
  intros Hj Hdone.
  assert (Hend : cellsDone j (1 + len1)
                   (foldl (fillCell str1 str2 j) matrix (seq 1 len1))).
  { apply (foldl_seq_invariant (cellsDone j) _ 1 len1).
    - split; [done|]. intros i Hi. assert (i = 0) as -> by lia.
      rewrite distanceAt_column. destruct Hdone as (_ & Hcol & _).
      apply Hcol. lia.
    - intros k m Hk. apply fillCell_step; lia. }
  destruct Hend as ((Hok & Hcol & Hrows) & Hcells).
  split; [done|]. split; [done|].
  intros j' i Hj' Hi. destruct (decide (j' = j)) as [->|Hne].
  - apply Hcells. lia.
  - apply Hrows; lia.
Qed.

(** The matrix, once filled, holds the recurrence. *)
Lemma fillMatrix_done : rowsDone (1 + len2) (fillMatrix str1 str2).
Proof.
  unfold fillMatrix.
  apply (foldl_seq_invariant rowsDone _ 1 len2).
  - destruct (firstColumn_loop _ firstRow_loop) as (Hok & Hrow & Hcol).
    split; [done|]. split; [intros j Hj; apply Hcol; lia|].
    intros j i Hj Hi. assert (j = 0) as -> by lia. by apply Hrow.
  - intros k m Hk. apply fillRow_loop. lia.
Qed.

Lemma fillMatrix_distance :
  cell (fillMatrix str1 str2) len2 len1 = D len2 len1.
Proof.
  destruct fillMatrix_done as (_ & _ & Hrows). apply Hrows; lia.
Qed.
End FillMatrix.

(** ** The recurrence of the edit distance *)

Lemma indicator_sym (s1 s2 : string) (i j : nat) :
  indicator s1 s2 i j = indicator s2 s1 j i.
Proof. unfold indicator. by repeat case_bool_decide. Qed.

Lemma indicator_same (s : string) (i : nat) : indicator s s i i = 0.
Proof. unfold indicator. by rewrite bool_decide_eq_true_2. Qed.

Lemma indicator_le (s1 s2 : string) (i j : nat) : indicator s1 s2 i j ≤ 1.
Proof. unfold indicator. case_bool_decide; lia. Qed.

Lemma distanceAt_sym (s1 s2 : string) (j i : nat) :
  distanceAt s1 s2 j i = distanceAt s2 s1 i j.
Proof.
  revert i. induction j as [|j IHj]; intros i.
  - by rewrite distanceAt_column.
  - induction i as [|i IHi]; [done|].
    rewrite !distanceAt_step, IHi, (IHj (S i)), (IHj i), indicator_sym. lia.
Qed.

Lemma distanceAt_diag (s : string) (n : nat) : distanceAt s s n n = 0.
Proof.
  induction n as [|n IH]; [done|].
  rewrite distanceAt_step, IH, indicator_same. lia.
Qed.

Lemma distanceAt_le (s1 s2 : string) (j i : nat) :
  distanceAt s1 s2 j i ≤ Nat.max j i.
Proof.
  revert i. induction j as [|j IHj]; intros i; [cbn; lia|].
  induction i as [|i IHi]; [cbn; lia|].
  rewrite distanceAt_step.
  pose proof (IHj i). pose proof (indicator_le s1 s2 (S i) (S j)). lia.
Qed.

(** ** The similarity score *)

Lemma binary64_zero (q : Q) : Qnum q = 0%Z → JS.binary64 q = JS.Fin 0.
Proof. intros H. unfold JS.binary64. by rewrite H. Qed.

(** The quotient of two natural numbers [d <= m], [m] not zero. *)
Lemma div_unit (d m : nat) :
  d ≤ m → 0 < m →
  ∃ r, JS.div (JS.ofNat d) (JS.ofNat m) = JS.Fin r ∧ (0 <= r)%Q ∧ (r <= 1)%Q.
Proof.
  intros Hdm Hm. unfold JS.div, JS.ofNat, JS.ofZ, JS.isZero. cbn [Qnum inject_Z].
  rewrite (proj2 (Z.eqb_neq _ _)) by lia.
  apply binary64_unit.
  - apply Qle_shift_div_l; [unfold Qlt; cbn; lia|].
    rewrite Qmult_0_l. unfold Qle; cbn; lia.
  - apply Qle_shift_div_r; [unfold Qlt; cbn; lia|].
    rewrite Qmult_1_l. unfold Qle; cbn; lia.
Qed.

(** One minus a number of the unit interval. *)
Lemma sub_unit (r : Q) :
  (0 <= r)%Q → (r <= 1)%Q →
  ∃ r', JS.sub (JS.ofNat 1) (JS.Fin r) = JS.Fin r'
        ∧ (0 <= r')%Q ∧ (r' <= 1)%Q.
Proof.
  intros H0 H1. unfold JS.sub, JS.opp, JS.add, JS.ofNat, JS.ofZ.
  apply binary64_unit; rewrite Qred_correct;
    change (inject_Z (Z.of_nat 1)) with 1%Q; lra.
Qed.

Lemma calculateSimilarity_unit (str1 str2 : string) :
  0 < Nat.max (String.length str1) (String.length str2) →
  ∃ q, calculateSimilarity str1 str2 = JS.Fin q ∧ (0 <= q)%Q ∧ (q <= 1)%Q.
Proof.
  intros Hlen. unfold calculateSimilarity. rewrite fillMatrix_distance.
  destruct (div_unit (distanceAt str1 str2 (String.length str2)
                        (String.length str1))
                     (Nat.max (String.length str1) (String.length str2)))
    as (r & -> & H0 & H1); [|done|by apply sub_unit].
  rewrite Nat.max_comm. apply distanceAt_le.
Qed.

Lemma calculateSimilarity_sym (str1 str2 : string) :
  calculateSimilarity str1 str2 = calculateSimilarity str2 str1.
Proof.
  unfold calculateSimilarity.
  by rewrite !fillMatrix_distance, distanceAt_sym, Nat.max_comm.
Qed.

Lemma calculateSimilarity_same (str : string) :
  str ≠ EmptyString → calculateSimilarity str str = JS.Fin 1.
Proof.
  intros Hne. unfold calculateSimilarity.
  rewrite fillMatrix_distance, distanceAt_diag, Nat.max_id.
  unfold JS.div, JS.ofNat, JS.ofZ, JS.isZero. cbn [Qnum inject_Z].
  rewrite (proj2 (Z.eqb_neq (Z.of_nat (String.length str)) 0))
    by (destruct str; [done|cbn; lia]).
  by rewrite binary64_zero.
Qed.

Lemma eq_Fin_refl (q : Q) : JS.eq (JS.Fin q) (JS.Fin q) = true.
Proof.
  unfold JS.eq, JS.compare.
  by rewrite (proj1 (Qeq_alt q q) (Qeq_refl q)).
Qed.

(** C3 as the design document states it: the similarity of two empty
    strings is 0/0, that is NaN, which is equal to nothing. *)
Lemma similarity_of_empty_strings :
  calculateSimilarity "" "" = JS.NaN
  ∧ JS.eq (calculateSimilarity "" "") (JS.Fin 1) = false
  ∧ JS.eq (calculateSimilarity "" "") (calculateSimilarity "" "") = false
  ∧ ¬ (∀ a, JS.eq (calculateSimilarity a a) (JS.Fin 1) = true).
Proof.
  split; [by vm_compute|]. split; [by vm_compute|]. split; [by vm_compute|].
  intros H. specialize (H ""). by vm_compute in H.
Qed.

(** C3, amended. When one of the two strings is not empty, the similarity
    is a number between 0 and 1, the same in both orders; the similarity of
    a string that is not empty with itself is 1. *)
Theorem similarity_properties (a b : string) :
  a ≠ EmptyString →
  JS.eq (calculateSimilarity a a) (JS.Fin 1) = true
  ∧ (∃ q, calculateSimilarity a b = JS.Fin q ∧ (0 <= q)%Q ∧ (q <= 1)%Q)
  ∧ (∃ q, calculateSimilarity b a = JS.Fin q ∧ (0 <= q)%Q ∧ (q <= 1)%Q)
  ∧ calculateSimilarity a b = calculateSimilarity b a
  ∧ JS.eq (calculateSimilarity a b) (calculateSimilarity b a) = true.
Proof.
  intros Ha.
  assert (Hlen : 0 < Nat.max (String.length a) (String.length b)).
  { destruct a; [done|cbn; lia]. }
  destruct (calculateSimilarity_unit a b Hlen) as (q & Hq & H0 & H1).
  split; [by rewrite calculateSimilarity_same, eq_Fin_refl|].
  split; [by exists q|].
  split; [exists q; by rewrite calculateSimilarity_sym|].
  split; [apply calculateSimilarity_sym|].
  by rewrite (calculateSimilarity_sym b a), Hq, eq_Fin_refl.
Qed.

Lemma similarity_properties_witness :
  JS.eq (calculateSimilarity "name" "name") (JS.Fin 1) = true
  ∧ calculateSimilarity "kitten" "sitting"
    = calculateSimilarity "sitting" "kitten".
Proof.
  split.
  - apply (similarity_properties "name" ""). discriminate.
  - apply (similarity_properties "kitten" "sitting"). discriminate.
Defined.

(** ** The priority heuristic *)

(** The quotient of two natural numbers against the literal 0.3. *)
Lemma ratio_over_three_tenths (h t : nat) :
  h ≤ t → 0 < t → (Z.of_nat t < 2 ^ 32)%Z →
  JS.gt (JS.div (JS.ofNat h) (JS.ofNat t)) (JS.binary64 (3 # 10)) = true
  ↔ 3 * t < 10 * h.
Proof.
  intros Hht Ht Hbound.
  unfold JS.div, JS.ofNat, JS.ofZ, JS.isZero. cbn [Qnum inject_Z].
  rewrite (proj2 (Z.eqb_neq (Z.of_nat t) 0)) by lia.
  assert (Hnum : Qnum (inject_Z (Z.of_nat h) / inject_Z (Z.of_nat t))
                 = Z.of_nat h).
  { destruct t as [|t']; [lia|].
    change (Z.of_nat (S t')) with (Z.pos (Pos.of_succ_nat t')). cbn. lia. }
  assert (Hden : Zpos (Qden (inject_Z (Z.of_nat h) / inject_Z (Z.of_nat t)))
                 = Z.of_nat t).
  { destruct t as [|t']; [lia|].
    change (Z.of_nat (S t')) with (Z.pos (Pos.of_succ_nat t')). cbn. lia. }
  destruct h as [|h'].
  - rewrite binary64_zero by done. rewrite three_tenths.
    split; [done|lia].
  - rewrite binary64_over_three_tenths; rewrite ?Hnum, ?Hden; lia.
Qed.

Lemma length_filter_le {A} (f : A → bool) (l : list A) :
  length (List.filter f l) ≤ length l.
Proof. induction l as [|x l IH]; [done|]. cbn. destruct (f x); cbn; lia. Qed.

(** What [suggestRules] returns: the advice on priorities when the ratio
    exceeds the threshold, then advices that are other texts. *)
Lemma suggestRules_parts (clientData workerData taskData : list Row) :
  ∃ others,
    suggestRules clientData workerData taskData =
    (if (0 <? length clientData)
        && JS.gt (JS.div (JS.ofNat (length (List.filter highPriority clientData)))
                         (JS.ofNat (length clientData)))
                 (JS.binary64 (3 # 10))
     then [priorityAdvice] else [])
    ++ others
    ∧ priorityAdvice ∉ others.
Proof.
  unfold suggestRules. cbv zeta.
  repeat match goal with
         | |- context [if ?b then _ else _] => destruct b; cbn [andb]
         end;
    cbn [app];
    (eexists; split; [reflexivity|]);
    intros Hin;
    repeat (apply elem_of_cons in Hin as [Hin|Hin]; [discriminate Hin|]);
    by apply elem_of_nil in Hin.
Qed.

(** C7. For every list of clients that is not empty (and that an array can
    hold: fewer than 2^32 rows), [suggestRules] includes the advice on
    priorities exactly when the fraction of clients whose priority level
    reads as a number of at least 4 exceeds 0.3: three times the number of
    clients is less than ten times the number of those. *)
Theorem priority_advice_threshold (clientData workerData taskData : list Row) :
  0 < length clientData → (Z.of_nat (length clientData) < 2 ^ 32)%Z →
  priorityAdvice ∈ suggestRules clientData workerData taskData
  ↔ 3 * length clientData < 10 * length (List.filter highPriority clientData).
Proof.
  intros Hlen Hbound.
  destruct (suggestRules_parts clientData workerData taskData)
    as (others & -> & Hothers).
  rewrite (proj2 (Nat.ltb_lt 0 (length clientData))) by done. cbn [andb].
  rewrite <- ratio_over_three_tenths by (try apply length_filter_le; done).
  destruct (JS.gt _ _).
  - split; [done|]. intros _. apply elem_of_app. left. by left.
  - split; [|done]. intros Hin. apply elem_of_app in Hin as [Hin|Hin].
    + by apply elem_of_nil in Hin.
    + done.
Qed.

Lemma priority_advice_threshold_witness :
  priorityAdvice ∈ suggestRules fourOfTen [] []
  ∧ priorityAdvice ∉ suggestRules twoOfTen [] [].
Proof.
  split.
  - apply (priority_advice_threshold fourOfTen [] []);
      [cbn; lia | reflexivity | vm_compute; lia].
  - intros Hin.
    apply (priority_advice_threshold twoOfTen [] []) in Hin;
      [vm_compute in Hin; lia | cbn; lia | reflexivity].
Defined.

(** ** The search of the column mapper *)

Lemma lt_Fin (p q : Q) : JS.lt (JS.Fin p) (JS.Fin q) = true ↔ (p < q)%Q.
Proof.
  unfold JS.lt, JS.compare. rewrite Qlt_alt.
  destruct (p ?= q)%Q; split; done.
Qed.

Lemma lt_Fin_false (p q : Q) :
  JS.lt (JS.Fin p) (JS.Fin q) = false ↔ (q <= p)%Q.
Proof.
  rewrite <- not_true_iff_false, lt_Fin. split.
  - apply Qnot_lt_le.
  - apply Qle_not_lt.
Qed.

Lemma le_Fin (p q : Q) : JS.le (JS.Fin p) (JS.Fin q) = true ↔ (p <= q)%Q.
Proof.
  unfold JS.le, JS.compare. rewrite Qle_alt.
  destruct (p ?= q)%Q; split; done.
Qed.

Section Search.
Variable header : string.

Local Abbreviation pickBest := (pickBest header).

Lemma foldl_candidates (table : list (string * list string))
    (st : string * JS.number) :
  foldl (entryStep (normalize header)) st table
  = foldl pickBest st (candidatesOf table).
Proof.
  revert st. induction table as [|[e vs] table IH]; intros st; [done|].
  unfold candidatesOf in *. rewrite bind_cons, foldl_app.
  cbn [foldl]. rewrite IH. f_equal.
  unfold entryStep. cbn [fst snd]. clear IH.
  revert st. induction vs as [|v vs IHvs]; intros st; [done|].
  cbn [foldl fmap list_fmap]. by rewrite IHvs.
Qed.

(** The invariant of the search, over candidates whose variant does not
    normalize to the empty string. *)
Lemma search_invariant (cands : list (string * string)) :
  Forall (fun p => normalize p.2 ≠ EmptyString) cands →
  searched header cands (foldl pickBest (EmptyString, JS.Fin 0) cands).
Proof.
  induction cands as [|[e' v'] cands IH] using rev_ind; intros Hne.
  { left. by split. }
  apply Forall_app in Hne as [Hne Hlast].
  rewrite Forall_singleton in Hlast. cbn in Hlast.
  specialize (IH Hne). rewrite foldl_app. cbn [foldl].
  assert (Hfin : ∀ p, normalize p.2 ≠ EmptyString →
                      ∃ q, scoreOf header p = JS.Fin q).
  { intros p Hp. unfold scoreOf.
    destruct (calculateSimilarity_unit (normalize header) (normalize p.2))
      as (q & Hq & _); [|by exists q].
    destruct (normalize p.2); [done|cbn; lia]. }
  destruct (Hfin (e', v') Hlast) as (s' & Hs').
  assert (Hpick : ∀ b m,
    pickBest (b, m) (e', v') =
    if JS.gt (scoreOf header (e', v')) m
       && JS.gt (scoreOf header (e', v')) threshold
    then (e', scoreOf header (e', v')) else (b, m)) by done.
  destruct IH as [[Hst Hall]
                 |(before & e & v & after & Hcands & Hst & Hgt & Hb & Ha)];
    rewrite Hst, Hpick.
  - destruct (JS.gt (scoreOf header (e', v')) threshold) eqn:Hthr.
    + assert (JS.gt (scoreOf header (e', v')) (JS.Fin 0) = true) as ->.
      { rewrite Hs' in *. unfold threshold, JS.gt in *.
        apply lt_Fin in Hthr. apply lt_Fin. lra. }
      cbn [andb]. right. exists cands, e', v', []. repeat split; try done.
      apply Forall_forall. intros p Hp.
      rewrite Forall_forall in Hall, Hne.
      destruct (Hfin p (Hne p Hp)) as (x & Hx).
      specialize (Hall p Hp). rewrite Hx, Hs' in *.
      unfold threshold, JS.gt in *.
      apply lt_Fin in Hthr. apply lt_Fin_false in Hall. apply lt_Fin. lra.
    + rewrite andb_false_r. left. split; [done|].
      apply Forall_app. split; [done|]. by apply Forall_singleton.
  - subst cands. apply Forall_app in Hne as [Hneb Hnea].
    apply Forall_cons in Hnea as [Hnev Hnea].
    destruct (Hfin (e, v) Hnev) as (s & Hs).
    destruct (JS.gt (scoreOf header (e', v')) (scoreOf header (e, v)))
      eqn:Hbetter.
    + assert (JS.gt (scoreOf header (e', v')) threshold = true) as ->.
      { rewrite Hs', Hs in *. unfold threshold, JS.gt in *.
        apply lt_Fin in Hbetter, Hgt. apply lt_Fin. lra. }
      cbn [andb]. right.
      exists (before ++ (e, v) :: after), e', v', [].
      repeat split; try done.
      * rewrite Hs', Hs in *. unfold threshold, JS.gt in *.
        apply lt_Fin in Hbetter, Hgt. apply lt_Fin. lra.
      * rewrite Hs', Hs in *. unfold JS.gt in Hbetter.
        apply lt_Fin in Hbetter.
        apply Forall_app. split; [|apply Forall_cons; split].
        -- apply Forall_forall. intros p Hp.
           rewrite Forall_forall in Hb, Hneb.
           destruct (Hfin p (Hneb p Hp)) as (x & Hx).
           specialize (Hb p Hp). rewrite Hx in *.
           apply lt_Fin in Hb. apply lt_Fin. lra.
        -- rewrite Hs. by apply lt_Fin.
        -- apply Forall_forall. intros p Hp.
           rewrite Forall_forall in Ha, Hnea.
           destruct (Hfin p (Hnea p Hp)) as (x & Hx).
           specialize (Ha p Hp). rewrite Hx in *.
           apply le_Fin in Ha. apply lt_Fin. lra.
    + cbn [andb]. right.
      exists before, e, v, (after ++ [(e', v')]).
      repeat split; try done.
      * by rewrite <- app_assoc.
      * apply Forall_app. split; [done|]. apply Forall_singleton.
        rewrite Hs', Hs in *. unfold JS.gt in Hbetter.
        apply lt_Fin_false in Hbetter. by apply le_Fin.
Qed.
End Search.

Lemma candidates_normalized :
  Forall (fun p => normalize p.2 ≠ EmptyString) candidates.
Proof. apply (bool_decide_unpack _). by vm_compute. Qed.

Lemma candidates_named :
  Forall (fun p => JS.truthy (Some p.1) = true) candidates.
Proof. apply (bool_decide_unpack _). by vm_compute. Qed.

Lemma mappingFor_searched (header : string) : mappedAsSearched header.
Proof.
  unfold mappedAsSearched, mappingFor, columnStep.
  rewrite foldl_candidates. fold candidates.
  destruct (search_invariant header candidates candidates_normalized)
    as [[Hst Hall]
       |(before & e & v & after & Hcands & Hst & Hgt & Hb & Ha)];
    rewrite Hst.
  - done.
  - assert (Hnamed : JS.truthy (Some e) = true).
    { pose proof candidates_named as Hn. rewrite Hcands in Hn.
      apply Forall_app in Hn as [_ Hn]. by apply Forall_cons in Hn as [Hn _]. }
    rewrite Hnamed. cbn [app original suggested confidence].
    split; [done|]. by exists before, e, v, after.
Qed.

(** C5. For every list of headers, [suggestColumnMapping] emits a mapping
    for a header exactly when a candidate of the alias table scores above
    0.5 against it, that is when the maximal score does; the confidence is
    that maximal score, and the field is that of the first candidate, in
    the order of the table, which reaches it. *)
Theorem column_mapping_threshold (userColumns : list string) :
  suggestColumnMapping userColumns = userColumns ≫= mappingFor
  ∧ Forall (fun header =>
              mappedAsSearched header
              ∧ ((∃ m, mappingFor header = [m])
                 ↔ Exists (fun p => JS.gt (scoreOf header p) threshold = true)
                          candidates))
           userColumns.
Proof.
  split.
  - unfold suggestColumnMapping. by rewrite columnStep_foldl.
  - apply Forall_forall. intros header _.
    pose proof (mappingFor_searched header) as Hs.
    split; [done|]. unfold mappedAsSearched in Hs.
    destruct (mappingFor header) as [|m [|m' l]]; [| |done].
    + split; [by intros [m [=]]|]. intros Hex.
      apply Exists_exists in Hex as (p & Hp & Hgt).
      rewrite Forall_forall in Hs. by rewrite (Hs p Hp) in Hgt.
    + split; [|by exists m]. intros _.
      destruct Hs as (_ & before & e & v & after & Hc & _ & Hconf & Hgt & _).
      apply Exists_exists. exists (e, v). split.
      * rewrite Hc. apply elem_of_app. right. by left.
      * by rewrite <- Hconf.
Qed.

(* ===================================================================== *)
(** * Further properties *)
(* ===================================================================== *)

#[local] Set Warnings "-clear-no-such-hyp".

(** ** Duplicates and distinct keys *)

Lemma repeatedRows_count (key : option JS.value → option string)
    (values : list (option JS.value)) :
  length (repeatedRows key values)
  + size (list_to_set (omap key values) : gset string)
  = length (omap key values).
Proof.
  induction values as [|v values IH] using rev_ind; [done|].
  rewrite repeatedRows_snoc, repeatsEarlier_last, omap_app.
  rewrite list_to_set_app_L, !length_app. cbn [omap list_omap].
  destruct (key v) as [k|] eqn:Ek; cbn [option_list].
  - destruct (decide (Some k ∈ key <$> values)) as [Hin|Hnin].
    + rewrite bool_decide_eq_true_2 by done. cbn [length].
      assert (Hk : k ∈ (list_to_set (omap key values) : gset string)).
      { apply elem_of_list_to_set, list_elem_of_omap.
        apply list_elem_of_fmap in Hin as (w & Hw & Hin). by exists w. }
      replace (list_to_set (omap key values) ∪ list_to_set [k])
        with (list_to_set (omap key values) : gset string) by set_solver.
      lia.
    + rewrite bool_decide_eq_false_2 by done. cbn [length].
      assert (Hk : k ∉ (list_to_set (omap key values) : gset string)).
      { intros Hk. apply Hnin.
        apply elem_of_list_to_set, list_elem_of_omap in Hk as (w & Hin & Hw).
        apply list_elem_of_fmap. by exists w. }
      rewrite size_union by set_solver.
      cbn [list_to_set foldr]. rewrite union_empty_r_L, size_singleton. lia.
  - cbn [length list_to_set foldr]. rewrite union_empty_r_L. lia.
Qed.

Lemma repeatedRows_nil_NoDup (key : option JS.value → option string)
    (values : list (option JS.value)) :
  repeatedRows key values = [] ↔ NoDup (omap key values).
Proof.
  induction values as [|v values IH] using rev_ind.
  { split; [constructor|done]. }
  rewrite repeatedRows_snoc, repeatsEarlier_last, omap_app.
  cbn [omap list_omap].
  assert (Hmem : ∀ k, Some k ∈ key <$> values ↔ k ∈ omap key values).
  { intros k. rewrite list_elem_of_omap, list_elem_of_fmap. naive_solver. }
  destruct (key v) as [k|] eqn:Ek; cbn [option_list].
  - rewrite NoDup_app. 
    destruct (decide (Some k ∈ key <$> values)) as [Hin|Hnin].
    + rewrite bool_decide_eq_true_2 by done. split.
      * intros H. by apply app_eq_nil in H as [_ H].
      * intros (_ & Hdis & _). exfalso. eapply Hdis; [by apply Hmem|].
        by left.
    + rewrite bool_decide_eq_false_2 by done. rewrite app_nil_r, IH. split.
      * intros Hnd. split; [done|]. split.
        -- intros x Hx Hx'. apply list_elem_of_singleton in Hx' as ->.
           by apply Hnin, Hmem.
        -- apply NoDup_singleton.
      * by intros (Hnd & _).
  - by rewrite !app_nil_r.
Qed.

Lemma duplicates_row_numbers (values : list (option JS.value)) (fieldName : string) :
  row <$> duplicates values fieldName = repeatedRows lowerKey values.
Proof.
  destruct (loopState_inv fieldName values) as (_ & Hrows & _).
  unfold duplicates. by fold (loopState fieldName values).
Qed.

Lemma duplicates_nil_NoDup (values : list (option JS.value))
    (fieldName : string) :
  duplicates values fieldName = [] ↔ NoDup (countedKeys values).
Proof.
  unfold countedKeys.
  rewrite <- repeatedRows_nil_NoDup, <- (duplicates_row_numbers values fieldName).
  split.
  - by intros ->.
  - apply fmap_nil_inv.
Qed.

(** X1. The duplicate check reports as many rows as there are counted
    values beyond the distinct keys; it reports nothing exactly when the
    keys of the counted values are pairwise distinct.  The counted values
    are those that are not blank (not falsy, and their text not made of
    white space only); the key of a value is its text in lower case. *)
Theorem duplicates_count (values : list (option JS.value))
    (fieldName : string) :
  length (duplicates values fieldName)
  + size (list_to_set (countedKeys values) : gset string)
  = length (countedKeys values)
  ∧ (duplicates values fieldName = [] ↔ NoDup (countedKeys values)).
Proof.
  split; [|apply duplicates_nil_NoDup].
  rewrite <- (length_fmap row), duplicates_row_numbers. apply repeatedRows_count.
Qed.

(** ** The three reports, row by row *)

Lemma foldl_rows (step : list ValidationError → nat * Validators.Row → list ValidationError)
    (f : nat → Validators.Row → list ValidationError) (data : list Validators.Row) :
  (∀ acc i r, step acc (i, r) = acc ++ f i r) →
  foldl step [] (imap pair data) = concat (imap f data).
Proof.
  intros Hstep. induction data as [|r data IH] using rev_ind; [done|].
  rewrite !imap_app, foldl_app, concat_app, IH.
  cbn [imap foldl concat compose]. by rewrite Hstep, app_nil_r.
Qed.

Lemma guarded_dataType (DateParse : string → JS.number)
    (acc : list ValidationError) (value : option JS.value) (f : string)
    (i : nat) :
  (if JS.ToBoolean value
   then push acc (dataType DateParse value "number" f i) else acc)
  = acc ++ option_list (dataType DateParse value "number" f i).
Proof.
  rewrite push_app, dataType_number.
  destruct (JS.ToBoolean value); [done|]. by rewrite app_nil_r.
Qed.

Lemma workerRow_issues (DateParse : string → JS.number)
    (acc : list ValidationError) (i : nat) (r : Validators.Row) :
  workerRow DateParse acc (i, r) = acc ++ workerIssues DateParse i r.
Proof.
  unfold workerRow, workerIssues. cbn [foldl].
  rewrite !guarded_dataType, !push_app.
  destruct (JS.ToBoolean (r !! "QualificationLevel"));
    rewrite ?push_app, <- ?app_assoc; [done|].
  by rewrite !app_nil_r.
Qed.

Lemma taskRow_issues (DateParse : string → JS.number)
    (acc : list ValidationError) (i : nat) (r : Validators.Row) :
  taskRow DateParse acc (i, r) = acc ++ taskIssues DateParse i r.
Proof.
  unfold taskRow, taskIssues. cbn [foldl].
  rewrite !guarded_dataType, !push_app. by rewrite <- !app_assoc.
Qed.

Lemma workerIssues_row (DateParse : string → JS.number) (i : nat) (r : Validators.Row) :
  Forall (fun e => row e = i) (workerIssues DateParse i r).
Proof.
  unfold workerIssues.
  rewrite !required_cases, !dataType_number, range_cases.
  repeat (apply Forall_app; split);
    repeat match goal with
           | |- context [if ?b then _ else _] => destruct b
           end; by repeat constructor.
Qed.

Lemma taskIssues_row (DateParse : string → JS.number) (i : nat) (r : Validators.Row) :
  Forall (fun e => row e = i) (taskIssues DateParse i r).
Proof.
  unfold taskIssues.
  rewrite !required_cases, !dataType_number.
  repeat (apply Forall_app; split);
    repeat match goal with
           | |- context [if ?b then _ else _] => destruct b
           end; by repeat constructor.
Qed.

(** The issues of the duplicate check: errors about the identifier, at
    rows of the table. *)
Lemma duplicates_issues (values : list (option JS.value)) (fieldName : string) :
  Forall (fun e => severity e = error_ ∧ column e = fieldName
                   ∧ row e < length values)
         (duplicates values fieldName).
Proof.
  destruct (loopState_inv fieldName values) as (_ & Hrows & Hok).
  unfold duplicates. fold (loopState fieldName values).
  apply Forall_forall. intros e He.
  rewrite Forall_forall in Hok. destruct (Hok e He) as [Hs Hc].
  split; [done|]. split; [done|].
  assert (Hin : row e ∈ repeatedRows lowerKey values).
  { rewrite <- Hrows. by apply list_elem_of_fmap_2. }
  apply list_elem_of_filter in Hin as [_ Hin].
  apply elem_of_seq in Hin. lia.
Qed.

Lemma concat_imap_rows (f : nat → Validators.Row → list ValidationError)
    (data : list Validators.Row) :
  (∀ k x, Forall (fun e => row e = k) (f k x)) →
  Forall (fun e => row e < length data) (concat (imap f data)).
Proof.
  intros Hrow. induction data as [|x data IH] using rev_ind; [done|].
  rewrite imap_app, concat_app, length_app. cbn [imap concat compose length].
  rewrite app_nil_r, Nat.add_0_r. apply Forall_app. split.
  - eapply Forall_impl; [exact IH|]. cbn. lia.
  - eapply Forall_impl; [apply Hrow|]. cbn. lia.
Qed.

Lemma filter_concat_imap_nil (P : ValidationError → Prop)
    `{!∀ e, Decision (P e)} (f : nat → Validators.Row → list ValidationError)
    (clean : Validators.Row → bool) (data : list Validators.Row) :
  (∀ i r, filter P (f i r) = [] ↔ clean r = true) →
  filter P (concat (imap f data)) = [] ↔ Forall (fun r => clean r = true) data.
Proof.
  intros Hclean. induction data as [|x data IH] using rev_ind; [done|].
  rewrite imap_app, concat_app, filter_app, Forall_app, Forall_singleton.
  cbn [imap concat compose]. rewrite app_nil_r, <- IH, <- Hclean. split.
  - intros Hnil. by apply app_eq_nil in Hnil.
  - intros [-> ->]. done.
Qed.

(** A report is valid when the checklists find no error and the duplicate
    check finds nothing. *)
Lemma report_valid_iff (data : list Validators.Row) (f : nat → Validators.Row → list ValidationError)
    (clean : Validators.Row → bool) (dups : list ValidationError) :
  (∀ i r, filter (fun e => severity e = error_) (f i r) = []
          ↔ clean r = true) →
  Forall (fun e => severity e = error_) dups →
  isValid (report data (concat (imap f data) ++ dups)) = true
  ↔ Forall (fun r => clean r = true) data ∧ dups = [].
Proof.
  intros Hclean Hdups. cbn [isValid report].
  rewrite Nat.eqb_eq, length_zero_iff_nil, filter_app.
  rewrite (filter_all _ dups) by done.
  rewrite <- (filter_concat_imap_nil _ f clean data Hclean). split.
  - intros H. by apply app_eq_nil in H.
  - intros [-> ->]. done.
Qed.

Lemma clientIssues_clean (DateParse : string → JS.number) (i : nat)
    (r : Validators.Row) :
  filter (fun e => severity e = error_) (clientIssues DateParse i r) = []
  ↔ cleanClient r = true.
Proof.
  unfold clientIssues, cleanClient.
  rewrite !required_cases, dataType_number, range_cases.
  destruct (blank (r !! "PriorityLevel")) eqn:Hb.
  - rewrite (blank_has_type _ Hb).
    destruct (blank (r !! "ClientID")), (blank (r !! "ClientName")),
      (outside (r !! "PriorityLevel") 1 10); by vm_compute.
  - rewrite (not_blank_truthy _ Hb). cbn [andb].
    destruct (blank (r !! "ClientID")), (blank (r !! "ClientName")),
      (JS.isNaN (JS.ToNumber (r !! "PriorityLevel"))),
      (outside (r !! "PriorityLevel") 1 10); by vm_compute.
Qed.

Lemma workerIssues_clean (DateParse : string → JS.number) (i : nat) (r : Validators.Row) :
  filter (fun e => severity e = error_) (workerIssues DateParse i r) = []
  ↔ cleanWorker r = true.
Proof.
  unfold workerIssues, cleanWorker, numericOrEmpty.
  rewrite !required_cases, !dataType_number, range_cases.
  destruct (blank (r !! "WorkerID")), (blank (r !! "WorkerName")),
    (blank (r !! "Skills")),
    (JS.ToBoolean (r !! "AvailableSlots")
     && JS.isNaN (JS.ToNumber (r !! "AvailableSlots"))),
    (JS.ToBoolean (r !! "MaxLoadPerPhase")
     && JS.isNaN (JS.ToNumber (r !! "MaxLoadPerPhase")));
    destruct (JS.ToBoolean (r !! "QualificationLevel")),
      (JS.isNaN (JS.ToNumber (r !! "QualificationLevel"))),
      (outside (r !! "QualificationLevel") 1 10); by vm_compute.
Qed.

Lemma taskIssues_clean (DateParse : string → JS.number) (i : nat) (r : Validators.Row) :
  filter (fun e => severity e = error_) (taskIssues DateParse i r) = []
  ↔ cleanTask r = true.
Proof.
  unfold taskIssues, cleanTask, numericOrEmpty.
  rewrite !required_cases, !dataType_number.
  destruct (blank (r !! "TaskID")), (blank (r !! "TaskName")),
    (blank (r !! "Category")),
    (JS.ToBoolean (r !! "Duration") && JS.isNaN (JS.ToNumber (r !! "Duration"))),
    (JS.ToBoolean (r !! "MaxConcurrent")
     && JS.isNaN (JS.ToNumber (r !! "MaxConcurrent"))); by vm_compute.
Qed.

Lemma validateClientData_issues (DateParse : string → JS.number)
    (data : list Validators.Row) :
  validateClientData DateParse data
  = report data (concat (imap (clientIssues DateParse) data)
                 ++ duplicates (identifiers "ClientID" data) "ClientID").
Proof.
  unfold validateClientData.
  by rewrite (foldl_rows _ _ data (clientRow_issues DateParse)).
Qed.

Lemma validateWorkerData_issues (DateParse : string → JS.number)
    (data : list Validators.Row) :
  validateWorkerData DateParse data
  = report data (concat (imap (workerIssues DateParse) data)
                 ++ duplicates (identifiers "WorkerID" data) "WorkerID").
Proof.
  unfold validateWorkerData.
  by rewrite (foldl_rows _ _ data (workerRow_issues DateParse)).
Qed.

Lemma validateTaskData_issues (DateParse : string → JS.number)
    (data : list Validators.Row) :
  validateTaskData DateParse data
  = report data (concat (imap (taskIssues DateParse) data)
                 ++ duplicates (identifiers "TaskID" data) "TaskID").
Proof.
  unfold validateTaskData.
  by rewrite (foldl_rows _ _ data (taskRow_issues DateParse)).
Qed.

Lemma duplicates_errors (values : list (option JS.value)) (fieldName : string) :
  Forall (fun e => severity e = error_) (duplicates values fieldName).
Proof.
  eapply Forall_impl; [apply duplicates_issues|]. by intros e [? _].
Qed.

(** X2. Client data is valid exactly when every row has a client
    identifier, a name and a priority level that are not blank (not falsy,
    and their text not made of white space only), the priority level reads
    as a number, and the identifiers are pairwise distinct once in lower
    case. *)
Theorem client_data_valid_iff (DateParse : string → JS.number)
    (data : list Validators.Row) :
  isValid (validateClientData DateParse data) = true
  ↔ Forall (fun r => cleanClient r = true) data
    ∧ NoDup (countedKeys (identifiers "ClientID" data)).
Proof.
  rewrite validateClientData_issues.
  rewrite (report_valid_iff data _ cleanClient)
    by (try apply clientIssues_clean; apply duplicates_errors).
  by rewrite duplicates_nil_NoDup.
Qed.

(** X3. Worker data is valid exactly when every row has an identifier, a
    name and skills that are not blank, its available slots, maximal load
    and qualification level are falsy or read as numbers, and the
    identifiers are pairwise distinct once in lower case. *)
Theorem worker_data_valid_iff (DateParse : string → JS.number)
    (data : list Validators.Row) :
  isValid (validateWorkerData DateParse data) = true
  ↔ Forall (fun r => cleanWorker r = true) data
    ∧ NoDup (countedKeys (identifiers "WorkerID" data)).
Proof.
  rewrite validateWorkerData_issues.
  rewrite (report_valid_iff data _ cleanWorker)
    by (try apply workerIssues_clean; apply duplicates_errors).
  by rewrite duplicates_nil_NoDup.
Qed.

Lemma taskIssues_errors (DateParse : string → JS.number) (i : nat) (r : Validators.Row) :
  Forall (fun e => severity e = error_) (taskIssues DateParse i r).
Proof.
  unfold taskIssues.
  rewrite !required_cases, !dataType_number.
  repeat (apply Forall_app; split);
    repeat match goal with
           | |- context [if ?b then _ else _] => destruct b
           end; by repeat constructor.
Qed.

Lemma filter_warning_errors (issues : list ValidationError) :
  Forall (fun e => severity e = error_) issues →
  filter (fun e => severity e = warning_) issues = [].
Proof.
  intros H. apply filter_none. eapply Forall_impl; [exact H|].
  cbn. by intros e ->.
Qed.

(** X4. Task data is valid exactly when every row has an identifier, a
    name and a category that are not blank, its duration and its maximal
    concurrency are falsy or read as numbers, and the identifiers are
    pairwise distinct once in lower case; and the report on tasks never
    holds a warning. *)
Theorem task_data_valid_iff (DateParse : string → JS.number)
    (data : list Validators.Row) :
  (isValid (validateTaskData DateParse data) = true
   ↔ Forall (fun r => cleanTask r = true) data
     ∧ NoDup (countedKeys (identifiers "TaskID" data)))
  ∧ warnings (validateTaskData DateParse data) = []
  ∧ warningCount (summary (validateTaskData DateParse data)) = 0.
Proof.
  rewrite validateTaskData_issues. split.
  - rewrite (report_valid_iff data _ cleanTask)
      by (try apply taskIssues_clean; apply duplicates_errors).
    by rewrite duplicates_nil_NoDup.
  - cbn [warnings report summary warningCount].
    rewrite filter_warning_errors; [done|].
    apply Forall_app. split; [|apply duplicates_errors].
    apply Forall_concat, Forall_forall. intros l Hl.
    apply elem_of_lookup_imap in Hl as (i & r & -> & _).
    apply taskIssues_errors.
Qed.

Lemma report_rows (data : list Validators.Row) (f : nat → Validators.Row → list ValidationError)
    (field : string) :
  (∀ k x, Forall (fun e => row e = k) (f k x)) →
  let result :=
    report data (concat (imap f data)
                 ++ duplicates (identifiers field data) field) in
  Forall (fun e => row e < length data) (errors result ++ warnings result).
Proof.
  intros Hrow result.
  assert (Hall : Forall (fun e => row e < length data)
                   (concat (imap f data)
                    ++ duplicates (identifiers field data) field)).
  { apply Forall_app. split; [by apply concat_imap_rows|].
    eapply Forall_impl; [apply duplicates_issues|].
    intros e (_ & _ & He). unfold identifiers in He.
    by rewrite length_map in He. }
  subst result. cbn [errors warnings report].
  apply Forall_app. split; apply Forall_forall; intros e He;
    apply list_elem_of_filter in He as [_ He];
    by apply (proj1 (Forall_forall _ _) Hall).
Qed.

(** X5. Every issue the three reports hold, error or warning, is at a
    row of the table that was checked. *)
Theorem issues_at_rows_of_the_table (DateParse : string → JS.number)
    (data : list Validators.Row) :
  Forall (fun e => row e < length data)
    (errors (validateClientData DateParse data)
     ++ warnings (validateClientData DateParse data))
  ∧ Forall (fun e => row e < length data)
      (errors (validateWorkerData DateParse data)
       ++ warnings (validateWorkerData DateParse data))
  ∧ Forall (fun e => row e < length data)
      (errors (validateTaskData DateParse data)
       ++ warnings (validateTaskData DateParse data)).
Proof.
  rewrite validateClientData_issues, validateWorkerData_issues,
    validateTaskData_issues.
  split; [|split]; apply report_rows.
  - apply clientIssues_row.
  - apply workerIssues_row.
  - apply taskIssues_row.
Qed.

(** X6. The report on workers warns about a row exactly when its
    qualification level is truthy (not undefined, null, false, zero, NaN or
    the empty string) and reads as a number outside of 1 to 10, and then
    once; a falsy qualification level brings no warning. *)
Theorem worker_range_guard (DateParse : string → JS.number)
    (data : list Validators.Row) (i : nat) (r : Validators.Row) :
  data !! i = Some r →
  aboutRow i (warnings (validateWorkerData DateParse data))
  = if JS.ToBoolean (r !! "QualificationLevel")
       && outside (r !! "QualificationLevel") 1 10
    then [rangeIssue "QualificationLevel" 1 10 i] else [].
Proof.
  intros Hr. rewrite validateWorkerData_issues.
  cbn [warnings report].
  rewrite aboutRow_warnings, aboutRow_app, filter_app.
  rewrite (aboutRow_concat_imap _ _ _ (workerIssues_row DateParse)).
  rewrite Hr. cbn [fmap option_fmap option_map default].
  rewrite (filter_warning_errors (aboutRow i _)), app_nil_r.
  2:{ apply Forall_forall. intros e He.
      apply list_elem_of_filter in He as [_ He].
      revert e He. apply Forall_forall, duplicates_errors. }
  unfold workerIssues.
  rewrite !required_cases, !dataType_number, range_cases.
  destruct (blank (r !! "WorkerID")), (blank (r !! "WorkerName")),
    (blank (r !! "Skills")),
    (JS.ToBoolean (r !! "AvailableSlots")
     && JS.isNaN (JS.ToNumber (r !! "AvailableSlots"))),
    (JS.ToBoolean (r !! "MaxLoadPerPhase")
     && JS.isNaN (JS.ToNumber (r !! "MaxLoadPerPhase")));
    destruct (JS.ToBoolean (r !! "QualificationLevel")),
      (JS.isNaN (JS.ToNumber (r !! "QualificationLevel"))),
      (outside (r !! "QualificationLevel") 1 10); reflexivity.
Qed.

Lemma worker_range_guard_witness :
  let over : Validators.Row :=
    {[ "WorkerID" := JS.Str "W1";
       "QualificationLevel" := JS.Str (String "160" "11") ]} in
  let none : Validators.Row := {[ "WorkerID" := JS.Str "W2" ]} in
  let zero : Validators.Row :=
    {[ "WorkerID" := JS.Str "W3";
       "QualificationLevel" := JS.Num (JS.ofNat 0) ]} in
  let eleven : Validators.Row :=
    {[ "WorkerID" := JS.Str "W4";
       "QualificationLevel" := JS.Num (JS.ofNat 11) ]} in
  let empty : Validators.Row :=
    {[ "WorkerID" := JS.Str "W5"; "QualificationLevel" := JS.Arr [] ]} in
  let data := [over; none; zero; eleven; empty] in
  let res := validateWorkerData (fun _ => JS.NaN) data in
  aboutRow 0 (warnings res) = [rangeIssue "QualificationLevel" 1 10 0]
  ∧ aboutRow 1 (warnings res) = []
  ∧ aboutRow 2 (warnings res) = []
  ∧ aboutRow 3 (warnings res) = [rangeIssue "QualificationLevel" 1 10 3]
  ∧ aboutRow 4 (warnings res) = [rangeIssue "QualificationLevel" 1 10 4].
Proof.
  intros over none zero eleven empty data res.
  split; [|split; [|split; [|split]]].
  - exact (worker_range_guard (fun _ => JS.NaN) data 0 over eq_refl).
  - exact (worker_range_guard (fun _ => JS.NaN) data 1 none eq_refl).
  - exact (worker_range_guard (fun _ => JS.NaN) data 2 zero eq_refl).
  - exact (worker_range_guard (fun _ => JS.NaN) data 3 eleven eq_refl).
  - exact (worker_range_guard (fun _ => JS.NaN) data 4 empty eq_refl).
Defined.

(** ** Substrings *)

Lemma prefix_app (sub b : string) : String.prefix sub (sub +:+ b) = true.
Proof.
  induction sub as [|c sub IH]; [by destruct b|].
  change (String c sub +:+ b) with (String c (sub +:+ b)).
  cbn [String.prefix]. by destruct (ascii_dec c c).
Qed.

Lemma prefix_app_l (sub s b : string) :
  String.prefix sub s = true → String.prefix sub (s +:+ b) = true.
Proof.
  revert s. induction sub as [|c sub IH]; intros s; [by destruct s, b|].
  destruct s as [|c' s]; [done|].
  change (String c' s +:+ b) with (String c' (s +:+ b)).
  cbn [String.prefix]. destruct (ascii_dec c c'); [apply IH|done].
Qed.

Lemma includes_unfold (s sub : string) :
  JS.includes s sub =
  String.prefix sub s ||
  match s with
  | String _ s' => JS.includes s' sub
  | EmptyString => false
  end.
Proof. by destruct s. Qed.

Lemma includes_app_r (a s sub : string) :
  JS.includes s sub = true → JS.includes (a +:+ s) sub = true.
Proof.
  intros H. induction a as [|c a IH]; [done|].
  change (String c a +:+ s) with (String c (a +:+ s)).
  rewrite includes_unfold, IH. apply orb_true_r.
Qed.

Lemma includes_app_l (s b sub : string) :
  JS.includes s sub = true → JS.includes (s +:+ b) sub = true.
Proof.
  induction s as [|c s IH]; rewrite includes_unfold.
  - rewrite orb_false_r. intros H. destruct sub; [|done]. by destruct b.
  - intros [H|H]%orb_true_iff.
    + rewrite includes_unfold. by rewrite (prefix_app_l _ _ b H).
    + change (String c s +:+ b) with (String c (s +:+ b)).
      rewrite includes_unfold, (IH H). apply orb_true_r.
Qed.

Lemma includes_middle (a sub b : string) :
  JS.includes (a +:+ sub +:+ b) sub = true.
Proof.
  apply includes_app_r. rewrite includes_unfold, prefix_app. done.
Qed.

(** ** Quick fixes *)






(** What holds of every issue of the duplicate check holds of its
    result. *)
Lemma duplicates_forall (P : ValidationError → Prop)
    (values : list (option JS.value)) (fieldName : string) :
  (∀ i s, P (duplicateIssue fieldName i s)) →
  Forall P (duplicates values fieldName).
Proof.
  intros HP. unfold duplicates.
  assert (Hgen : ∀ l st, Forall P st.1 →
                         Forall P (foldl (duplicates_step fieldName) st l).1).
  { induction l as [|[i v] l IH]; intros [errors seen] Hst; [done|].
    cbn [foldl]. apply IH. unfold duplicates_step.
    destruct v as [s|]; [|done].
    destruct (_ && _); [|done].
    destruct (bool_decide _); [|done].
    cbn [fst] in *. apply Forall_app. split; [done|].
    apply Forall_singleton, HP. }
  by apply Hgen.
Qed.

Lemma Forall_concat_imap {A B} (P : B → Prop) (f : nat → A → list B)
    (l : list A) :
  (∀ i x, Forall P (f i x)) → Forall P (concat (imap f l)).
Proof.
  intros H. apply Forall_concat, Forall_forall. intros l' Hl.
  apply elem_of_lookup_imap in Hl as (i & x & -> & _). apply H.
Qed.







(** ** Rounding above the unit interval *)

Section Barrier.
Local Open Scope Z_scope.

Lemma binade_le_log2 (a d : Z) : JS.binade a d ≤ Z.log2 a - Z.log2 d.
Proof.
  unfold JS.binade.
  destruct (0 <=? Z.log2 a - Z.log2 d); [destruct (a <? _)|destruct (_ <? d)];
    lia.
Qed.

(** Rounding does not cross a number with [k] binary digits after the
    point, for a ratio whose exponent leaves that many digits to the
    mantissa. *)
Lemma binary64_between (q : Q) (k lo hi : Z) :
  0 < Qnum q → 0 ≤ k ≤ 52 →
  Z.log2 (Qnum q) - Z.log2 (Zpos (Qden q)) ≤ 52 - k →
  lo * Zpos (Qden q) ≤ Qnum q * 2 ^ k →
  Qnum q * 2 ^ k ≤ hi * Zpos (Qden q) →
  ∃ r, JS.binary64 q = JS.Fin r
       ∧ (lo # Z.to_pos (2 ^ k) <= r)%Q ∧ (r <= hi # Z.to_pos (2 ^ k))%Q.
Proof.
  intros Ha Hk Hlog Hlo Hhi.
  pose proof (binade_le_log2 (Qnum q) (Zpos (Qden q))) as Hb.
  unfold JS.binary64. cbv zeta.
  rewrite (proj2 (Z.eqb_neq (Qnum q) 0)) by lia.
  rewrite Z.abs_eq by lia.
  set (e := Z.max (JS.binade (Qnum q) (Zpos (Qden q))) (-1022)).
  assert (He : -1022 ≤ e ≤ 52 - k) by (subst e; lia).
  rewrite (proj2 (Z.leb_le 0 (52 - e))) by lia.
  rewrite (proj2 (Z.ltb_ge 1023 e)) by lia.
  rewrite (proj2 (Z.eqb_neq e 1023)) by lia.
  rewrite (proj2 (Z.ltb_ge (Qnum q) 0)) by lia.
  cbn [orb andb]. eexists. split; [done|].
  set (sh := 52 - e). set (a := Qnum q) in *. set (d := Zpos (Qden q)) in *.
  assert (Hsplit : 2 ^ sh = 2 ^ (sh - k) * 2 ^ k).
  { rewrite <- Z.pow_add_r by lia. f_equal. lia. }
  assert (Hp1 : 0 < 2 ^ (sh - k)) by (apply Z.pow_pos_nonneg; lia).
  assert (Hp2 : 0 < 2 ^ k) by (apply Z.pow_pos_nonneg; lia).
  assert (Hp3 : 0 < 2 ^ sh) by (apply Z.pow_pos_nonneg; lia).
  assert (Hd : 0 < d) by (subst d; lia).
  set (m := JS.roundHalfEven (a * 2 ^ sh) d).
  assert (Hm1 : lo * 2 ^ (sh - k) ≤ m).
  { apply roundHalfEven_ge; [done|]. rewrite Hsplit. nia. }
  assert (Hm2 : m ≤ hi * 2 ^ (sh - k)).
  { apply roundHalfEven_le; [done|]. rewrite Hsplit. nia. }
  rewrite Qred_correct. unfold Qle. cbn [Qnum Qden].
  rewrite !Z2Pos.id by lia. rewrite Hsplit. nia.
Qed.

(** The literal 0.1 of [generateRecommendations]. *)
Lemma one_tenth :
  JS.binary64 (1 # 10) = JS.Fin (3602879701896397 # 36028797018963968).
Proof. by vm_compute. Qed.

(** A number of errors against a tenth of a number of rows. *)
Lemma over_a_tenth (e n : nat) :
  Z.of_nat n < 2 ^ 32 →
  JS.gt (JS.ofNat e) (JS.mul (JS.ofNat n) (JS.binary64 (1 # 10))) = true
  ↔ (n < 10 * e)%nat.
Proof.
  intros Hn. rewrite one_tenth. unfold JS.mul, JS.ofNat, JS.ofZ, JS.gt.
  destruct (decide (n = 0%nat)) as [->|Hpos].
  { rewrite binary64_zero by done. rewrite lt_Fin.
    unfold Qlt. cbn. lia. }
  set (q := (inject_Z (Z.of_nat n)
             * (3602879701896397 # 36028797018963968))%Q).
  assert (Hnum : Qnum q = Z.of_nat n * 3602879701896397) by done.
  assert (Hden : Zpos (Qden q) = 36028797018963968) by done.
  assert (Hlog : Z.log2 (Qnum q) - Z.log2 (Zpos (Qden q)) ≤ 52 - 4).
  { rewrite Hden, Hnum. change (Z.log2 36028797018963968) with 55.
    assert (Z.log2 (Z.of_nat n * 3602879701896397) < 84); [|lia].
    apply Z.log2_lt_pow2; lia. }
  destruct (decide (n < 10 * e)%nat) as [Hlt|Hge].
  - destruct (binary64_between q 4 0 (16 * Z.of_nat e - 1))
      as (r & -> & _ & Hr); [lia..|].
    rewrite lt_Fin. split; [done|]. intros _.
    eapply Qle_lt_trans; [exact Hr|]. unfold Qlt. cbn. lia.
  - destruct (binary64_between q 4 (16 * Z.of_nat e) (16 * Z.of_nat n))
      as (r & -> & Hr & _); [lia..|].
    rewrite lt_Fin. split; [|done]. intros Hlt. exfalso.
    apply (Qlt_not_le _ _ Hlt).
    eapply Qle_trans; [|exact Hr]. unfold Qle. cbn. lia.
Qed.

(** A tenth of a number of rows is not below zero. *)
Lemma tenth_not_negative (n : nat) :
  JS.gt (JS.ofNat 0) (JS.mul (JS.ofNat n) (JS.binary64 (1 # 10))) = false.
Proof.
  rewrite one_tenth. unfold JS.mul, JS.ofNat, JS.ofZ, JS.gt.
  set (q := (inject_Z (Z.of_nat n)
             * (3602879701896397 # 36028797018963968))%Q).
  assert (Hnum : Qnum q = Z.of_nat n * 3602879701896397) by done.
  destruct (decide (n = 0%nat)) as [->|Hpos]; [done|].
  unfold JS.binary64. cbv zeta.
  rewrite (proj2 (Z.eqb_neq (Qnum q) 0)) by lia.
  rewrite (proj2 (Z.ltb_ge (Qnum q) 0)) by lia.
  rewrite Z.abs_eq by lia.
  destruct (_ || _); [done|].
  set (e := Z.max _ _). set (d := Zpos (Qden q)).
  rewrite lt_Fin_false, Qred_correct.
  change (inject_Z (Z.of_nat 0)) with 0%Q.
  destruct (Z.leb_spec 0 (52 - e)) as [Hsh|Hsh].
  - assert (Hp : 0 < 2 ^ (52 - e)) by (apply Z.pow_pos_nonneg; lia).
    assert (0 ≤ JS.roundHalfEven (Qnum q * 2 ^ (52 - e)) d).
    { apply roundHalfEven_ge; [done|]. nia. }
    unfold Qle. cbn [Qnum Qden]. lia.
  - assert (Hp : 0 < 2 ^ (- (52 - e))) by (apply Z.pow_pos_nonneg; lia).
    assert (0 ≤ JS.roundHalfEven (Qnum q) (d * 2 ^ (- (52 - e)))).
    { apply roundHalfEven_ge; [subst d; nia|]. lia. }
    unfold Qle. cbn [Qnum Qden inject_Z]. nia.
Qed.
End Barrier.

(** ** Recommendations *)

Lemma elem_of_pushIf (x text : string) (condition : bool)
    (recommendations : list string) :
  x ∈ ValidateRoute.pushIf condition text recommendations
  ↔ x ∈ recommendations ∨ (condition = true ∧ x = text).
Proof.
  unfold ValidateRoute.pushIf. destruct condition.
  - rewrite elem_of_app, list_elem_of_singleton. naive_solver.
  - naive_solver.
Qed.

(** X8. The recommendation to review the quality of the data is given
    exactly when the errors are more than a tenth of the rows, for a
    table of fewer than 2^32 rows: the product by the literal 0.1 and its
    rounding do not move the threshold. *)
Theorem high_error_rate_threshold (vr : ValidationResult) (kind : string) :
  (Z.of_nat (totalRows (summary vr)) < 2 ^ 32)%Z →
  ValidateRoute.highErrorRate ∈ ValidateRoute.generateRecommendations vr kind
  ↔ totalRows (summary vr) < 10 * errorCount (summary vr).
Proof.
  intros Hrows. rewrite <- (over_a_tenth _ _ Hrows).
  unfold ValidateRoute.generateRecommendations. cbv zeta.
  set (high := JS.gt _ _).
  repeat match goal with
         | |- context [if ?b then _ else _] => destruct b
         end;
    rewrite ?elem_of_app, ?elem_of_pushIf, ?list_elem_of_singleton,
      ?elem_of_nil; naive_solver.
Qed.

Lemma high_error_rate_threshold_witness :
  ValidateRoute.highErrorRate
  ∈ ValidateRoute.generateRecommendations
      (validateClientData (fun _ => JS.NaN) [∅; ∅]) "client".
Proof.
  apply (high_error_rate_threshold
           (validateClientData (fun _ => JS.NaN) [∅; ∅]) "client").
  - vm_compute. done.
  - vm_compute. lia.
Defined.

Lemma someMention_nil (word : string) :
  ValidateRoute.someMention word [] = false.
Proof. done. Qed.

(** X9. For a report without error the recommendations are one
    sentence: that the data looks good when the report has no warning
    either, and to address the warnings otherwise. *)
Theorem recommendations_without_error (vr : ValidationResult)
    (kind : string) :
  errors vr = [] → errorCount (summary vr) = 0 →
  ValidateRoute.generateRecommendations vr kind
  = [if warningCount (summary vr) =? 0 then ValidateRoute.looksGood
     else ValidateRoute.onlyWarnings].
Proof.
  intros Herrors Hcount.
  unfold ValidateRoute.generateRecommendations. cbv zeta.
  rewrite Herrors, Hcount, tenth_not_negative.
  cbn [ValidateRoute.pushIf ValidateRoute.someMention List.filter length
       Nat.ltb Nat.leb ValidateRoute.someAbout existsb Nat.eqb andb].
  repeat match goal with
         | |- context [if bool_decide ?P then _ else _] =>
             destruct (bool_decide P)
         end;
    by destruct (warningCount (summary vr) =? 0).
Qed.

Lemma recommendations_without_error_witness :
  let worker : Validators.Row :=
    {[ "WorkerID" := JS.Str "W1"; "WorkerName" := JS.Str "Ada";
       "Skills" := JS.Str "python";
       "QualificationLevel" := JS.Num (JS.ofNat 11) ]} in
  ValidateRoute.generateRecommendations
    (validateWorkerData (fun _ => JS.NaN) [worker]) "worker"
  = [ValidateRoute.onlyWarnings].
Proof.
  intros worker.
  exact (recommendations_without_error
           (validateWorkerData (fun _ => JS.NaN) [worker]) "worker"
           eq_refl eq_refl).
Defined.

Lemma requiredIssue_hinted (f : string) (i : nat) :
  hinted (requiredIssue f i) = true.
Proof.
  unfold hinted. cbn [error requiredIssue].
  by rewrite (includes_app_r f " is required" "required").
Qed.

Lemma duplicateIssue_hinted (f : string) (i : nat) (s : string) :
  hinted (duplicateIssue f i s) = true.
Proof.
  unfold hinted. cbn [error duplicateIssue].
  change ("Duplicate " +:+ f +:+ ": " +:+ s)
    with ("Duplicate" +:+ (" " +:+ f +:+ ": " +:+ s)).
  rewrite (includes_unfold ("Duplicate" +:+ _) "Duplicate"), prefix_app.
  by rewrite orb_true_r.
Qed.

Lemma clientIssues_hinted (DateParse : string → JS.number) (i : nat)
    (r : Validators.Row) :
  Forall (fun e => hinted e = true) (clientIssues DateParse i r).
Proof.
  unfold clientIssues.
  rewrite !required_cases, dataType_number, range_cases.
  repeat (apply Forall_app; split);
    repeat match goal with
           | |- context [if ?b then _ else _] => destruct b
           end;
    repeat constructor; auto using requiredIssue_hinted.
Qed.

Lemma pushIf_nonempty (condition : bool) (text : string)
    (recommendations : list string) :
  recommendations ≠ [] ∨ condition = true →
  ValidateRoute.pushIf condition text recommendations ≠ [].
Proof.
  unfold ValidateRoute.pushIf. intros [H| ->].
  - destruct condition; [|done]. by intros [? _]%app_eq_nil.
  - by intros [_ ?]%app_eq_nil.
Qed.

Lemma someMention_cons (word : string) (e : ValidationError)
    (l : list ValidationError) :
  JS.includes (error e) word = true →
  ValidateRoute.someMention word (e :: l) = true.
Proof.
  intros H. unfold ValidateRoute.someMention. cbn [List.filter].
  by rewrite H.
Qed.

Lemma recommendations_hinted (vr : ValidationResult) (kind : string) :
  JS.toLowerCase kind = "client" →
  errorCount (summary vr) = length (errors vr) →
  Forall (fun e => hinted e = true) (errors vr) →
  ValidateRoute.generateRecommendations vr kind ≠ [].
Proof.
  intros Hkind Hcount Hhinted.
  unfold ValidateRoute.generateRecommendations. cbv zeta.
  rewrite Hkind, Hcount.
  rewrite (bool_decide_eq_true_2 ("client" = "client")) by done.
  destruct (errors vr) as [|e l] eqn:Herrors.
  { cbn [length Nat.eqb andb].
    destruct (warningCount (summary vr) =? 0); by intros [_ ?]%app_eq_nil. }
  apply Forall_cons in Hhinted as [He _]. unfold hinted in He.
  cbn [length Nat.eqb andb].
  apply orb_true_iff in He as [He|He];
    [apply orb_true_iff in He as [He|He]|].
  - apply pushIf_nonempty. left. apply pushIf_nonempty. left.
    apply pushIf_nonempty. right. by apply someMention_cons.
  - apply pushIf_nonempty. left. apply pushIf_nonempty. right.
    by apply someMention_cons.
  - apply pushIf_nonempty. right.
    unfold ValidateRoute.someAbout. cbn [existsb]. by rewrite He.
Qed.

(** X10. Client data is never answered without a recommendation: a report
    with an error brings the sentence on required fields, on duplicates or
    on priority levels.  Worker data can be: a number that does not read
    in one row of ten brings an error and no recommendation. *)
Theorem client_recommendations_never_empty (DateParse : string → JS.number) :
  (∀ (data : list Validators.Row) (kind : string),
     JS.toLowerCase kind = "client" →
     ValidateRoute.generateRecommendations
       (validateClientData DateParse data) kind ≠ [])
  ∧ errors (validateWorkerData DateParse tenWorkers) ≠ []
  ∧ ValidateRoute.generateRecommendations
      (validateWorkerData DateParse tenWorkers) "worker" = [].
Proof.
  split.
  - intros data kind Hkind. apply recommendations_hinted; [done|..].
    + apply report_consistent.
    + rewrite validateClientData_issues. cbn [errors report].
      apply Forall_forall. intros e He.
      apply list_elem_of_filter in He as [_ He]. revert e He.
      apply Forall_forall, Forall_app. split.
      * apply Forall_concat_imap, clientIssues_hinted.
      * apply duplicates_forall. intros. apply duplicateIssue_hinted.
  - unfold validateWorkerData, tenWorkers. split; by vm_compute.
Qed.

Lemma client_recommendations_never_empty_witness :
  ValidateRoute.generateRecommendations
    (validateClientData (fun _ => JS.NaN) [∅]) "Client" ≠ [].
Proof.
  apply (proj1 (client_recommendations_never_empty (fun _ => JS.NaN))).
  reflexivity.
Defined.

Lemma truthy_toLowerCase (s : string) :
  JS.truthy (Some (JS.toLowerCase s)) = JS.truthy (Some s).
Proof. by destruct s. Qed.

(** X11. The route reads the data type without regard to case: a body
    is answered as the same body with the data type in lower case. *)
Theorem route_reads_kind_in_lower_case (DateParse : string → JS.number)
    (data : ValidateRoute.Data) (kind : string) :
  ValidateRoute.POST DateParse data (Some kind)
  = ValidateRoute.POST DateParse data (Some (JS.toLowerCase kind)).
Proof.
  unfold ValidateRoute.POST. destruct data as [|rows]; [done|].
  rewrite truthy_toLowerCase, toLowerCase_idemp.
  assert (Hrespond : ∀ vr, ValidateRoute.respond vr kind
                           = ValidateRoute.respond vr (JS.toLowerCase kind)).
  { intros vr. unfold ValidateRoute.respond. f_equal. f_equal.
    unfold ValidateRoute.generateRecommendations.
    by rewrite toLowerCase_idemp. }
  by rewrite !Hrespond.
Qed.

(** ** Suggestions on the quality of the data *)

Lemma isMissing_blank (value : option JS.value) :
  DataQuality.isMissing value = blank value.
Proof. by destruct value. Qed.

Lemma filter_length_zero {A} (f : A → bool) (l : list A) :
  length (List.filter f l) = 0 ↔ Forall (fun x => f x = false) l.
Proof.
  induction l as [|x l IH]; [by split|].
  cbn [List.filter]. rewrite Forall_cons, <- IH.
  destruct (f x); cbn [length]; naive_solver.
Qed.

Lemma missingStep_nil (data : list DataQuality.Row)
    (suggestions : list DataQuality.AIValidationSuggestion) (field : string) :
  DataQuality.missingStep data suggestions field = []
  ↔ suggestions = []
    ∧ Forall (fun r : Validators.Row => blank (r !! field) = false) data.
Proof.
  unfold DataQuality.missingStep. cbv zeta.
  rewrite <- (Forall_iff (fun r : Validators.Row =>
                            DataQuality.isMissing (r !! field) = false))
    by (intros r; by rewrite isMissing_blank).
  rewrite <- filter_length_zero.
  destruct (length _) as [|n]; cbn [Nat.ltb Nat.leb].
  - by split; [|intros []].
  - split; [by intros [_ ?]%app_eq_nil|by intros []].
Qed.

Lemma pushWhen_nil (condition : bool) (s : DataQuality.AIValidationSuggestion)
    (suggestions : list DataQuality.AIValidationSuggestion) :
  DataQuality.pushWhen condition s suggestions = []
  ↔ suggestions = [] ∧ condition = false.
Proof.
  unfold DataQuality.pushWhen. destruct condition.
  - split; [by intros [_ ?]%app_eq_nil|by intros []].
  - by split; [|intros []].
Qed.

Lemma hasNonNumeric_false (data : list DataQuality.Row) (column : string) :
  DataQuality.hasNonNumeric data column = false
  ↔ Forall (fun r : Validators.Row => numericOrEmpty (r !! column) = true) data.
Proof.
  unfold DataQuality.hasNonNumeric, numericOrEmpty.
  induction data as [|r data IH]; [by split|].
  rewrite Forall_cons, <- IH. cbn [map List.filter].
  destruct (JS.ToBoolean (r !! column)); cbn [existsb andb negb];
    [|naive_solver].
  destruct (JS.isNaN _); cbn [orb negb]; naive_solver.
Qed.

Lemma cleanClient_parts (r : Validators.Row) :
  cleanClient r = true
  ↔ blank (r !! "ClientID") = false ∧ blank (r !! "ClientName") = false
    ∧ blank (r !! "PriorityLevel") = false
    ∧ numericOrEmpty (r !! "PriorityLevel") = true.
Proof.
  unfold cleanClient, numericOrEmpty.
  destruct (blank (r !! "PriorityLevel")) eqn:Hb.
  - cbn [negb]. rewrite andb_false_r. cbn [andb]. split; [done|].
    by intros (_ & _ & ? & _).
  - rewrite (not_blank_truthy _ Hb).
    destruct (blank (r !! "ClientID")), (blank (r !! "ClientName")),
      (JS.isNaN (JS.ToNumber (r !! "PriorityLevel"))); cbn; split;
      try done; by intros (? & ? & ? & ?).
Qed.

(** X12. For clients the suggestions on the quality of the data are empty
    exactly when every row has an identifier, a name and a priority level
    that are not blank, and the priority level reads as a number: the rows
    on which the validator finds no error.  Data the validator finds
    valid therefore gets no suggestion. *)
Theorem client_suggestions_none (DateParse : string → JS.number)
    (data : list Validators.Row) :
  (DataQuality.generateDataQualitySuggestions data "clients" = Some []
   ↔ Forall (fun r => cleanClient r = true) data)
  ∧ (isValid (validateClientData DateParse data) = true →
     DataQuality.generateDataQualitySuggestions data "clients" = Some []).
Proof.
  assert (Hiff :
    DataQuality.generateDataQualitySuggestions data "clients" = Some []
    ↔ Forall (fun r => cleanClient r = true) data).
  { change (DataQuality.generateDataQualitySuggestions data "clients")
      with (Some (DataQuality.pushWhen
                    (DataQuality.hasNonNumeric data "PriorityLevel")
                    DataQuality.priorityNotNumeric
                    (foldl (DataQuality.missingStep data) []
                       ["ClientID"; "ClientName"; "PriorityLevel"]))).
    cbn [foldl]. split.
    - intros [= H]. apply pushWhen_nil in H as [H Hnum].
      apply missingStep_nil in H as [H H3].
      apply missingStep_nil in H as [H H2].
      apply missingStep_nil in H as [_ H1].
      apply hasNonNumeric_false in Hnum.
      rewrite Forall_forall in *. intros r Hr.
      apply cleanClient_parts. auto.
    - intros H. f_equal. apply pushWhen_nil.
      rewrite hasNonNumeric_false, !missingStep_nil.
      rewrite !Forall_forall. rewrite Forall_forall in H.
      repeat split; try done; intros r Hr;
        apply H, cleanClient_parts in Hr; tauto. }
  split; [done|]. intros Hvalid. apply Hiff.
  rewrite validateClientData_issues in Hvalid.
  apply (report_valid_iff data _ cleanClient) in Hvalid; [tauto|..].
  - apply clientIssues_clean.
  - apply duplicates_errors.
Qed.

Lemma client_suggestions_none_witness :
  DataQuality.generateDataQualitySuggestions
    [ {[ "ClientID" := JS.Str "C1"; "ClientName" := JS.Str "Acme";
         "PriorityLevel" := JS.Num (JS.ofNat 3) ]} ] "clients" = Some [].
Proof.
  apply (proj2 (client_suggestions_none (fun _ => JS.NaN) _)).
  by vm_compute.
Defined.

(** X13. A table without rows gets no suggestion, and neither does a
    data type that is none of clients, workers and tasks, whatever the
    rows; unless the data type is a name every object inherits, on which
    the function raises a TypeError. *)
Theorem suggestions_of_nothing (data : list DataQuality.Row)
    (dataType : string) :
  data = [] ∨ dataType ∉ ["clients"; "workers"; "tasks"] →
  DataQuality.generateDataQualitySuggestions data dataType
  = if bool_decide (dataType ∈ DataQuality.inheritedNames) then None
    else Some [].
Proof.
  unfold DataQuality.generateDataQualitySuggestions,
    DataQuality.criticalFields.
  intros [->|Hother].
  - destruct (bool_decide (dataType = "clients")) eqn:H1.
    { apply bool_decide_eq_true in H1 as ->. reflexivity. }
    destruct (bool_decide (dataType = "workers")) eqn:H2.
    { apply bool_decide_eq_true in H2 as ->. reflexivity. }
    destruct (bool_decide (dataType = "tasks")) eqn:H3.
    { apply bool_decide_eq_true in H3 as ->. reflexivity. }
    by destruct (bool_decide (dataType ∈ DataQuality.inheritedNames)).
  - rewrite !bool_decide_eq_false_2 by set_solver.
    by destruct (bool_decide (dataType ∈ DataQuality.inheritedNames)).
Qed.

Lemma suggestions_of_nothing_witness :
  DataQuality.generateDataQualitySuggestions [] "workers" = Some []
  ∧ DataQuality.generateDataQualitySuggestions [∅] "toString" = None.
Proof.
  split.
  - apply (suggestions_of_nothing [] "workers"). by left.
  - apply (suggestions_of_nothing [∅] "toString"). right.
    apply (bool_decide_unpack _). reflexivity.
Defined.

(** ** The call to the AI route *)

Lemma app_not_empty (a b : string) : a ≠ EmptyString → a +:+ b ≠ EmptyString.
Proof. by destruct a. Qed.

Lemma fallback_not_empty (error : OpenAI.Thrown) :
  OpenAI.fallback error ≠ EmptyString.
Proof.
  destruct error as [message|]; [|done]. unfold OpenAI.fallback.
  repeat match goal with
         | |- context [if ?b then _ else _] => destruct b
         end; by apply app_not_empty.
Qed.

Lemma orElse_not_empty (field : option string) (other : string) :
  other ≠ EmptyString → OpenAI.orElse field other ≠ EmptyString.
Proof. by destruct field as [[|c s]|]. Qed.

(** X14. Whatever the network does, the answer of [callOpenAI] is a
    text that is not empty. *)
Theorem callOpenAI_answers (fetch : OpenAI.Request → OpenAI.FetchOutcome)
    (prompt : string) (clients workers tasks : list OpenAI.Row) :
  OpenAI.callOpenAI fetch prompt clients workers tasks ≠ EmptyString.
Proof.
  unfold OpenAI.callOpenAI.
  destruct (fetch _) as [error|ok status json];
    [apply fallback_not_empty|].
  destruct ok; cbn [negb].
  - destruct json as [error|message|reply];
      [apply fallback_not_empty..|].
    by apply orElse_not_empty.
  - cbv zeta. destruct json; apply fallback_not_empty.
Qed.

Lemma includes_refl (s : string) : JS.includes s s = true.
Proof.
  rewrite includes_unfold.
  replace (String.prefix s s) with true; [done|].
  induction s as [|c s IH]; [done|].
  cbn [String.prefix]. by destruct (ascii_dec c c).
Qed.

Lemma prefix_split (sub s : string) :
  String.prefix sub s = true → ∃ b, s = sub +:+ b.
Proof.
  revert s. induction sub as [|c sub IH]; intros s H; [by exists s|].
  destruct s as [|c' s]; [done|]. cbn [String.prefix] in H.
  destruct (ascii_dec c c') as [<-|]; [|done].
  destruct (IH s H) as [b ->]. by exists b.
Qed.

Lemma includes_split (s sub : string) :
  JS.includes s sub = true ↔ ∃ a b, s = a +:+ sub +:+ b.
Proof.
  split.
  - induction s as [|c s IH]; rewrite includes_unfold.
    + rewrite orb_false_r. intros [b ->]%prefix_split. by exists EmptyString, b.
    + intros [[b ->]%prefix_split|H]%orb_true_iff.
      * by exists EmptyString, b.
      * destruct (IH H) as (a & b & ->). by exists (String c a), b.
  - intros (a & b & ->). apply includes_middle.
Qed.

Lemma string_app_assoc (a b c : string) : (a +:+ b) +:+ c = a +:+ b +:+ c.
Proof.
  induction a as [|x a IH]; [done|].
  change (String x (a +:+ b +:+ c) = String x ((a +:+ b) +:+ c)) || idtac.
  change ((String x a +:+ b) +:+ c) with (String x ((a +:+ b) +:+ c)).
  change (String x a +:+ b +:+ c) with (String x (a +:+ b +:+ c)).
  by rewrite IH.
Qed.

Lemma includes_trans (s t u : string) :
  JS.includes s t = true → JS.includes t u = true → JS.includes s u = true.
Proof.
  intros (a & b & ->)%includes_split (a' & b' & ->)%includes_split.
  apply includes_split. exists (a +:+ a'), (b' +:+ b).
  by rewrite !string_app_assoc.
Qed.

Lemma fallback_quotes (message : string) :
  JS.includes (OpenAI.fallback (OpenAI.ErrorObject message)) message = true.
Proof.
  unfold OpenAI.fallback.
  repeat match goal with
         | |- context [if ?b then _ else _] => destruct b
         end;
    try (apply includes_app_r, includes_refl).
  apply includes_app_r, includes_app_l, includes_refl.
Qed.

(** X15. The answer to a request the route refuses quotes what the
    route said: its response, or else its details; when the reply holds
    neither, or cannot be read, the status of the reply; and when the
    body of the reply is null, the message of the TypeError that reading
    its fields raises. *)
Theorem refused_request_quoted (fetch : OpenAI.Request → OpenAI.FetchOutcome)
    (prompt : string) (clients workers tasks : list OpenAI.Row)
    (status : nat) (json : OpenAI.JsonOutcome) :
  fetch {| OpenAI.prompt := prompt; OpenAI.clients := clients;
           OpenAI.workers := workers; OpenAI.tasks := tasks |}
  = OpenAI.Responds false status json →
  JS.includes (OpenAI.callOpenAI fetch prompt clients workers tasks)
    (if silent json then pretty status else spoken json) = true.
Proof.
  intros Hfetch. unfold OpenAI.callOpenAI. rewrite Hfetch. cbn [negb].
  cbv zeta.
  destruct json as [error|message|[response details]]; cbn [silent spoken].
  - cbn [OpenAI.response OpenAI.details OpenAI.orElse].
    eapply includes_trans; [apply fallback_quotes|].
    apply includes_app_r, includes_refl.
  - apply fallback_quotes.
  - cbn [OpenAI.response OpenAI.details].
    destruct response as [[|c s]|], details as [[|c' s']|];
      cbn [JS.truthy negb andb OpenAI.orElse default];
      try apply fallback_quotes;
      (eapply includes_trans; [apply fallback_quotes|]);
      apply includes_app_r, includes_refl.
Qed.

Lemma refused_request_quoted_witness :
  JS.includes
    (OpenAI.callOpenAI
       (fun _ => OpenAI.Responds false 503 (OpenAI.JsonFails OpenAI.OtherValue))
       "balance the load" [] [] [])
    "503" = true
  ∧ JS.includes
      (OpenAI.callOpenAI
         (fun _ => OpenAI.Responds false 503
                     (OpenAI.JsonNull "Cannot read properties of null"))
         "balance the load" [] [] [])
      "Cannot read properties of null" = true.
Proof.
  split.
  - exact (refused_request_quoted
             (fun _ => OpenAI.Responds false 503
                         (OpenAI.JsonFails OpenAI.OtherValue))
             "balance the load" [] [] [] 503
             (OpenAI.JsonFails OpenAI.OtherValue) eq_refl).
  - exact (refused_request_quoted
             (fun _ => OpenAI.Responds false 503
                         (OpenAI.JsonNull "Cannot read properties of null"))
             "balance the load" [] [] [] 503
             (OpenAI.JsonNull "Cannot read properties of null") eq_refl).
Defined.

(** ** Queries *)

Lemma filter_idemp {A} (f : A → bool) (l : list A) :
  List.filter f (List.filter f l) = List.filter f l.
Proof.
  induction l as [|x l IH]; [done|]. cbn [List.filter].
  destruct (f x) eqn:Hx; [|done]. cbn [List.filter]. by rewrite Hx, IH.
Qed.

(** X16. A query is answered row by row, whatever the kind of table: the
    answer on two tables put end to end is the two answers put end to
    end, asking again on the answer changes nothing, and the case of the
    letters of the query does not matter. *)
Theorem query_row_by_row (query : string) (data more : list Row)
    (dataType : string) :
  processNaturalLanguageQuery query (data ++ more) dataType
  = processNaturalLanguageQuery query data dataType
    ++ processNaturalLanguageQuery query more dataType
  ∧ processNaturalLanguageQuery query
      (processNaturalLanguageQuery query data dataType) dataType
    = processNaturalLanguageQuery query data dataType
  ∧ processNaturalLanguageQuery (JS.toLowerCase query) data dataType
    = processNaturalLanguageQuery query data dataType.
Proof.
  unfold processNaturalLanguageQuery, textSearch. cbv zeta.
  rewrite toLowerCase_idemp.
  repeat match goal with
         | |- context [if bool_decide ?P then _ else _] =>
             destruct (bool_decide P)
         end;
    by rewrite List.filter_app, filter_idemp.
Qed.

(** X17. A query on workers with the word available or the word slots
    returns every worker whose available slots are not empty, whatever
    phase the query names. *)
Theorem available_workers_whatever_the_phase (query : string)
    (data : list Row) (worker : Row) :
  JS.includes (JS.toLowerCase query) "available" = true
  ∨ JS.includes (JS.toLowerCase query) "slots" = true →
  worker ∈ data →
  JS.truthy (worker !! "AvailableSlots") = true →
  worker ∈ processNaturalLanguageQuery query data "workers".
Proof.
  intros Hword Hin Hslots.
  change (processNaturalLanguageQuery query data "workers")
    with (List.filter (workerMatches (JS.toLowerCase query)) data).
  apply list_elem_of_In, List.filter_In. split; [by apply list_elem_of_In|].
  unfold workerMatches.
  destruct (_ && someCandidate _ _); [done|].
  replace (JS.includes (JS.toLowerCase query) "available"
           || JS.includes (JS.toLowerCase query) "slots") with true
    by (symmetry; apply orb_true_iff; tauto).
  rewrite Hslots.
  destruct (worker !! "AvailableSlots") as [[|c s]|]; try done.
  cbn [String.length Nat.ltb Nat.leb andb]. by rewrite orb_true_r.
Qed.

Lemma available_workers_whatever_the_phase_witness :
  let worker : Row := {[ "WorkerID" := "W1"; "AvailableSlots" := "[1,2]" ]} in
  worker ∈ processNaturalLanguageQuery "Available in phase 7" [worker]
             "workers".
Proof.
  intros worker.
  apply (available_workers_whatever_the_phase "Available in phase 7"
           [worker] worker).
  - left. reflexivity.
  - apply list_elem_of_singleton. reflexivity.
  - reflexivity.
Defined.

(** X18. A query on clients with the word priority and no number after
    it, and none of the words name, tasks and group, returns the clients
    whose priority level reads as 4 or more: those [suggestRules] counts
    as of high priority. *)
Theorem priority_query_default (query : string) (data : list Row) :
  JS.includes (JS.toLowerCase query) "priority" = true →
  JS.match_ priorityRe (JS.toLowerCase query) = None →
  Forall (fun w => JS.includes (JS.toLowerCase query) w = false)
         ["name"; "tasks"; "group"] →
  processNaturalLanguageQuery query data "clients"
  = List.filter highPriority data.
Proof.
  intros Hword Hmatch Hnone.
  apply Forall_cons in Hnone as [Hname Hnone].
  apply Forall_cons in Hnone as [Htasks Hnone].
  apply Forall_cons in Hnone as [Hgroup _].
  change (processNaturalLanguageQuery query data "clients")
    with (List.filter (clientMatches (JS.toLowerCase query)) data).
  apply List.filter_ext. intros r. unfold clientMatches, highPriority.
  cbv zeta. rewrite Hword, Hmatch, Hname, Htasks, Hgroup.
  rewrite orb_true_r, !orb_false_r. cbn [andb].
  assert (Hclient : JS.includes (JS.toLowerCase query) "client name" = false).
  { destruct (JS.includes _ "client name") eqn:H; [|done].
    rewrite <- Hname. symmetry.
    eapply includes_trans; [exact H|]. reflexivity. }
  assert (Hreq : JS.includes (JS.toLowerCase query) "requested tasks" = false).
  { destruct (JS.includes _ "requested tasks") eqn:H; [|done].
    rewrite <- Htasks. symmetry.
    eapply includes_trans; [exact H|]. reflexivity. }
  rewrite Hclient, Hreq. cbn [andb].
  by destruct (_ && _).
Qed.

Lemma priority_query_default_witness :
  processNaturalLanguageQuery "High priority clients" fourOfTen "clients"
  = List.filter highPriority fourOfTen.
Proof.
  apply (priority_query_default "High priority clients" fourOfTen).
  - reflexivity.
  - reflexivity.
  - repeat constructor.
Defined.

(** ** The advice of [suggestRules] *)

Lemma suggestRules_advice (clientData workerData taskData : list Row) :
  suggestRules clientData workerData taskData
  = adviceIf (priorityDue clientData) priorityAdvice
    ++ adviceIf (slotsDue workerData) slotsAdvice
    ++ adviceIf (groupsDue workerData) groupsAdvice
    ++ adviceIf (durationDue taskData) durationAdvice
    ++ adviceIf (concurrentDue taskData) concurrentAdvice.
Proof.
  unfold suggestRules, priorityDue, slotsDue, groupsDue, durationDue,
    concurrentDue, avgCapacity, slotSum, workerGroups, adviceIf.
  cbv zeta.
  fold longTask. fold concurrentTask.
  repeat match goal with
         | |- context [if ?b then _ else _] => destruct b; cbn [andb app]
         end; reflexivity.
Qed.

(** X19. The advice is put together table by table: the sentences for
    the three tables are those each table gets on its own, clients first,
    then workers, then tasks; they are taken from five sentences, in a
    fixed order and without repetition. *)
Theorem advice_table_by_table (clientData workerData taskData : list Row) :
  suggestRules clientData workerData taskData
  = suggestRules clientData [] [] ++ suggestRules [] workerData []
    ++ suggestRules [] [] taskData
  ∧ sublist (suggestRules clientData workerData taskData) allAdvice.
Proof.
  rewrite !suggestRules_advice. split.
  - change (priorityDue []) with false. change (slotsDue []) with false.
    change (groupsDue []) with false. change (durationDue []) with false.
    change (concurrentDue []) with false.
    cbn [adviceIf]. rewrite !app_nil_r. cbn [app]. by rewrite <- !app_assoc.
  - unfold allAdvice, adviceIf.
    destruct (priorityDue _), (slotsDue _), (groupsDue _), (durationDue _),
      (concurrentDue _); cbn [app];
      repeat (first [apply sublist_nil | apply sublist_skip
                    | apply sublist_cons]).
Qed.

Lemma elem_of_adviceIf (x text : string) (condition : bool) :
  x ∈ adviceIf condition text ↔ condition = true ∧ x = text.
Proof.
  unfold adviceIf. destruct condition.
  - rewrite list_elem_of_singleton. naive_solver.
  - rewrite elem_of_nil. naive_solver.
Qed.

Lemma size_over_one (X : gset string) :
  1 < size X ↔ ∃ x y, x ∈ X ∧ y ∈ X ∧ x ≠ y.
Proof.
  split.
  - intros Hsize.
    destruct (set_choose_L X) as [x Hx].
    { intros ->. rewrite size_empty in Hsize. lia. }
    destruct (set_choose_L (X ∖ {[x]})) as [y Hy].
    { intros Hempty.
      assert (X = {[x]}) as -> by (apply set_eq; intros z;
        destruct (decide (z = x)); set_solver).
      rewrite size_singleton in Hsize. lia. }
    exists x, y. set_solver.
  - intros (x & y & Hx & Hy & Hxy).
    assert (Hsub : ({[x; y]} : gset string) ⊆ X) by set_solver.
    apply subseteq_size in Hsub.
    rewrite size_union, !size_singleton in Hsub by set_solver. lia.
Qed.

Lemma elem_of_workerGroups (g : string) (workerData : list Row) :
  g ∈ workerGroups workerData
  ↔ ∃ w, w ∈ workerData ∧ w !! "WorkerGroup" = Some g ∧ g ≠ EmptyString.
Proof.
  unfold workerGroups. rewrite elem_of_list_to_set, list_elem_of_omap.
  split.
  - intros (w & Hw & Hg). exists w. split; [done|].
    destruct (w !! "WorkerGroup") as [[|c s]|]; try done.
    cbn in Hg. by injection Hg as <-.
  - intros (w & Hw & Hg & Hne). exists w. split; [done|].
    rewrite Hg. by destruct g.
Qed.

(** X20. The advice on worker groups is given exactly when two workers
    have groups that are not empty and differ, as they are written. *)
Theorem groups_advice_iff (clientData workerData taskData : list Row) :
  groupsAdvice ∈ suggestRules clientData workerData taskData
  ↔ ∃ w1 w2 g1 g2,
      w1 ∈ workerData ∧ w2 ∈ workerData
      ∧ w1 !! "WorkerGroup" = Some g1 ∧ w2 !! "WorkerGroup" = Some g2
      ∧ g1 ≠ EmptyString ∧ g2 ≠ EmptyString ∧ g1 ≠ g2.
Proof.
  rewrite suggestRules_advice, !elem_of_app, !elem_of_adviceIf.
  assert (Hdue : groupsDue workerData = true
                 ↔ 1 < size (workerGroups workerData)).
  { unfold groupsDue. rewrite andb_true_iff, !Nat.ltb_lt. split; [tauto|].
    intros Hsize. split; [|done].
    destruct workerData; [|cbn; lia].
    unfold workerGroups in Hsize. cbn in Hsize. rewrite size_empty in Hsize. lia. }
  rewrite Hdue, size_over_one. split.
  - intros [[_ ?]|[[_ ?]|[[Hex _]|[[_ ?]|[_ ?]]]]]; try done.
    destruct Hex as (g1 & g2 & H1 & H2 & Hne).
    apply elem_of_workerGroups in H1 as (w1 & ? & ? & ?).
    apply elem_of_workerGroups in H2 as (w2 & ? & ? & ?).
    by exists w1, w2, g1, g2.
  - intros (w1 & w2 & g1 & g2 & ? & ? & ? & ? & ? & ? & ?).
    right. right. left. split; [|done].
    exists g1, g2. rewrite !elem_of_workerGroups. naive_solver.
Qed.

Lemma add_zero : JS.add (JS.ofNat 0) (JS.ofNat 0) = JS.ofNat 0.
Proof. reflexivity. Qed.

Lemma orZero_unreadable (w : Row) :
  unreadableSlots w = true →
  orZero (JS.parseIntOf (w !! "AvailableSlots")) = JS.ofNat 0.
Proof.
  unfold unreadableSlots, orZero. by destruct (JS.truthyNumber _).
Qed.

Lemma slotSum_unreadable (workerData : list Row) :
  Forall (fun w => unreadableSlots w = true) workerData →
  slotSum workerData = JS.ofNat 0.
Proof.
  unfold slotSum. induction workerData as [|w l IH] using rev_ind; [done|].
  intros [Hl Hw]%Forall_app. rewrite Forall_singleton in Hw.
  rewrite foldl_app. cbn [foldl].
  by rewrite (IH Hl), (orZero_unreadable w Hw).
Qed.

(** X21. Workers whose available slots read as no number, or as zero,
    bring no advice on slots; slots written as a list in square brackets
    read as no number. *)
Theorem unreadable_slots_no_advice (clientData workerData taskData : list Row) :
  Forall (fun w => unreadableSlots w = true) workerData →
  (slotsAdvice ∉ suggestRules clientData workerData taskData)
  ∧ (∀ (w : Row) (s : string),
        w !! "AvailableSlots" = Some (String "[" s) →
        unreadableSlots w = true).
Proof.
  intros Hall. split.
  - rewrite suggestRules_advice, !elem_of_app, !elem_of_adviceIf.
    intros [[_ ?]|[[Hdue _]|[[_ ?]|[[_ ?]|[_ ?]]]]]; try done.
    unfold slotsDue, avgCapacity in Hdue.
    rewrite (slotSum_unreadable workerData Hall) in Hdue.
    destruct workerData as [|w l]; [done|].
    apply andb_true_iff in Hdue as [_ [_ Hgt]%andb_true_iff].
    unfold JS.div, JS.ofNat, JS.ofZ, JS.isZero in Hgt.
    cbn [Qnum inject_Z] in Hgt.
    rewrite (proj2 (Z.eqb_neq (Z.of_nat (length (w :: l))) 0)) in Hgt
      by (cbn [length]; lia).
    rewrite binary64_zero in Hgt by done. done.
  - intros w s Hw. unfold unreadableSlots. by rewrite Hw.
Qed.

Lemma unreadable_slots_no_advice_witness :
  let worker : Row := {[ "WorkerID" := "W1"; "AvailableSlots" := "[1,3,5]" ]} in
  slotsAdvice ∉ suggestRules [] [worker; worker] [].
Proof.
  intros worker.
  apply (unreadable_slots_no_advice [] [worker; worker] []).
  repeat constructor.
Defined.

(** ** Similarity: when it is 1 and when it is 0 *)

Lemma distanceAt_zero (s1 s2 : string) (j i : nat) :
  distanceAt s1 s2 j i = 0 →
  i = j ∧ ∀ k, k < i → String.get k s1 = String.get k s2.
Proof.
  revert i. induction j as [|j IH]; intros i.
  - cbn. intros ->. split; [done|]. lia.
  - destruct i as [|i].
    + rewrite distanceAt_column. lia.
    + rewrite distanceAt_step. intros H.
      assert (Hd : distanceAt s1 s2 j i = 0) by lia.
      assert (Hi : indicator s1 s2 (S i) (S j) = 0) by lia.
      destruct (IH i Hd) as [-> Hk]. split; [done|].
      intros k Hlt. destruct (decide (k = j)) as [->|Hne]; [|apply Hk; lia].
      unfold indicator in Hi. rewrite Nat.sub_1_r in Hi. cbn [Nat.pred] in Hi.
      destruct (bool_decide _) eqn:Hb in Hi; [|done].
      by apply bool_decide_eq_true in Hb.
Qed.

Lemma string_get_ext (s1 s2 : string) :
  String.length s1 = String.length s2 →
  (∀ k, k < String.length s1 → String.get k s1 = String.get k s2) →
  s1 = s2.
Proof.
  revert s2. induction s1 as [|c s1 IH]; intros [|c' s2]; try done.
  cbn [String.length]. intros [= Hlen] Hget. f_equal.
  - specialize (Hget 0 ltac:(lia)). cbn in Hget. by injection Hget.
  - apply IH; [done|]. intros k Hk. apply (Hget (S k)). lia.
Qed.

(** The distance the matrix ends with is zero for equal strings only. *)
Lemma distance_zero_equal (s1 s2 : string) :
  distanceAt s1 s2 (String.length s2) (String.length s1) = 0 → s1 = s2.
Proof.
  intros [Hlen Hget]%distanceAt_zero. by apply string_get_ext.
Qed.

Section Ratios.
Local Open Scope Z_scope.

Lemma ratio_parts (d m : nat) :
  (0 < m)%nat →
  Qnum (inject_Z (Z.of_nat d) / inject_Z (Z.of_nat m)) = Z.of_nat d
  ∧ Zpos (Qden (inject_Z (Z.of_nat d) / inject_Z (Z.of_nat m))) = Z.of_nat m.
Proof.
  intros Hm. destruct m as [|m']; [lia|].
  change (Z.of_nat (S m')) with (Z.pos (Pos.of_succ_nat m')). cbn. lia.
Qed.

(** The quotient of two natural numbers [0 < d <= m]: at least
    [lo / 2^k] when [d / m] is. *)
Lemma ratio_at_least (k lo : Z) (d m : nat) :
  (0 < d)%nat → (d ≤ m)%nat → 0 ≤ k ≤ 52 →
  lo * Z.of_nat m ≤ Z.of_nat d * 2 ^ k →
  ∃ r, JS.div (JS.ofNat d) (JS.ofNat m) = JS.Fin r
       ∧ (lo # Z.to_pos (2 ^ k) <= r)%Q ∧ (r <= 1)%Q.
Proof.
  intros Hd Hdm Hk Hm.
  unfold JS.div, JS.ofNat, JS.ofZ, JS.isZero. cbn [Qnum inject_Z].
  rewrite (proj2 (Z.eqb_neq (Z.of_nat m) 0)) by lia.
  destruct (ratio_parts d m ltac:(lia)) as [Hnum Hden].
  assert (Hp : 0 < 2 ^ k) by (apply Z.pow_pos_nonneg; lia).
  destruct (binary64_between
              (inject_Z (Z.of_nat d) / inject_Z (Z.of_nat m)) k lo (2 ^ k))
    as (r & -> & Hlo & Hhi);
    rewrite ?Hnum, ?Hden; try lia.
  - pose proof (Z.log2_le_mono (Z.of_nat d) (Z.of_nat m) ltac:(lia)). lia.
  - nia.
  - exists r. split; [done|]. split; [done|].
    eapply Qle_trans; [exact Hhi|]. unfold Qle. cbn [Qnum Qden].
    rewrite Z2Pos.id by lia. lia.
Qed.

(** One minus a number between [lo / 2^k] and 1 is at most
    [1 - lo / 2^k]. *)
Lemma one_minus_at_most (k lo : Z) (r : Q) :
  0 ≤ k ≤ 52 → 0 ≤ lo → (lo # Z.to_pos (2 ^ k) <= r)%Q → (r <= 1)%Q →
  ∃ r', JS.sub (JS.ofNat 1) (JS.Fin r) = JS.Fin r'
        ∧ (r' <= (2 ^ k - lo) # Z.to_pos (2 ^ k))%Q.
Proof.
  intros Hk Hlo0 Hlo Hhi.
  assert (Hp : 0 < 2 ^ k) by (apply Z.pow_pos_nonneg; lia).
  assert (Hr0 : (0 <= r)%Q).
  { eapply Qle_trans; [|exact Hlo]. unfold Qle. cbn [Qnum Qden]. lia. }
  unfold JS.sub, JS.opp, JS.add, JS.ofNat, JS.ofZ.
  change (inject_Z (Z.of_nat 1)) with 1%Q.
  set (x := Qred (- r)).
  assert (Hx : (x == - r)%Q) by apply Qred_correct.
  assert (Hx0 : (x <= 0)%Q) by (rewrite Hx; lra).
  unfold Qle in Hx0. cbn [Qnum Qden] in Hx0.
  assert (Hx1 : (- (1) <= x)%Q) by (rewrite Hx; lra).
  assert (Hx2 : (x <= - (lo # Z.to_pos (2 ^ k)))%Q) by (rewrite Hx; lra).
  unfold Qle in Hx1, Hx2. cbn [Qnum Qden Qopp] in Hx1, Hx2.
  rewrite Z2Pos.id in Hx2 by lia.
  assert (Hnum : Qnum (1 + x) = Zpos (Qden x) + Qnum x) by (cbn; lia).
  assert (Hden : Zpos (Qden (1 + x)) = Zpos (Qden x)) by (cbn; lia).
  assert (Hx3 : - Zpos (Qden x) * 2 ^ k ≤ Qnum x * 2 ^ k)
    by (apply Z.mul_le_mono_nonneg_r; lia).
  assert (Hlo2 : lo ≤ 2 ^ k).
  { apply (Z.mul_le_mono_pos_r _ _ (Zpos (Qden x))); lia. }
  destruct (decide (Qnum (1 + x) = 0)) as [Hz|Hnz].
  - rewrite binary64_zero by done. eexists. split; [done|].
    unfold Qle. cbn [Qnum Qden]. lia.
  - destruct (binary64_between (1 + x) k 0 (2 ^ k - lo))
      as (r' & -> & _ & Hr'); rewrite ?Hnum, ?Hden; try lia.
    + pose proof (Z.log2_le_mono (Zpos (Qden x) + Qnum x) (Zpos (Qden x))
                    ltac:(lia)). lia.
    + by exists r'.
Qed.

(** One minus the quotient of a number by itself. *)
Lemma one_minus_whole (m : nat) :
  (0 < m)%nat →
  JS.sub (JS.ofNat 1) (JS.div (JS.ofNat m) (JS.ofNat m)) = JS.Fin 0.
Proof.
  intros Hm.
  assert (Hdiv : ∃ r, JS.div (JS.ofNat m) (JS.ofNat m) = JS.Fin r
                      ∧ (1 <= r)%Q ∧ (r <= 1)%Q).
  { unfold JS.div, JS.ofNat, JS.ofZ, JS.isZero. cbn [Qnum inject_Z].
    rewrite (proj2 (Z.eqb_neq (Z.of_nat m) 0)) by lia.
    destruct (ratio_parts m m ltac:(lia)) as [Hnum Hden].
    destruct (binary64_between (inject_Z (Z.of_nat m) / inject_Z (Z.of_nat m))
                0 1 1) as (r & Hr & Hlo & Hhi);
      rewrite ?Hnum, ?Hden; try lia.
    by exists r. }
  destruct Hdiv as (r & -> & Hlo & Hhi).
  unfold JS.sub, JS.opp, JS.add. apply binary64_zero.
  assert (Hx : (Qred (- r) == - r)%Q) by apply Qred_correct.
  assert (Hone : (Qred (- r) == - (1))%Q) by (rewrite Hx; lra).
  unfold Qeq in Hone. cbn [Qnum Qden Qopp] in Hone.
  change (inject_Z (Z.of_nat 1)) with 1%Q. cbn. lia.
Qed.
End Ratios.

Lemma eq_Fin (p q : Q) : JS.eq (JS.Fin p) (JS.Fin q) = true ↔ (p == q)%Q.
Proof.
  unfold JS.eq, JS.compare. rewrite Qeq_alt.
  destruct (p ?= q)%Q; split; done.
Qed.

Lemma similarity_one_equal (str1 str2 : string) :
  (Z.of_nat (Nat.max (String.length str1) (String.length str2)) < 2 ^ 32)%Z →
  JS.eq (calculateSimilarity str1 str2) (JS.ofNat 1) = true →
  str1 = str2 ∧ str1 ≠ EmptyString.
Proof.
  intros Hlen Heq.
  destruct (decide (distanceAt str1 str2 (String.length str2)
                      (String.length str1) = 0)) as [Hzero|Hpos].
  - apply distance_zero_equal in Hzero as <-. split; [done|].
    intros ->. by vm_compute in Heq.
  - exfalso. unfold calculateSimilarity in Heq.
    rewrite fillMatrix_distance in Heq.
    pose proof (distanceAt_le str1 str2 (String.length str2)
                  (String.length str1)) as Hle.
    rewrite Nat.max_comm in Hle.
    destruct (ratio_at_least 32 1
                (distanceAt str1 str2 (String.length str2)
                   (String.length str1))
                (Nat.max (String.length str1) (String.length str2)))
      as (r & Hr & Hlo & Hhi); [lia..|].
    rewrite Hr in Heq.
    destruct (one_minus_at_most 32 1 r ltac:(lia) ltac:(lia) Hlo Hhi)
      as (r' & Hr' & Hle').
    rewrite Hr' in Heq. apply eq_Fin in Heq.
    change (inject_Z (Z.of_nat 1)) with 1%Q in Heq. rewrite Heq in Hle'.
    by vm_compute in Hle'.
Qed.

(** X22. For strings of fewer than 2^32 characters the similarity is 1
    for equal strings that are not empty, and for no others: rounding
    does not bring the similarity of two different strings to 1. *)
Theorem similarity_one_iff (str1 str2 : string) :
  (Z.of_nat (Nat.max (String.length str1) (String.length str2)) < 2 ^ 32)%Z →
  JS.eq (calculateSimilarity str1 str2) (JS.ofNat 1) = true
  ↔ str1 = str2 ∧ str1 ≠ EmptyString.
Proof.
  intros Hlen. split.
  - by apply similarity_one_equal.
  - intros [<- Hne]. rewrite calculateSimilarity_same by done.
    apply eq_Fin_refl.
Qed.

Lemma similarity_one_iff_witness :
  JS.eq (calculateSimilarity "name" "name") (JS.ofNat 1) = true.
Proof.
  apply (similarity_one_iff "name" "name").
  - vm_compute. done.
  - done.
Defined.

Lemma similarity_of_empty (str : string) :
  str ≠ EmptyString → calculateSimilarity EmptyString str = JS.Fin 0.
Proof.
  intros Hne. unfold calculateSimilarity.
  rewrite fillMatrix_distance, distanceAt_column.
  cbn [String.length Nat.max]. apply one_minus_whole.
  destruct str; [done|cbn; lia].
Qed.

Lemma distanceAt_ge (s1 s2 : string) (j i : nat) :
  j - i ≤ distanceAt s1 s2 j i ∧ i - j ≤ distanceAt s1 s2 j i.
Proof.
  revert i. induction j as [|j IHj]; intros i; [cbn; lia|].
  induction i as [|i IHi]; [rewrite distanceAt_column; lia|].
  rewrite distanceAt_step.
  pose proof (IHj i). pose proof (IHj (S i)). lia.
Qed.

(** The similarity of two strings, one at least twice as long as the
    other, is not above one half. *)
Lemma similarity_gap (str1 str2 : string) :
  2 * String.length str1 ≤ String.length str2 → 0 < String.length str2 →
  JS.gt (calculateSimilarity str1 str2) threshold = false.
Proof.
  intros Hgap Hpos. unfold calculateSimilarity.
  rewrite fillMatrix_distance.
  pose proof (distanceAt_le str1 str2 (String.length str2)
                (String.length str1)) as Hle.
  pose proof (distanceAt_ge str1 str2 (String.length str2)
                (String.length str1)) as [Hge _].
  rewrite Nat.max_comm in Hle.
  destruct (ratio_at_least 1 1
              (distanceAt str1 str2 (String.length str2)
                 (String.length str1))
              (Nat.max (String.length str1) (String.length str2)))
    as (r & -> & Hlo & Hhi); [lia..|].
  destruct (one_minus_at_most 1 1 r ltac:(lia) ltac:(lia) Hlo Hhi)
    as (r' & -> & Hr').
  unfold JS.gt, threshold. apply lt_Fin_false.
  eapply Qle_trans; [exact Hr'|]. unfold Qle. cbn. lia.
Qed.

(** X23. The similarity of the empty string to a string that is not
    empty is 0; and the similarity of two strings, one at least twice as
    long as the other, is not above one half, the threshold of the column
    mapper. *)
Theorem similarity_of_unlike_lengths (str1 str2 : string) :
  2 * String.length str1 ≤ String.length str2 → 0 < String.length str2 →
  JS.gt (calculateSimilarity str1 str2) threshold = false
  ∧ JS.gt (calculateSimilarity str2 str1) threshold = false
  ∧ (str1 = EmptyString → calculateSimilarity str1 str2 = JS.Fin 0).
Proof.
  intros Hgap Hpos. split; [|split].
  - by apply similarity_gap.
  - rewrite calculateSimilarity_sym. by apply similarity_gap.
  - intros ->. apply similarity_of_empty. by destruct str2; [cbn in Hpos; lia|].
Qed.

Lemma similarity_of_unlike_lengths_witness :
  JS.gt (calculateSimilarity "id" "name") threshold = false.
Proof.
  apply (similarity_of_unlike_lengths "id" "name"); cbn; lia.
Defined.

Lemma candidates_lengths :
  Forall (fun p => shortestAlias ≤ String.length (normalize p.2)
                   ∧ String.length (normalize p.2) ≤ longestAlias)
         candidates.
Proof. apply (bool_decide_unpack _). by vm_compute. Qed.

Lemma mappingFor_unlike (header : string) :
  2 * String.length (normalize header) ≤ shortestAlias
  ∨ 2 * longestAlias ≤ String.length (normalize header) →
  mappingFor header = [].
Proof.
  intros Hlen. pose proof (mappingFor_searched header) as H.
  unfold mappedAsSearched in H.
  destruct (mappingFor header) as [|m [|m' l]]; [done| |done].
  destruct H as (_ & before & e & v & after & Hcands & _ & Hconf & Hgt & _).
  exfalso. rewrite Hconf in Hgt. unfold scoreOf in Hgt. cbn [snd] in Hgt.
  pose proof candidates_lengths as Hv.
  rewrite Hcands in Hv. apply Forall_app in Hv as [_ Hv].
  apply Forall_cons in Hv as [[Hv1 Hv2] _]. cbn [snd] in Hv1, Hv2.
  unfold shortestAlias, longestAlias in *.
  destruct Hlen as [Hshort|Hlong].
  - rewrite similarity_gap in Hgt; [done|lia..].
  - rewrite calculateSimilarity_sym, similarity_gap in Hgt; [done|lia..].
Qed.

(** X24. A header that normalizes to at most one character, among them
    the headers made of separators only, or to 36 characters or more, is
    mapped to no field: the mappings are those of the other headers. *)
Theorem header_of_unlike_length_unmapped (before after : list string)
    (header : string) :
  String.length (normalize header) ≤ 1
  ∨ 36 ≤ String.length (normalize header) →
  suggestColumnMapping (before ++ header :: after)
  = suggestColumnMapping (before ++ after).
Proof.
  intros Hlen.
  unfold suggestColumnMapping. rewrite !columnStep_foldl.
  cbn [app]. rewrite !bind_app, bind_cons.
  fold (mappingFor header). rewrite (mappingFor_unlike header); [done|].
  unfold shortestAlias, longestAlias. lia.
Qed.

Lemma header_of_unlike_length_unmapped_witness :
  suggestColumnMapping (["Client Name"] ++ " _-" :: ["Priority"])
  = suggestColumnMapping (["Client Name"] ++ ["Priority"]).
Proof.
  apply (header_of_unlike_length_unmapped ["Client Name"] ["Priority"] " _-").
  left. vm_compute. lia.
Defined.

Lemma scoreOf_unit (header : string) (p : string * string) :
  p ∈ candidates →
  ∃ q, scoreOf header p = JS.Fin q ∧ (q <= 1)%Q.
Proof.
  intros Hp. pose proof candidates_normalized as Hn.
  rewrite Forall_forall in Hn. specialize (Hn p Hp).
  destruct (calculateSimilarity_unit (normalize header) (normalize p.2))
    as (q & Hq & _ & Hle).
  { destruct (normalize p.2); [done|]. cbn [String.length]. lia. }
  by exists q.
Qed.

(** X25. A header that is an alias of the table up to case and
    separators is mapped with confidence 1, to the field of the first
    alias, in the order of the table, that it equals once normalized. *)
Theorem alias_header_mapped (header e v : string)
    (before after : list (string * string)) :
  candidates = before ++ (e, v) :: after →
  normalize header = normalize v →
  Forall (fun p => normalize p.2 ≠ normalize header) before →
  suggestColumnMapping [header] = [sureMapping header e].
Proof.
  intros Hcands Hnorm Hfirst.
  change (suggestColumnMapping [header]) with (mappingFor header).
  assert (Hin : (e, v) ∈ candidates).
  { rewrite Hcands. apply elem_of_app. right. by left. }
  assert (Hne : normalize v ≠ EmptyString).
  { pose proof candidates_normalized as Hn. rewrite Forall_forall in Hn.
    apply (Hn _ Hin). }
  assert (Hscore : scoreOf header (e, v) = JS.Fin 1).
  { unfold scoreOf. cbn [snd]. rewrite Hnorm.
    by apply calculateSimilarity_same. }
  pose proof (mappingFor_searched header) as H.
  unfold mappedAsSearched in H.
  destruct (mappingFor header) as [|m [|m' l]]; [| |done].
  { rewrite Forall_forall in H. specialize (H _ Hin).
    by rewrite Hscore in H. }
  destruct H as (Horig & b' & e' & v' & a' & Hc' & Hsug & Hconf & Hgt
                 & Hbefore & Hafter).
  assert (Hin' : (e', v') ∈ candidates).
  { rewrite Hc'. apply elem_of_app. right. by left. }
  destruct (scoreOf_unit header (e', v') Hin') as (q & Hq & Hq1).
  rewrite Hq in Hconf.
  assert (Hat : candidates !! length before = Some (e, v)).
  { rewrite Hcands. by apply list_lookup_middle. }
  assert (Hat' : candidates !! length b' = Some (e', v')).
  { rewrite Hc'. by apply list_lookup_middle. }
  destruct (Nat.lt_trichotomy (length before) (length b')) as [Hlt|[Heq|Hgt']].
  - exfalso. rewrite Hc', lookup_app_l in Hat by done.
    apply list_elem_of_lookup_2 in Hat.
    rewrite Forall_forall in Hbefore. specialize (Hbefore _ Hat).
    rewrite Hscore, Hconf in Hbefore. apply lt_Fin in Hbefore.
    by apply (Qlt_not_le _ _ Hbefore).
  - rewrite Heq, Hat' in Hat. injection Hat as -> ->.
    rewrite Hscore in Hq. injection Hq as <-.
    destruct m as [o s c]. cbn in *. by subst.
  - exfalso. rewrite Hcands, lookup_app_l in Hat' by done.
    apply list_elem_of_lookup_2 in Hat'.
    rewrite Forall_forall in Hfirst. apply (Hfirst _ Hat'). cbn [snd].
    assert (Hafter' : (e, v) ∈ a').
    { rewrite Hc' in Hat.
      rewrite lookup_app_r in Hat by lia.
      destruct (length before - length b') as [|n] eqn:Hn; [lia|].
      cbn in Hat. by apply list_elem_of_lookup_2 in Hat. }
    rewrite Forall_forall in Hafter. specialize (Hafter _ Hafter').
    rewrite Hscore, Hconf in Hafter. apply le_Fin in Hafter.
    assert (Hone : JS.eq (scoreOf header (e', v')) (JS.ofNat 1) = true).
    { rewrite Hq. apply eq_Fin.
      change (inject_Z (Z.of_nat 1)) with 1%Q. by apply Qle_antisym. }
    unfold scoreOf in Hone. cbn [snd] in Hone.
    apply similarity_one_equal in Hone as [Hone _]; [done|].
    pose proof candidates_lengths as Hl. rewrite Forall_forall in Hl.
    pose proof (Hl _ Hin) as [_ H1]. pose proof (Hl _ Hin') as [_ H2].
    cbn [snd] in H1, H2. rewrite Hnorm. unfold longestAlias in *. lia.
Qed.

Lemma alias_header_mapped_witness :
  suggestColumnMapping ["ID"] = [sureMapping "ID" "CLIENT_ID"].
Proof.
  apply (alias_header_mapped "ID" "CLIENT_ID" "id"
           (take 3 candidates) (drop 4 candidates)).
  - reflexivity.
  - reflexivity.
  - repeat constructor; by vm_compute.
Defined.

(** ** The matcher against the sets of strings *)

Lemma string_app_nil_r (s : string) : s +:+ EmptyString = s.
Proof.
  induction s as [|c s IH]; [done|].
  change (String c s +:+ EmptyString) with (String c (s +:+ EmptyString)). by rewrite IH.
Qed.

Lemma string_app_length (a b : string) :
  String.length (a +:+ b) = String.length a + String.length b.
Proof.
  induction a as [|c a IH]; [done|].
  change (String c a +:+ b) with (String c (a +:+ b)).
  cbn [String.length]. by rewrite IH.
Qed.

Section Matcher.
Context {A : Type}.

Lemma run_star (r1 : JS.regex) (s : string) (cap : option string)
    (k : string → option string → option A) :
  JS.run (JS.Star r1) s cap k = starLoop r1 k (String.length s) s cap.
Proof. reflexivity. Qed.

(** What the matcher finds is a match: a prefix in the set of the
    expression, on the rest of which the continuation succeeds. *)
Lemma run_sound (r : JS.regex) (s : string) (cap : option string)
    (k : string → option string → option A) (a : A) :
  JS.run r s cap k = Some a →
  ∃ s1 s2 cap', s = s1 +:+ s2 ∧ lang r s1 ∧ k s2 cap' = Some a.
Proof.
  revert s cap k.
  induction r as [|cls|r1 IH1 r2 IH2|r1 IH1 r2 IH2|r1 IH1|r1 IH1];
    intros s cap k Hrun.
  - exists EmptyString, s, cap. split; [done|]. split; [constructor|done].
  - cbn [JS.run] in Hrun. destruct s as [|c s]; [done|].
    destruct (cls c) eqn:Hc; [|done].
    exists (String c EmptyString), s, cap.
    split; [done|]. split; [by constructor|done].
  - cbn [JS.run] in Hrun.
    apply IH1 in Hrun as (u & s' & cap1 & -> & Hu & Hrun).
    apply IH2 in Hrun as (v & s2 & cap2 & -> & Hv & Hk).
    exists (u +:+ v), s2, cap2. rewrite string_app_assoc.
    split; [done|]. split; [by constructor|done].
  - cbn [JS.run] in Hrun. destruct (JS.run r1 s cap k) as [a'|] eqn:H1.
    + injection Hrun as ->.
      apply IH1 in H1 as (u & s2 & cap' & -> & Hu & Hk).
      exists u, s2, cap'. split; [done|]. split; [by apply lang_alt_l|done].
    + apply IH2 in Hrun as (u & s2 & cap' & -> & Hu & Hk).
      exists u, s2, cap'. split; [done|]. split; [by apply lang_alt_r|done].
  - rewrite run_star in Hrun.
    remember (String.length s) as fuel eqn:Hfuel. clear Hfuel.
    revert s cap Hrun.
    induction fuel as [|fuel IHf]; intros s cap Hrun; cbn [starLoop] in Hrun.
    + exists EmptyString, s, cap. split; [done|]. split; [constructor|done].
    + destruct (JS.run r1 s cap _) as [a'|] eqn:H1.
      * injection Hrun as ->.
        apply IH1 in H1 as (u & s' & cap1 & -> & Hu & Hloop).
        destruct (String.length s' <? String.length (u +:+ s')) eqn:Hlen;
          [|done].
        apply Nat.ltb_lt in Hlen. rewrite string_app_length in Hlen.
        apply IHf in Hloop as (v & s2 & cap2 & -> & Hv & Hk).
        exists (u +:+ v), s2, cap2. rewrite string_app_assoc.
        split; [done|]. split; [|done].
        apply lang_star_cons; [|done..]. intros ->. cbn in Hlen. lia.
      * exists EmptyString, s, cap.
        split; [done|]. split; [constructor|done].
  - cbn [JS.run] in Hrun.
    apply IH1 in Hrun as (u & s2 & cap' & -> & Hu & Hk).
    exists u, s2, (Some (substring 0 (String.length (u +:+ s2)
                                       - String.length s2) (u +:+ s2))).
    split; [done|]. split; [by constructor|done].
Qed.

(** The matcher finds a match when there is one, whatever the capture the
    continuation is handed. *)
Lemma run_complete (r : JS.regex) (s1 s2 : string) (cap : option string)
    (k : string → option string → option A) :
  lang r s1 →
  (∀ cap', is_Some (k s2 cap')) →
  is_Some (JS.run r (s1 +:+ s2) cap k).
Proof.
  revert s1 s2 cap k.
  induction r as [|cls|r1 IH1 r2 IH2|r1 IH1 r2 IH2|r1 IH1|r1 IH1];
    intros s1 s2 cap k Hlang Hk.
  - inversion Hlang; subst. apply Hk.
  - inversion Hlang as [|? c Hc| | | | | |]; subst.
    change (String c EmptyString +:+ s2) with (String c s2). cbn [JS.run].
    rewrite Hc. apply Hk.
  - inversion Hlang as [| |? ? u v Hu Hv| | | | |]; subst.
    cbn [JS.run]. rewrite string_app_assoc. apply IH1; [done|].
    intros cap'. by apply IH2.
  - cbn [JS.run]. destruct (JS.run r1 (s1 +:+ s2) cap k) eqn:H1; [done|].
    inversion Hlang as [| | |? ? ? Hu|? ? ? Hu| | |]; subst.
    + pose proof (IH1 s1 s2 cap k Hu Hk) as Hsome.
      rewrite H1 in Hsome. by destruct Hsome.
    + by apply IH2.
  - rewrite run_star.
    assert (Hloop : ∀ fuel s1 cap,
      lang (JS.Star r1) s1 → String.length (s1 +:+ s2) ≤ fuel →
      is_Some (starLoop r1 k fuel (s1 +:+ s2) cap)); [|by apply Hloop].
    clear s1 cap Hlang.
    induction fuel as [|fuel IHf]; intros s1 cap Hlang Hlen.
    + cbn [starLoop]. inversion Hlang as [| | | | |?|? u v Hne Hu Hv|]; subst.
      * apply Hk.
      * exfalso. rewrite !string_app_length in Hlen.
        destruct u; [done|]. cbn in Hlen. lia.
    + cbn [starLoop].
      inversion Hlang as [| | | | |?|? u v Hne Hu Hv|]; subst.
      * change (EmptyString +:+ s2) with s2.
        destruct (JS.run r1 s2 cap _); [done|apply Hk].
      * rewrite string_app_assoc.
        destruct (JS.run r1 (u +:+ v +:+ s2) cap _) eqn:H1; [done|].
        exfalso.
        pose proof (IH1 u (v +:+ s2) cap
                      (fun s' cap' =>
                         if String.length s' <? String.length (u +:+ v +:+ s2)
                         then starLoop r1 k fuel s' cap' else None) Hu)
          as Hsome.
        rewrite H1 in Hsome. apply is_Some_None in Hsome; [done|].
        intros cap'. rewrite (proj2 (Nat.ltb_lt _ _)).
        -- apply IHf; [done|]. rewrite !string_app_length in *.
           destruct u; [done|]. cbn in Hlen. lia.
        -- rewrite (string_app_length u). destruct u; [done|]. cbn. lia.
  - inversion Hlang; subst. cbn [JS.run]. apply IH1; [done|].
    intros cap'. apply Hk.
Qed.
End Matcher.

(** [/^r$/.test(s)] holds exactly of the strings of the set of [r]. *)
Lemma testWhole_lang (r : JS.regex) (s : string) :
  JS.testWhole r s = true ↔ lang r s.
Proof.
  unfold JS.testWhole. rewrite bool_decide_eq_true. split.
  - intros [[] Hrun].
    apply run_sound in Hrun as (s1 & s2 & cap' & -> & Hlang & Hk).
    destruct (bool_decide (s2 = EmptyString)) eqn:Hs2; [|done].
    apply bool_decide_eq_true in Hs2 as ->. by rewrite string_app_nil_r.
  - intros Hlang. rewrite <- (string_app_nil_r s).
    by apply run_complete.
Qed.

(** ** The addresses the validator accepts *)

Lemma lang_char (c : ascii) (u : string) :
  lang (JS.Char c) u ↔ u = String c EmptyString.
Proof.
  unfold JS.Char. split.
  - intros H. inversion H as [|? c' Hc| | | | | |]; subst.
    by apply Ascii.eqb_eq in Hc as ->.
  - intros ->. constructor. apply Ascii.eqb_refl.
Qed.

Lemma lang_star_plain (w : string) :
  lang (JS.Star (JS.Chr plain)) w ↔ allPlain w = true.
Proof.
  split.
  - intros H. remember (JS.Star (JS.Chr plain)) as r eqn:Hr.
    induction H as [| | | | |r1|r1 u v Hne Hu _ Hv IH|]; try done.
    injection Hr as ->.
    inversion Hu as [|? c Hc| | | | | |]; subst.
    change (String c EmptyString +:+ v) with (String c v). cbn [allPlain].
    by rewrite Hc, IH.
  - induction w as [|c w IH]; [constructor|].
    cbn [allPlain]. intros [Hc Hw]%andb_true_iff.
    change (String c w) with (String c EmptyString +:+ w).
    apply lang_star_cons; [done|by constructor|by apply IH].
Qed.

Lemma lang_part (w : string) :
  lang (JS.Plus (JS.Chr plain)) w ↔ addressPart w.
Proof.
  unfold JS.Plus, addressPart. split.
  - intros H. inversion H as [| |? ? u v Hu Hv| | | | |]; subst.
    inversion Hu as [|? c Hc| | | | | |]; subst.
    apply lang_star_plain in Hv.
    change (String c EmptyString +:+ v) with (String c v). split; [done|].
    cbn [allPlain]. by rewrite Hc, Hv.
  - intros [Hne Hw]. destruct w as [|c w]; [done|].
    cbn [allPlain] in Hw. apply andb_true_iff in Hw as [Hc Hw].
    change (String c w) with (String c EmptyString +:+ w).
    constructor; [by constructor|by apply lang_star_plain].
Qed.

Lemma lang_email (s : string) : lang emailRegex s ↔ addressShaped s.
Proof.
  change emailRegex
    with (JS.Seq (JS.Plus (JS.Chr plain))
            (JS.Seq (JS.Char "@")
               (JS.Seq (JS.Plus (JS.Chr plain))
                  (JS.Seq (JS.Char ".") (JS.Plus (JS.Chr plain)))))).
  unfold addressShaped. split.
  - intros H.
    inversion H as [| |? ? a v1 Ha H1| | | | |]; subst.
    inversion H1 as [| |? ? at_ v2 Hat H2| | | | |]; subst.
    inversion H2 as [| |? ? b v3 Hb H3| | | | |]; subst.
    inversion H3 as [| |? ? dot c Hdot Hc| | | | |]; subst.
    apply lang_char in Hat as ->. apply lang_char in Hdot as ->.
    exists a, b, c. by rewrite <- !lang_part.
  - intros (a & b & c & -> & Ha & Hb & Hc).
    repeat constructor; by apply lang_part.
Qed.

(** X26. The check of an address accepts the falsy values (undefined,
    null, false, zero, NaN and the empty string) and the values whose text
    is made of a part, an at sign, a part, a dot and a part, where a part
    is one or more characters other than the at sign and white space, the
    no-break space included; it reports an error on every other value. *)
Theorem email_check (DateParse : string → JS.number)
    (value : option JS.value) (fieldName : string) (rowIndex : nat) :
  dataType DateParse value "email" fieldName rowIndex = None
  ↔ JS.ToBoolean value = false
    ∨ ∃ v, value = Some v ∧ addressShaped (JS.ToString v).
Proof.
  unfold dataType. destruct value as [v|]; [|by split; [left|]].
  destruct (JS.ToBoolean (Some v)) eqn:Htruthy; cbn [negb];
    [|by split; [left|]].
  rewrite (bool_decide_eq_false_2 ("email" = "number")) by done.
  rewrite (bool_decide_eq_true_2 ("email" = "email")) by done.
  destruct (JS.testWhole emailRegex (JS.ToString v)) eqn:Htest; cbn [negb].
  - split; [|done]. intros _. right. exists v. split; [done|].
    by apply lang_email, testWhole_lang.
  - split; [done|]. intros [?|(v' & [= <-] & Hshape)]; [done|].
    apply lang_email, testWhole_lang in Hshape. congruence.
Qed.

(** ** Slots written as a list in square brackets *)

Lemma rev_app_snoc (x acc : string) (c : ascii) :
  String.rev_app (x +:+ String c EmptyString) acc
  = String c (String.rev_app x acc).
Proof.
  revert acc. induction x as [|a x IH]; intros acc; [done|].
  change (String a x +:+ String c EmptyString) with (String a (x +:+ String c EmptyString)).
  cbn [String.rev_app]. apply IH.
Qed.

Lemma rev_app_acc (x acc : string) :
  String.rev_app x acc = String.rev_app x EmptyString +:+ acc.
Proof.
  revert acc. induction x as [|a x IH]; intros acc; [done|].
  cbn [String.rev_app]. rewrite (IH (String a acc)), (IH (String a EmptyString)).
  by rewrite string_app_assoc.
Qed.

Lemma trimStart_keeps_last (x : string) (c : ascii) :
  JS.isWhiteSpace c = false →
  ∃ x', JS.trimStart (x +:+ String c EmptyString) = x' +:+ String c EmptyString.
Proof.
  intros Hc. induction x as [|a x [x' IH]].
  - exists EmptyString. change (EmptyString +:+ String c EmptyString) with (String c EmptyString).
    cbn [JS.trimStart]. by rewrite Hc.
  - change (String a x +:+ String c EmptyString) with (String a (x +:+ String c EmptyString)).
    cbn [JS.trimStart]. destruct (JS.isWhiteSpace a).
    + by exists x'.
    + by exists (String a x).
Qed.

Lemma trim_keeps_first (c : ascii) (s : string) :
  JS.isWhiteSpace c = false → ∃ s', JS.trim (String c s) = String c s'.
Proof.
  intros Hc. unfold JS.trim, JS.trimEnd. cbn [JS.trimStart]. rewrite Hc.
  unfold String.rev at 2. cbn [String.rev_app]. rewrite rev_app_acc.
  destruct (trimStart_keeps_last (String.rev_app s EmptyString) c Hc) as [x' ->].
  unfold String.rev. rewrite rev_app_snoc. by eexists.
Qed.

Lemma Number_bracket (s : string) :
  JS.ToNumber (Some (JS.Str (String "[" s))) = JS.NaN.
Proof.
  cbn [JS.ToNumber]. unfold JS.StringToNumber. cbv zeta.
  destruct (trim_keeps_first "[" s eq_refl) as [s' ->].
  rewrite bool_decide_eq_false_2 by done. reflexivity.
Qed.

Lemma elem_of_pushWhen (x s : DataQuality.AIValidationSuggestion)
    (condition : bool) (l : list DataQuality.AIValidationSuggestion) :
  x ∈ DataQuality.pushWhen condition s l ↔ x ∈ l ∨ (condition = true ∧ x = s).
Proof.
  unfold DataQuality.pushWhen. destruct condition.
  - rewrite elem_of_app, list_elem_of_singleton. naive_solver.
  - naive_solver.
Qed.

(** X27. Slots written as a list in square brackets do not read as a
    number: a table with such a worker is not valid, and the suggestions
    on its quality hold the sentence on slots that are not numeric. *)
Theorem bracketed_slots_rejected (DateParse : string → JS.number)
    (data : list Validators.Row) (worker : Validators.Row) (s : string) :
  worker ∈ data →
  worker !! "AvailableSlots" = Some (JS.Str (String "[" s)) →
  isValid (validateWorkerData DateParse data) = false
  ∧ ∃ suggestions,
      DataQuality.generateDataQualitySuggestions data "workers"
      = Some suggestions
      ∧ DataQuality.slotsNotNumeric ∈ suggestions.
Proof.
  intros Hin Hslots. split.
  - apply not_true_iff_false. intros Hvalid.
    rewrite validateWorkerData_issues in Hvalid.
    apply (report_valid_iff data _ cleanWorker) in Hvalid as [Hclean _];
      [|apply workerIssues_clean|apply duplicates_errors].
    rewrite Forall_forall in Hclean. specialize (Hclean _ Hin).
    unfold cleanWorker, numericOrEmpty in Hclean.
    rewrite Hslots, Number_bracket in Hclean.
    cbn [JS.ToBoolean JS.truthy JS.isNaN andb negb] in Hclean.
    by rewrite !andb_false_r in Hclean.
  - eexists. split; [reflexivity|].
    apply elem_of_pushWhen. left. apply elem_of_pushWhen. right.
    split; [|done]. unfold DataQuality.hasNonNumericSlots.
    apply existsb_exists. exists (Some (JS.Str (String "[" s))). split.
    + apply List.filter_In. split; [|done].
      apply List.in_map_iff. exists worker. split; [done|].
      by apply list_elem_of_In.
    + by rewrite Number_bracket.
Qed.

Lemma bracketed_slots_rejected_witness :
  let worker : Validators.Row :=
    {[ "WorkerID" := JS.Str "W1"; "WorkerName" := JS.Str "Ada";
       "Skills" := JS.Str "python"; "AvailableSlots" := JS.Str "[1,3,5]";
       "MaxLoadPerPhase" := JS.Num (JS.ofNat 2) ]} in
  isValid (validateWorkerData (fun _ => JS.NaN) [worker]) = false.
Proof.
  intros worker.
  apply (bracketed_slots_rejected (fun _ => JS.NaN) [worker] worker "1,3,5]").
  - apply list_elem_of_singleton. reflexivity.
  - reflexivity.
Defined.

(** ** The advice on slots for whole numbers *)

Section WholeNumbers.
Local Open Scope Z_scope.

(** Rounding leaves an integer below 2^52 as it is. *)
Lemma binary64_whole (q : Q) (z : Z) :
  (q == inject_Z z)%Q → 0 ≤ z < 2 ^ 52 → countsAs (JS.binary64 q) z.
Proof.
  intros Hq Hz. unfold Qeq in Hq. cbn [Qnum Qden inject_Z] in Hq.
  rewrite Z.mul_1_r in Hq.
  destruct (decide (z = 0)) as [->|Hnz].
  - exists 0%Q. split; [|done]. apply binary64_zero. lia.
  - assert (Hd : 0 < Zpos (Qden q)) by lia.
    assert (Hnum : 0 < Qnum q) by nia.
    assert (Hlog : Z.log2 (Qnum q) - Z.log2 (Zpos (Qden q)) ≤ 52 - 0).
    { rewrite Hq.
      pose proof (Z.log2_nonneg (Zpos (Qden q))) as Hl.
      pose proof (Z.log2_spec (Zpos (Qden q)) Hd) as [_ Hup].
      rewrite <- Z.add_1_r in Hup.
      assert (Z.log2 (z * Zpos (Qden q)) < 52 + (Z.log2 (Zpos (Qden q)) + 1));
        [|lia].
      apply Z.log2_lt_pow2; [nia|].
      rewrite Z.pow_add_r by lia. nia. }
    destruct (binary64_between q 0 z z Hnum ltac:(lia) Hlog)
      as (r & -> & Hlo & Hhi); [change (2 ^ 0) with 1; lia..|].
    exists r. split; [done|].
    change (Z.to_pos (2 ^ 0)) with 1%positive in *.
    apply Qle_antisym; [exact Hhi|exact Hlo].
Qed.

Lemma countsAs_add (x y : JS.number) (a b : Z) :
  countsAs x a → countsAs y b → 0 ≤ a → 0 ≤ b → a + b < 2 ^ 52 →
  countsAs (JS.add x y) (a + b).
Proof.
  intros (p & -> & Hp) (q & -> & Hq) Ha Hb Hab. cbn [JS.add].
  apply binary64_whole; [|lia].
  rewrite Hp, Hq. by rewrite inject_Z_plus.
Qed.

Lemma slotSum_whole (workerData : list Row) (zs : list Z) :
  Forall2 (fun w z => countsAs (slotCount w) z ∧ 0 ≤ z < 2 ^ 31)
          workerData zs →
  Z.of_nat (length workerData) < 2 ^ 20 →
  countsAs (slotSum workerData) (total zs)
  ∧ 0 ≤ total zs ≤ Z.of_nat (length workerData) * 2 ^ 31.
Proof.
  revert zs. unfold slotSum.
  induction workerData as [|w l IH] using rev_ind; intros zs Hall Hlen.
  - apply Forall2_nil_inv_l in Hall as ->. split; [|done].
    exists 0%Q. by split.
  - apply Forall2_app_inv_l in Hall as (zs1 & zs2 & Hl & Hw & ->).
    apply Forall2_cons_inv_l in Hw as (z & zs3 & [Hz Hbound] & Hnil & ->).
    apply Forall2_nil_inv_l in Hnil as ->.
    rewrite length_app in Hlen. cbn [length] in Hlen.
    destruct (IH zs1 Hl ltac:(lia)) as [Hsum Htotal].
    assert (Happ : total (zs1 ++ [z]) = total zs1 + z).
    { unfold total. rewrite foldr_app. cbn [foldr].
      rewrite Z.add_0_r. clear. induction zs1 as [|a zs1 IH]; cbn [foldr].
      - lia.
      - rewrite IH. lia. }
    rewrite Happ, foldl_app, length_app. cbn [foldl length]. split.
    + apply countsAs_add; [done|done|lia..].
    + lia.
Qed.

(** The average of whole slots against its two bounds. *)
Lemma average_between (x : JS.number) (s : Z) (n : nat) :
  countsAs x s → 0 ≤ s ≤ Z.of_nat n * 2 ^ 31 → (0 < n)%nat →
  Z.of_nat n < 2 ^ 20 →
  (JS.lt (JS.div x (JS.ofNat n)) (JS.ofNat 20) = true ↔ s < 20 * Z.of_nat n)
  ∧ (JS.gt (JS.div x (JS.ofNat n)) (JS.ofNat 0) = true ↔ 0 < s).
Proof.
  intros (p & -> & Hp) Hs Hn Hbound.
  unfold JS.div, JS.ofNat, JS.ofZ, JS.isZero, JS.gt. cbn [Qnum inject_Z].
  rewrite (proj2 (Z.eqb_neq (Z.of_nat n) 0)) by lia.
  unfold Qeq in Hp. cbn [Qnum Qden inject_Z] in Hp. rewrite Z.mul_1_r in Hp.
  set (q := (p / inject_Z (Z.of_nat n))%Q).
  assert (Hnum : Qnum q = Qnum p).
  { subst q. destruct n as [|n']; [lia|].
    change (Z.of_nat (S n')) with (Z.pos (Pos.of_succ_nat n')). cbn. lia. }
  assert (Hden : Zpos (Qden q) = Zpos (Qden p) * Z.of_nat n).
  { subst q. destruct n as [|n']; [lia|].
    change (Z.of_nat (S n')) with (Z.pos (Pos.of_succ_nat n')). cbn. lia. }
  assert (Hd : 0 < Zpos (Qden p)) by lia.
  destruct (decide (s = 0)) as [->|Hpos].
  { rewrite binary64_zero by lia. rewrite !lt_Fin.
    unfold Qlt. cbn [Qnum Qden inject_Z]. lia. }
  assert (Hnumpos : 0 < Qnum q) by nia.
  assert (Hlog : Z.log2 (Qnum q) - Z.log2 (Zpos (Qden q)) ≤ 52 - 20).
  { pose proof (Z.log2_nonneg (Zpos (Qden q))) as Hl.
    pose proof (Z.log2_spec (Zpos (Qden q)) ltac:(lia)) as [_ Hup].
    rewrite <- Z.add_1_r in Hup.
    assert (Z.log2 (Qnum q) < 31 + (Z.log2 (Zpos (Qden q)) + 1)); [|lia].
    apply Z.log2_lt_pow2; [lia|].
    rewrite Z.pow_add_r by lia. rewrite Hnum, Hp. rewrite Hden in *. nia. }
  split.
  - destruct (decide (s < 20 * Z.of_nat n)) as [Hlt|Hge].
    + destruct (binary64_between q 20 0 (20 * 2 ^ 20 - 1)
                  Hnumpos ltac:(lia) Hlog) as (r & -> & _ & Hr).
      * lia.
      * rewrite Hnum, Hp, Hden. nia.
      * rewrite lt_Fin. split; [done|]. intros _.
        eapply Qle_lt_trans; [exact Hr|]. by vm_compute.
    + destruct (binary64_between q 20 (20 * 2 ^ 20) (2 ^ 31 * 2 ^ 20)
                  Hnumpos ltac:(lia) Hlog) as (r & -> & Hr & _).
      * rewrite Hnum, Hp, Hden. nia.
      * rewrite Hnum, Hp, Hden. nia.
      * rewrite lt_Fin. split; [|done]. intros Hlt. exfalso.
        apply (Qlt_not_le _ _ Hlt).
        eapply Qle_trans; [|exact Hr]. by vm_compute.
  - destruct (binary64_between q 20 1 (2 ^ 31 * 2 ^ 20)
                Hnumpos ltac:(lia) Hlog) as (r & -> & Hr & _).
    + rewrite Hnum, Hp, Hden. nia.
    + rewrite Hnum, Hp, Hden. nia.
    + rewrite lt_Fin. split; [lia|]. intros _.
      eapply Qlt_le_trans; [|exact Hr]. by vm_compute.
Qed.
End WholeNumbers.

(** X28. When the slots of every worker read as a whole number below
    2^31, NaN counting as zero, and the workers are fewer than 2^20, the
    advice on limited slots is given exactly when the sum of the slots is
    above zero and below twenty times the number of workers: the sum and
    the average are exact enough for the two comparisons. *)
Theorem slots_advice_iff (clientData workerData taskData : list Row)
    (zs : list Z) :
  Forall2 (fun w z => countsAs (slotCount w) z ∧ (0 ≤ z < 2 ^ 31)%Z)
          workerData zs →
  (Z.of_nat (length workerData) < 2 ^ 20)%Z →
  slotsAdvice ∈ suggestRules clientData workerData taskData
  ↔ (0 < total zs < 20 * Z.of_nat (length workerData))%Z.
Proof.
  intros Hall Hlen.
  rewrite suggestRules_advice, !elem_of_app, !elem_of_adviceIf.
  destruct (slotSum_whole workerData zs Hall Hlen) as [Hsum Htotal].
  assert (Hdue : slotsDue workerData = true
                 ↔ (0 < total zs < 20 * Z.of_nat (length workerData))%Z).
  { unfold slotsDue, avgCapacity.
    destruct (Nat.eq_dec (length workerData) 0) as [Hnil|Hpos].
    - rewrite Hnil. cbn [Nat.ltb Nat.leb andb]. split; [done|]. lia.
    - rewrite (proj2 (Nat.ltb_lt 0 _)) by lia. cbn [andb].
      destruct (average_between (slotSum workerData) (total zs)
                  (length workerData) Hsum Htotal ltac:(lia) Hlen)
        as [Hlt Hgt].
      rewrite andb_true_iff, Hlt, Hgt. lia. }
  rewrite Hdue. split.
  - intros [[_ ?]|[[? _]|[[_ ?]|[[_ ?]|[_ ?]]]]]; done.
  - intros H. right. left. done.
Qed.

Lemma slots_advice_iff_witness :
  let worker (slots : string) : Row :=
    {[ "WorkerID" := "W" +:+ slots; "AvailableSlots" := slots ]} in
  slotsAdvice ∈ suggestRules [] [worker "3"; worker "none"; worker "5"] [].
Proof.
  intros worker.
  apply (slots_advice_iff [] [worker "3"; worker "none"; worker "5"] []
           [3; 0; 5]%Z).
  - repeat constructor; try (cbn; lia).
    + exists (3 # 1)%Q. split; reflexivity.
    + exists (0 # 1)%Q. split; reflexivity.
    + exists (5 # 1)%Q. split; reflexivity.
  - cbn. lia.
  - cbn. lia.
Defined.
